(** * pyluach dates: a shallow embedding of [pyluach/dates.py] and of the
    [hebrew_month] helper of [main.py]

    Conventions of the embedding.

    - Python [int] is [Z]; [//] and [%] with a positive right operand are
      [Z.div] and [Z.modulo] (both floor), [int(x)] on a float truncates
      toward zero.
    - Python [float] is modelled by the exact rationals [Q].  The rationals
      agree with the doubles of the code as long as the Julian days stay
      within [in_exact_range] (at most 2^50 in absolute value): there every
      float the module manipulates is a dyadic number ([n], [n.5],
      [365.25 * y]) on which IEEE arithmetic is exact, with the single
      exception of [30.6001 * month]; there the month ranges over 4..15 and
      the rounding error (about 1e-14) is far too small to change the
      truncated value.  The statements about float arithmetic carry that
      range as a hypothesis; what the code does outside it is shown on the
      doubles themselves, in [Binary64].  Float comparison is [Qeq]/[Qle]
      on the rationals.
    - Exceptions, [None], [NotImplemented] and the fuel of the one [while]
      loop are the constructors of [outcome].
    - [pyluach/utils.py] and [pyluach/gematria.py] are not part of the
      sources at hand: their functions are the fields of the classes [utils]
      and [renderers]. *)

From Stdlib Require Import ZArith QArith Qabs Lia Lqa List Bool String Ascii.
From Stdlib Require Import DecimalString.
From Stdlib Require Floats.FloatOps.
Import ListNotations.
Local Open Scope Z_scope.

(** ** Python primitives *)

Module Py.

(** [int(x)] for a float [x]: truncation toward zero. *)
Definition int (x : Q) : Z := Z.quot (Qnum x) (Z.pos (Qden x)).

(** [x < y] and [x <= y] on floats. *)
Definition le (x y : Q) : bool := Qle_bool x y.
Definition lt (x y : Q) : bool := negb (Qle_bool y x).
Definition eq (x y : Q) : bool := Qeq_bool x y.

(** [str(n)] for an int. *)
Definition str (n : Z) : string := NilZero.string_of_int (Z.to_int n).

(** [format(n, '02d')]: sign, then digits zero-padded to a total width
    of two. *)
Definition format_02d (n : Z) : string :=
  let digits := str (Z.abs n) in
  if n <? 0 then ("-" ++ digits)%string
  else if (String.length digits <? 2)%nat then ("0" ++ digits)%string
  else digits.

(** [lst.remove(x)]: drops the first occurrence (the [ValueError] of a
    missing element never arises: the one call removes 13 from a literal
    list that holds it). *)
Fixpoint remove (x : Z) (l : list Z) : list Z :=
  match l with
  | [] => []
  | y :: t => if y =? x then t else y :: remove x t
  end.

(** [x in lst] *)
Definition In (x : Z) (l : list Z) : bool := existsb (Z.eqb x) l.

End Py.

(** ** Exceptions and outcomes *)

(** The [ValueError]s of the module, one constructor per message. *)
Inductive ValueError_msg : Type :=
| invalid_month (month : Z)        (* '{month} is an invalid month.' *)
| month_has_days (monthlength : Z) (* 'Given month has {monthlength} days.' *)
| year_must_be_positive            (* 'Year must be >= 1.' *)
| not_a_leap_year (year : Z)       (* '{year} is not a leap year' *)
| before_creation                  (* 'Date is before creation' *)
| ends_with_percent                (* 'Format string cannot end with single %.' *)
| ends_with_percent_star           (* 'Format string cannot end with %*.' *)
| ends_with_percent_star_dash      (* 'Format string cannot end with %*-' *)
| ends_with_percent_dash           (* 'Format string cannot end with %-' *)
| invalid_format_string            (* 'Invalid format string.' *)
| year_out_of_range (year : Z)     (* datetime.date: 'year {year} is out of range' *)
| month_must_be_in_1_12            (* datetime.date: 'month must be in 1..12' *)
| day_out_of_range                 (* datetime.date: 'day is out of range for month' *)
| cannot_convert_nan.              (* int(nan): 'cannot convert float NaN to integer' *)

Inductive exn : Type :=
| ValueError (msg : ValueError_msg)
| TypeError
| AttributeError
| OverflowError.

(** What a call can do: return a value, return [None], return
    [NotImplemented], raise, or (in the model only) exhaust the fuel given to
    the [while] loop of [to_heb]. *)
Inductive outcome (A : Type) : Type :=
| Return (a : A)
| ReturnNone
| NotImplemented
| Raise (e : exn)
| OutOfFuel.

Arguments Return {A} a.
Arguments ReturnNone {A}.
Arguments NotImplemented {A}.
Arguments Raise {A} e.
Arguments OutOfFuel {A}.

Definition bind {A B : Type} (m : outcome A) (k : A -> outcome B) : outcome B :=
  match m with
  | Return a => k a
  | ReturnNone => ReturnNone
  | NotImplemented => NotImplemented
  | Raise e => Raise e
  | OutOfFuel => OutOfFuel
  end.

Declare Scope outcome_scope.
Delimit Scope outcome_scope with outcome.
Notation "x <- m ;; k" := (bind m (fun x => k))
  (at level 61, m at next level, right associativity) : outcome_scope.
Local Open Scope outcome_scope.

(** The formatting errors raised by [HebrewDate.__format__] itself. *)
Definition is_format_error (e : exn) : bool :=
  match e with
  | ValueError ends_with_percent
  | ValueError ends_with_percent_star
  | ValueError ends_with_percent_star_dash
  | ValueError ends_with_percent_dash
  | ValueError invalid_format_string => true
  | _ => false
  end.

(** ** Collaborators that are not in the sources *)

(** [pyluach.utils]: the Hebrew calendar arithmetic. *)
Class utils : Type := {
  _elapsed_days : Z -> Z;        (* utils._elapsed_days(year) *)
  _month_length : Z -> Z -> Z;   (* utils._month_length(year, month) *)
  _is_leap : Z -> bool           (* utils._is_leap(year) *)
}.

(** The string renderers used by [HebrewDate.__format__]. *)
Class renderers : Type := {
  (* gematria._num_to_str(num, thousands=False, withgershayim=True) *)
  _num_to_str : Z -> bool -> bool -> string;
  (* utils.WEEKDAYS[weekday] *)
  WEEKDAYS : Z -> string;
  (* utils._month_name(year, month, hebrew) *)
  _month_name : Z -> Z -> bool -> string;
  (* datetime.date(year, month, day).strftime('%' + directive) *)
  strftime : Z * Z * Z -> ascii -> string
}.

(** ** The data model *)

(** [CalendarDateMixin.__init__]: the four attributes of a calendar date. *)
Record CalendarDateMixin : Type := mkCalendarDate {
  year : Z;
  month : Z;
  day : Z;
  _jd : option Q
}.

Definition tuple (c : CalendarDateMixin) : Z * Z * Z := (year c, month c, day c).

(** The three concrete subclasses of [BaseDate]. *)
Inductive date : Type :=
| AJulianDay (day : Q)
| AGregorianDate (c : CalendarDateMixin)
| AHebrewDate (c : CalendarDateMixin).

(** The right operand of a binary operator: a number or a date. *)
Inductive operand : Type :=
| Num (n : Z)
| Date (d : date).

(** What [__sub__] returns: a date ([date - int]) or a day count
    ([date - date]). *)
Inductive value : Type :=
| VDate (d : date)
| VFloat (x : Q).

(** [datetime.date(year, month, day)]: years 1..9999 only. *)
Definition MINYEAR : Z := 1.
Definition MAXYEAR : Z := 9999.

(** ** datetime.date *)

Module datetime.

(** The calendar checks of [datetime.date(year, month, day)] followed by
    [strftime]: only the construction can fail.  The constructor first
    parses its three arguments as C [int]s and raises [OverflowError] for
    one that does not fit, then checks the year, the month and the day. *)
Definition c_int (n : Z) : bool := (-2147483648 <=? n) && (n <=? 2147483647).

Definition _is_leap (year : Z) : bool :=
  (year mod 4 =? 0) && (negb (year mod 100 =? 0) || (year mod 400 =? 0)).

Definition _days_in_month (year month : Z) : Z :=
  if (month =? 2) && _is_leap year then 29
  else nth (Z.to_nat month) [0; 31; 28; 31; 30; 31; 30; 31; 31; 30; 31; 30; 31] 0.

Definition date (year month day : Z) : outcome (Z * Z * Z) :=
  if negb (c_int year && c_int month && c_int day)
  then Raise OverflowError
  else if (year <? MINYEAR) || (year >? MAXYEAR)
  then Raise (ValueError (year_out_of_range year))
  else if (month <? 1) || (month >? 12)
  then Raise (ValueError month_must_be_in_1_12)
  else if (day <? 1) || (day >? _days_in_month year month)
  then Raise (ValueError day_out_of_range)
  else Return (year, month, day).

End datetime.

(** ** GregorianDate *)

Module GregorianDate.

Definition _is_leap (year : Z) : bool :=
  let year := if year <? 0 then year + 1 else year in
  if (year mod 4 =? 0) && negb ((year mod 100 =? 0) && negb (year mod 400 =? 0))
  then true else false.

Definition _monthlength (year month : Z) : Z :=
  if Py.In month [1; 3; 5; 7; 8; 10; 12] then 31
  else if month =? 2 then (if _is_leap year then 29 else 28)
  else 30.

Definition __init__ (year month day : Z) (jd : option Q) : outcome date :=
  if (month <? 1) || (month >? 12) then Raise (ValueError (invalid_month month))
  else
    let monthlength := _monthlength year month in
    if (day <? 1) || (day >? monthlength)
    then Raise (ValueError (month_has_days monthlength))
    else Return (AGregorianDate (mkCalendarDate year month day jd)).

(** The [jd] property; the value it stores in [self._jd] on first use is
    the value it returns, so the cache is read here and never written.
    [365.25*year] and the final sum are the doubles of the code for a
    result within [in_exact_range]. *)
Definition jd (self : CalendarDateMixin) : Q :=
  match _jd self with
  | Some v => v
  | None =>
      let year := year self in
      let month := month self in
      let day := day self in
      let year := if year <? 0 then year + 1 else year in
      let '(year, month) :=
        if month <? 3 then (year - 1, month + 12) else (year, month) in
      let month := month + 1 in
      let a := year / 100 in
      let b := 2 - a + a / 4 in
      (inject_Z (Py.int (365.25 * inject_Z year)
                 + Py.int (30.6001 * inject_Z month) + b + day)
       + 1720994.5)%Q
  end.

(** [to_pydate]: [date( *self.tuple())]. *)
Definition to_pydate (self : CalendarDateMixin) : outcome (Z * Z * Z) :=
  datetime.date (year self) (month self) (day self).

End GregorianDate.

(** ** HebrewDate: construction and the [jd] property *)

Module HebrewDate.
Section WithUtils.
Context {U : utils}.

Definition __init__ (year month day : Z) (jd : option Q) : outcome date :=
  if year <? 1 then Raise (ValueError year_must_be_positive)
  else if (month <? 1) || (month >? 13) then Raise (ValueError (invalid_month month))
  else if negb (_is_leap year) && (month =? 13)
  then Raise (ValueError (not_a_leap_year year))
  else
    let monthlength := _month_length year month in
    if (day <? 1) || (day >? monthlength)
    then Raise (ValueError (month_has_days monthlength))
    else Return (AHebrewDate (mkCalendarDate year month day jd)).

(** The month order of the civil year, Tishrei first. *)
Definition months (year : Z) : list Z :=
  let months := [7; 8; 9; 10; 11; 12; 13; 1; 2; 3; 4; 5; 6] in
  if negb (_is_leap year) then Py.remove 13 months else months.

(** One turn of the [for m in months] loop of the [jd] property; the state
    is the local [jd] and [self._jd]. *)
Definition jd_step (self : CalendarDateMixin) (st : Z * option Q) (m : Z)
  : Z * option Q :=
  let '(jd, cache) := st in
  if negb (m =? month self) then (jd + _month_length (year self) m, cache)
  else (jd, Some (inject_Z (jd + (day self - 1)) + 347996.5)%Q).

(** The [jd] property: [None] when the loop never meets [self.month].  The
    sum with [347996.5] is the double of the code for a result within
    [in_exact_range]. *)
Definition jd (self : CalendarDateMixin) : option Q :=
  match _jd self with
  | Some v => Some v
  | None =>
      snd (fold_left (jd_step self) (months (year self))
             (_elapsed_days (year self), None))
  end.

End WithUtils.
End HebrewDate.

(** ** JulianDay *)

Module JulianDay.

(** [JulianDay.__init__]: the stored [day], for a [day] below 2^52 in
    absolute value; from there on the doubles have no halves
    ([Binary64.__init__]). *)
Definition normalize (day : Q) : Q :=
  if Py.lt (day - inject_Z (Py.int day)) 0.5
  then (inject_Z (Py.int day) - 0.5)%Q
  else (inject_Z (Py.int day) + 0.5)%Q.

Definition __init__ (day : Q) : date := AJulianDay (normalize day).

(** The Fliegel-Van Flandern steps of [to_greg], up to the [return]. *)
Definition to_greg_fields (self_day : Q) : Z * Z * Z :=
  let jd := Py.int (self_day + 0.5) in
  let L := jd + 68569 in
  let n := 4 * L / 146097 in
  let L := L - (146097 * n + 3) / 4 in
  let i := (4000 * (L + 1)) / 1461001 in
  let L := L - ((1461 * i) / 4) + 31 in
  let j := (80 * L) / 2447 in
  let day := L - 2447 * j / 80 in
  let L := j / 11 in
  let month := j + 2 - 12 * L in
  let year := 100 * (n - 49) + i + L in
  let year := if year <? 1 then year - 1 else year in
  (year, month, day).

Definition to_greg (self_day : Q) : outcome date :=
  let '(year, month, day) := to_greg_fields self_day in
  GregorianDate.__init__ year month day (Some self_day).

Section WithUtils.
Context {U : utils}.

(** [while first_day > jd: year -= 1; first_day = _elapsed_days(year)],
    with fuel; [None] when the fuel runs out. *)
Fixpoint while_first_day (fuel : nat) (year first_day jd : Z) : option (Z * Z) :=
  if first_day >? jd then
    match fuel with
    | O => None
    | S fuel =>
        let year := year - 1 in
        while_first_day fuel year (_elapsed_days year) jd
    end
  else Some (year, first_day).

(** [for month in months: ...] of [to_heb]; falling off the end of the
    loop returns [None]. *)
Fixpoint for_month (self_day : Q) (year : Z) (months : list Z)
         (days_remaining : Z) : outcome date :=
  match months with
  | [] => ReturnNone
  | month :: months =>
      if days_remaining >=? _month_length year month
      then for_month self_day year months
             (days_remaining - _month_length year month)
      else HebrewDate.__init__ year month (days_remaining + 1) (Some self_day)
  end.

Definition to_heb (fuel : nat) (self_day : Q) : outcome date :=
  if Py.le self_day 347997 then Raise (ValueError before_creation)
  else
    let jd := Py.int (self_day + 0.5) in
    let jd := jd - 347997 in
    let year := jd / 365 + 2 in
    let first_day := _elapsed_days year in
    match while_first_day fuel year first_day jd with
    | None => OutOfFuel
    | Some (year, first_day) =>
        let days_remaining := jd - first_day in
        for_month self_day year (HebrewDate.months year) days_remaining
    end.

(** [_to_x(self, type_)] *)
Definition _to_x (fuel : nat) (self_day : Q) (type_ : date) : outcome date :=
  match type_ with
  | AGregorianDate _ => to_greg self_day
  | AHebrewDate _ => to_heb fuel self_day
  | AJulianDay _ => Return (AJulianDay self_day)
  end.

End WithUtils.
End JulianDay.

(** ** BaseDate: the operators shared by the three kinds *)

Module BaseDate.
Section WithUtils.
Context {U : utils}.

(** The abstract [jd] property, dispatched on the kind; [None] is the
    [None] of a Hebrew date whose month is in no month list. *)
Definition jd (self : date) : option Q :=
  match self with
  | AJulianDay day => Some day
  | AGregorianDate c => Some (GregorianDate.jd c)
  | AHebrewDate c => HebrewDate.jd c
  end.

(** [other.jd]: an [AttributeError] on a number. *)
Definition operand_jd (other : operand) : outcome (option Q) :=
  match other with
  | Num _ => Raise AttributeError
  | Date d => Return (jd d)
  end.

(** [JulianDay(x)._to_x(self)] *)
Definition shifted (fuel : nat) (self : date) (x : Q) : outcome date :=
  JulianDay._to_x fuel (JulianDay.normalize x) self.

(** [__add__]: a [TypeError] ([None + int], [float + date]) becomes
    [NotImplemented].  The sums [self.jd + other] and [self.jd - other] of
    [__add__] and [__sub__], and [jd + .5 + 1] of [weekday], are the doubles
    of the code for operands and results within [in_exact_range]
    ([Binary64.__add__] shows the rounding outside). *)
Definition __add__ (fuel : nat) (self : date) (other : operand) : outcome date :=
  match jd self, other with
  | Some x, Num n => shifted fuel self (x + inject_Z n)
  | _, _ => NotImplemented
  end.

Definition __sub__ (fuel : nat) (self : date) (other : operand) : outcome value :=
  match other with
  | Num n =>
      match jd self with
      | Some x => d <- shifted fuel self (x - inject_Z n) ;; Return (VDate d)
      | None => NotImplemented
      end
  | Date o =>
      match jd self, jd o with
      | Some x, Some y => Return (VFloat (Qabs (x - y)))
      | _, _ => NotImplemented
      end
  end.

(** [a == b] on two optional floats ([None == None] is true). *)
Definition jd_eq (x y : option Q) : bool :=
  match x, y with
  | Some x, Some y => Py.eq x y
  | None, None => true
  | _, _ => false
  end.

Definition __eq__ (self : date) (other : operand) : outcome bool :=
  match operand_jd other with
  | Return y => Return (jd_eq (jd self) y)
  | _ => NotImplemented
  end.

Definition __ne__ (self : date) (other : operand) : outcome bool :=
  match operand_jd other with
  | Return y => Return (negb (jd_eq (jd self) y))
  | _ => NotImplemented
  end.

(** An ordering comparison of two optional floats: a [TypeError] when one
    is [None]. *)
Definition jd_cmp (cmp : Q -> Q -> bool) (x y : option Q) : outcome bool :=
  match x, y with
  | Some x, Some y => Return (cmp x y)
  | _, _ => Raise TypeError
  end.

Definition ordering (cmp : Q -> Q -> bool) (self : date) (other : operand)
  : outcome bool :=
  match operand_jd other with
  | Return y => jd_cmp cmp (jd self) y
  | _ => NotImplemented
  end.

Definition __lt__ := ordering Py.lt.
Definition __gt__ := ordering (fun x y => Py.lt y x).
Definition __le__ := ordering Py.le.
Definition __ge__ := ordering (fun x y => Py.le y x).

Definition weekday (self : date) : outcome Z :=
  match jd self with
  | Some x => Return (Py.int (x + 0.5 + 1) mod 7 + 1)
  | None => Raise TypeError
  end.

Definition isoweekday (self : date) : outcome Z :=
  weekday <- weekday self ;;
  if weekday =? 1 then Return 7 else Return (weekday - 1).

(** The binary operator [self + other]: no operand here has a reflected
    method, so [NotImplemented] ends in a [TypeError]. *)
Definition plus (fuel : nat) (self : date) (other : operand) : outcome date :=
  match __add__ fuel self other with
  | NotImplemented => Raise TypeError
  | r => r
  end.

Definition minus (fuel : nat) (self : date) (other : operand) : outcome value :=
  match __sub__ fuel self other with
  | NotImplemented => Raise TypeError
  | r => r
  end.

(** The operator [self == other]: after [NotImplemented] from both sides
    ([int.__eq__] knows no dates) Python compares identities, and a date
    is never the same object as a number. *)
Definition equals (self : date) (other : operand) : outcome bool :=
  match __eq__ self other with
  | NotImplemented =>
      match other with
      | Num _ => Return false
      | Date o =>
          match __eq__ o (Date self) with
          | NotImplemented => Return false
          | r => r
          end
      end
  | r => r
  end.

Definition shabbos (fuel : nat) (self : date) : outcome date :=
  weekday <- weekday self ;;
  plus fuel self (Num (7 - weekday)).

(** [to_jd], and [to_greg] and [to_pydate] as a Hebrew date has them
    ([self.to_jd().to_greg()], [self.to_greg().to_pydate()]). *)
Definition to_jd (self : date) : outcome date :=
  match jd self with
  | Some x => Return (JulianDay.__init__ x)
  | None => Raise TypeError
  end.

Definition to_greg (self : date) : outcome date :=
  match jd self with
  | Some x => JulianDay.to_greg (JulianDay.normalize x)
  | None => Raise TypeError
  end.

Definition to_pydate (self : date) : outcome (Z * Z * Z) :=
  g <- to_greg self ;;
  match g with
  | AGregorianDate c => GregorianDate.to_pydate c
  | _ => Raise AttributeError
  end.

End WithUtils.
End BaseDate.

(** ** HebrewDate.__format__ *)

Module HebrewFormat.
Section WithCollaborators.
Context {U : utils} {R : renderers}.

Definition month_name (self : CalendarDateMixin) (hebrew : bool) : string :=
  _month_name (year self) (month self) hebrew.

Definition hebrew_day (self : CalendarDateMixin) (withgershayim : bool) : string :=
  _num_to_str (day self) false withgershayim.

Definition hebrew_year (self : CalendarDateMixin) (thousands : bool) : string :=
  _num_to_str (year self) thousands true.

(** [self.to_pydate()] of a Hebrew date: [self.to_greg().to_pydate()]. *)
Definition to_pydate (self : CalendarDateMixin) : outcome (Z * Z * Z) :=
  BaseDate.to_pydate (AHebrewDate self).

Definition weekday (self : CalendarDateMixin) : outcome Z :=
  BaseDate.weekday (AHebrewDate self).

(** [curr.casefold() == c] for a lower-case ASCII letter [c]. *)
Definition casefold_is (curr lower upper : ascii) : bool :=
  Ascii.eqb curr lower || Ascii.eqb curr upper.

(** The [while i < len(fmt)] loop; [fmt] is the part of the directive string
    from index [i] on and [new] the list of pieces appended so far. *)
Fixpoint loop (self : CalendarDateMixin) (fmt : string) (new : list string)
  : outcome string :=
  match fmt with
  | EmptyString => Return (String.concat "" new)
  | String c fmt1 =>
    if negb (Ascii.eqb c "%") then loop self fmt1 (new ++ [String c ""])
    else
      match fmt1 with
      | EmptyString => Raise (ValueError ends_with_percent)
      | String curr fmt2 =>
        if Ascii.eqb curr "%" then loop self fmt2 (new ++ ["%"%string])
        else if Ascii.eqb curr "*" then
          match fmt2 with
          | EmptyString => Raise (ValueError ends_with_percent_star)
          | String curr fmt3 =>
            if Ascii.eqb curr "-" then
              match fmt3 with
              | EmptyString => Raise (ValueError ends_with_percent_star_dash)
              | String curr fmt4 =>
                if Ascii.eqb curr "d"
                then loop self fmt4 (new ++ [hebrew_day self false])
                else Raise (ValueError invalid_format_string)
              end
            else if Ascii.eqb curr "a" then
              w <- weekday self ;;
              loop self fmt3 (new ++ [_num_to_str w false true])
            else if Ascii.eqb curr "A" then
              w <- weekday self ;;
              loop self fmt3 (new ++ [WEEKDAYS w])
            else if Ascii.eqb curr "d" then
              loop self fmt3 (new ++ [hebrew_day self true])
            else if Ascii.eqb curr "B" then
              loop self fmt3 (new ++ [month_name self true])
            else if casefold_is curr "y" "Y" then
              loop self fmt3 (new ++ [hebrew_year self (Ascii.eqb curr "Y")])
            else Raise (ValueError invalid_format_string)
          end
        else if Ascii.eqb curr "-" then
          match fmt2 with
          | EmptyString => Raise (ValueError ends_with_percent_dash)
          | String curr fmt3 =>
            if Ascii.eqb curr "d" then loop self fmt3 (new ++ [Py.str (day self)])
            else if Ascii.eqb curr "m" then loop self fmt3 (new ++ [Py.str (month self)])
            else Raise (ValueError invalid_format_string)
          end
        else if casefold_is curr "a" "A" then
          d <- to_pydate self ;;
          loop self fmt2 (new ++ [strftime d curr])
        else if Ascii.eqb curr "w" then
          w <- weekday self ;;
          loop self fmt2 (new ++ [Py.str w])
        else if Ascii.eqb curr "d" then
          loop self fmt2 (new ++ [Py.format_02d (day self)])
        else if Ascii.eqb curr "B" then
          loop self fmt2 (new ++ [month_name self false])
        else if Ascii.eqb curr "m" then
          loop self fmt2 (new ++ [Py.format_02d (month self)])
        else if casefold_is curr "y" "Y" then
          d <- datetime.date (year self) 1 1 ;;
          loop self fmt2 (new ++ [strftime d curr])
        else Raise (ValueError invalid_format_string)
      end
  end.

Definition __format__ (self : CalendarDateMixin) (fmt : string) : outcome string :=
  loop self fmt [].

End WithCollaborators.
End HebrewFormat.

(** ** main.py: the month-name helper of the [/date] route *)

Module main.
Section WithUtils.
Context {U : utils}.

Definition hebrew_leap (year : Z) : bool :=
  if (((year * 7) + 1) mod 19) <? 7 then true else false.

(** [hebrew_month(htoday)]; [htoday.hebrew_leap] is an attribute no date
    has. *)
Definition hebrew_month (htoday : date) : outcome string :=
  match htoday with
  | AJulianDay _ => Raise AttributeError
  | AGregorianDate c | AHebrewDate c =>
    if month c =? 1 then Return "Nisan"%string
    else if month c =? 2 then Return "Iyyar"%string
    else if month c =? 3 then Return "Sivan"%string
    else if month c =? 4 then Return "Tammuz"%string
    else if month c =? 5 then Return "Av"%string
    else if month c =? 6 then Return "Elul"%string
    else if month c =? 7 then Return "Tishri"%string
    else if month c =? 8 then Return "Heshvan"%string
    else if month c =? 9 then Return "Kislev"%string
    else if month c =? 10 then Return "Teveth"%string
    else
      is11 <- BaseDate.equals htoday (Num 11) ;;
      if is11 then Return "Shevat"%string
      else
        is12 <- BaseDate.equals htoday (Num 12) ;;
        if is12 then Raise AttributeError
        else
          is13 <- BaseDate.equals htoday (Num 13) ;;
          if is13 then Return "Adar II"%string
          else ReturnNone
  end.

End WithUtils.
End main.

(** ** A reference instance of the calendar collaborator *)

Module Reference.

(** Modelled from the spec: [utils._is_leap] of the missing
    [pyluach/utils.py]; section 4.3 gives the test,
    [(7 * year + 1) mod 19 < 7]. *)
Definition is_leap (year : Z) : bool :=
  if ((7 * year) + 1) mod 19 <? 7 then true else false.

(** Modelled from the spec: [utils._elapsed_days] of the missing
    [pyluach/utils.py].  Section 6 fixes its contract only (the day offset
    of 1 Tishrei, strictly increasing in the year); the instance is the
    customary molad arithmetic (months of 29d 12h 793p and the four
    postponement rules), used where a closed example needs numbers. *)
Definition elapsed_days (year : Z) : Z :=
  let months_elapsed :=
    (235 * ((year - 1) / 19)) + (12 * ((year - 1) mod 19))
    + (7 * ((year - 1) mod 19) + 1) / 19 in
  let parts_elapsed := 204 + 793 * (months_elapsed mod 1080) in
  let hours_elapsed :=
    5 + 12 * months_elapsed + 793 * (months_elapsed / 1080)
    + parts_elapsed / 1080 in
  let conjunction_day := 1 + 29 * months_elapsed + hours_elapsed / 24 in
  let conjunction_parts := 1080 * (hours_elapsed mod 24) + parts_elapsed mod 1080 in
  let alt_day :=
    if (conjunction_parts >=? 19440)
       || ((conjunction_day mod 7 =? 2) && (conjunction_parts >=? 9924)
           && negb (is_leap year))
       || ((conjunction_day mod 7 =? 1) && (conjunction_parts >=? 16789)
           && is_leap (year - 1))
    then conjunction_day + 1 else conjunction_day in
  if Py.In (alt_day mod 7) [0; 3; 5] then alt_day + 1 else alt_day.

Definition days_in_year (year : Z) : Z :=
  elapsed_days (year + 1) - elapsed_days year.

(** Modelled from the spec: [utils._month_length] of the missing
    [pyluach/utils.py]; day counts consistent with the leap test and with
    the length of the year (section 6), Cheshvan and Kislev taking up the
    difference. *)
Definition month_length (year month : Z) : Z :=
  if Py.In month [1; 3; 5; 7; 11] then 30
  else if Py.In month [2; 4; 6; 10; 13] then 29
  else if month =? 12 then (if is_leap year then 30 else 29)
  else if month =? 8 then (if days_in_year year mod 10 =? 5 then 30 else 29)
  else if month =? 9 then (if days_in_year year mod 10 =? 3 then 29 else 30)
  else 0.

Definition calendar : utils :=
  {| _elapsed_days := elapsed_days;
     _month_length := month_length;
     _is_leap := is_leap |}.

(** Modelled from the spec: the numeral and name collaborators of section 6
    ([gematria.py] and the tables of [utils.py] are missing).  The spec
    fixes their call shape only; these stand-ins print numbers in decimal
    (the one for [strftime] prints the year whatever the directive), and
    no statement below depends on what they print: they only fill the
    class where a closed example needs an instance. *)
Definition decimal : renderers :=
  {| _num_to_str := fun num _ _ => Py.str num;
     WEEKDAYS := Py.str;
     _month_name := fun _ month _ => Py.str month;
     strftime := fun d _ => Py.str (fst (fst d)) |}.

End Reference.

(** ** The spec's wording, for comparison with the code *)

Module Spec.

(** Section 4.1 of the spec: [floor(raw) - 0.5] when the fractional part of
    [raw] is below one half, [floor(raw) + 0.5] otherwise. *)
Definition floor (x : Q) : Z := Qnum x / Z.pos (Qden x).



(** Section 4.4: [floor(jd + 1.5) mod 7 + 1]. *)
Definition weekday (jd : Q) : Z := floor (jd + 1.5) mod 7 + 1.

(** Sections 4.5 and 9: the directive grammar as a scanner with the states
    LITERAL, AFTER_PERCENT, AFTER_STAR, AFTER_DASH and AFTER_STAR_DASH; a
    directive that is not in the table, or a string that ends inside a
    directive, is rejected. *)
Inductive scanner_state : Type :=
| LITERAL
| AFTER_PERCENT
| AFTER_STAR
| AFTER_DASH
| AFTER_STAR_DASH.

Definition one_of (c : ascii) (s : string) : bool :=
  existsb (Ascii.eqb c) (list_ascii_of_string s).

Definition step (s : scanner_state) (c : ascii) : option scanner_state :=
  match s with
  | LITERAL => if Ascii.eqb c "%" then Some AFTER_PERCENT else Some LITERAL
  | AFTER_PERCENT =>
      if Ascii.eqb c "*" then Some AFTER_STAR
      else if Ascii.eqb c "-" then Some AFTER_DASH
      else if one_of c "%dmBaAwyY" then Some LITERAL
      else None
  | AFTER_STAR =>
      if Ascii.eqb c "-" then Some AFTER_STAR_DASH
      else if one_of c "dBaAyY" then Some LITERAL
      else None
  | AFTER_DASH => if one_of c "dm" then Some LITERAL else None
  | AFTER_STAR_DASH => if one_of c "d" then Some LITERAL else None
  end.

Fixpoint scan (s : scanner_state) (fmt : string) : bool :=
  match fmt with
  | EmptyString => match s with LITERAL => true | _ => false end
  | String c fmt =>
      match step s c with
      | Some s => scan s fmt
      | None => false
      end
  end.

(** Every directive of [fmt] is in the table and none is cut short. *)
Definition well_formed (fmt : string) : bool := scan LITERAL fmt.

End Spec.

(** ** Vocabulary of the statements *)

(** A midnight value [n.5]. *)
Definition half_integer (x : Q) : Prop := exists n : Z, x == inject_Z n + 0.5.

(** The integer the [jd] property of a Gregorian date adds to [1720994.5]. *)
Definition day_number (year month day : Z) : Z :=
  let year := if year <? 0 then year + 1 else year in
  let '(year, month) :=
    if month <? 3 then (year - 1, month + 12) else (year, month) in
  let month := month + 1 in
  let a := year / 100 in
  let b := 2 - a + a / 4 in
  Py.int (365.25 * inject_Z year) + Py.int (30.6001 * inject_Z month) + b + day.

(** The integer steps of [to_greg], one quotient at a time. *)
Definition quot_n (jd : Z) : Z := 4 * (jd + 68569) / 146097.
Definition rest_n (jd n : Z) : Z := jd + 68569 - (146097 * n + 3) / 4.
Definition quot_i (L : Z) : Z := (4000 * (L + 1)) / 1461001.
Definition rest_i (L i : Z) : Z := L - ((1461 * i) / 4) + 31.
Definition quot_j (L : Z) : Z := (80 * L) / 2447.
Definition assemble (n i j L : Z) : Z * Z * Z :=
  (100 * (n - 49) + i + j / 11, j + 2 - 12 * (j / 11), L - 2447 * j / 80).

Definition fliegel (jd : Z) : Z * Z * Z :=
  let n := quot_n jd in
  let L := rest_n jd n in
  let i := quot_i L in
  let L := rest_i L i in
  let j := quot_j L in
  assemble n i j L.

(** [if year < 1: year -= 1] *)
Definition no_year_zero (ymd : Z * Z * Z) : Z * Z * Z :=
  let '(year, month, day) := ymd in
  (if year <? 1 then year - 1 else year, month, day).

(** The three quotients of [to_greg] agree on [jd1] and [jd2]. *)
Definition same_quotients (jd1 jd2 : Z) : bool :=
  let n := quot_n jd1 in
  let L1 := rest_n jd1 n in
  let L2 := rest_n jd2 n in
  let i := quot_i L1 in
  (quot_n jd2 =? n) && (quot_i L2 =? i)
  && (quot_j (rest_i L2 i) =? quot_j (rest_i L1 i)).

(** The month after [(year, month)]. *)
Definition next_month (ym : Z * Z) : Z * Z :=
  let '(year, month) := ym in
  if month =? 12 then (year + 1, 1) else (year, month + 1).

(** One month of the calendar checked against [to_greg]: its first day maps
    back to itself, its last day shares the quotients of the first, and the
    next month starts on the following day. *)
Definition month_checks (ym : Z * Z) : bool :=
  let '(year, month) := ym in
  let first := day_number year month 1 + 1720995 in
  let len := GregorianDate._monthlength year month in
  let '(year', month') := next_month ym in
  match fliegel first with
  | (y, m, d) => (y =? year) && (m =? month) && (d =? 1)
  end
  && same_quotients first (first + len - 1)
  && (day_number year' month' 1 + 1720995 =? first + len).

(** [lo, lo+1, ..., lo+count-1] *)
Fixpoint upto (lo : Z) (count : nat) : list Z :=
  match count with
  | O => []
  | S count => lo :: upto (lo + 1) count
  end.

(** The 4800 months of the years 1..400. *)
Definition cycle_months : list (Z * Z) :=
  flat_map (fun year => map (pair year) (upto 1 12)) (upto 1 400).

(** ** Vocabulary of the Hebrew statements *)

Section HebrewVocabulary.
Context {U : utils}.

(** The days of the months of [months], and of those before [month]. *)
Fixpoint days_in (year : Z) (months : list Z) : Z :=
  match months with
  | [] => 0
  | m :: months => _month_length year m + days_in year months
  end.

Fixpoint days_before (year month : Z) (months : list Z) : Z :=
  match months with
  | [] => 0
  | m :: months =>
      if m =? month then 0
      else _month_length year m + days_before year month months
  end.

(** The first guess of [to_heb] for the year of the day [self_day]. *)
Definition year_estimate (self_day : Q) : Z :=
  (Py.int (self_day + 0.5) - 347997) / 365 + 2.

(** What section 6 of the spec promises of the calendar collaborator, on the
    years up to [Ymax]: year 1 starts on day 1; the first days of the years
    are spaced by the lengths of the months (hence strictly increasing); a
    month has at least one day; and the years are long enough for the
    estimate of [to_heb] never to fall short of the year sought. *)
Definition contract (Ymax : Z) : Prop :=
  _elapsed_days 1 = 1
  /\ (forall y, 1 <= y < Ymax ->
        _elapsed_days (y + 1)
        = _elapsed_days y + days_in y (HebrewDate.months y))
  /\ (forall y m, 1 <= y < Ymax -> In m (HebrewDate.months y) ->
        1 <= _month_length y m)
  /\ (forall y, 1 <= y <= Ymax -> 365 * (y - 2) <= _elapsed_days y).

(** The day [x] is one whose year [to_heb] looks for below [Ymax]. *)
Definition in_scope (Ymax : Z) (x : Q) : Prop := year_estimate x < Ymax.

(** The objects the module builds: a [JulianDay] holds a midnight value; a
    calendar date has fields its constructor accepts, and a cache that is
    empty or holds the midnight value of the [JulianDay] it was converted
    from (after the epoch guard, for a Hebrew date). *)
Definition constructed (d : date) : Prop :=
  match d with
  | AJulianDay x => half_integer x
  | AGregorianDate c =>
      GregorianDate.__init__ (year c) (month c) (day c) (_jd c) = Return d
      /\ (forall v, _jd c = Some v -> half_integer v)
  | AHebrewDate c =>
      HebrewDate.__init__ (year c) (month c) (day c) (_jd c) = Return d
      /\ (forall v, _jd c = Some v -> half_integer v /\ (347997 < v)%Q)
  end.

(** The expression [(date + n) - n == date]. *)
Definition add_then_subtract (fuel : nat) (d : date) (n : Z) : outcome bool :=
  d1 <- BaseDate.plus fuel d (Num n) ;;
  v <- BaseDate.minus fuel d1 (Num n) ;;
  match v with
  | VDate d2 => BaseDate.equals d2 (Date d)
  | VFloat _ => Raise TypeError
  end.

(** The expression [date.shabbos().weekday()] and
    [date.shabbos() == date]. *)
(** A conversion that lands on the midnight value it was given, as a date of
    the same kind. *)
Definition same_kind (a b : date) : bool :=
  match a, b with
  | AJulianDay _, AJulianDay _ => true
  | AGregorianDate _, AGregorianDate _ => true
  | AHebrewDate _, AHebrewDate _ => true
  | _, _ => false
  end.

Definition lands (fuel : nat) (d : date) (x : Q) : Prop :=
  exists d', BaseDate.shifted fuel d x = Return d'
             /\ BaseDate.jd d' = Some (JulianDay.normalize x)
             /\ same_kind d d' = true.

Definition shabbos_weekday (fuel : nat) (d : date) : outcome Z :=
  s <- BaseDate.shabbos fuel d ;; BaseDate.weekday s.

Definition shabbos_is_self (fuel : nat) (d : date) : outcome bool :=
  s <- BaseDate.shabbos fuel d ;; BaseDate.equals s (Date d).

End HebrewVocabulary.

(** The names [hebrew_month] knows for the months 1..10. *)
Definition early_month_names : list string :=
  ["Nisan"; "Iyyar"; "Sivan"; "Tammuz"; "Av"; "Elul"; "Tishri"; "Heshvan";
   "Kislev"; "Teveth"]%string.

Definition is_hebrew (d : date) : bool :=
  match d with
  | AHebrewDate _ => true
  | _ => false
  end.

(** The reference calendar, one year at a time: [count] years from [y], the
    first of which starts on day [e].  A common year has 353..355 days, a
    leap year 383..385, and the estimate of [to_heb] holds. *)
Fixpoint reference_years (count : nat) (y e : Z) : bool :=
  match count with
  | O => true
  | S count =>
      let e' := Reference.elapsed_days (y + 1) in
      (if Reference.is_leap y then Py.In (e' - e) [383; 384; 385]
       else Py.In (e' - e) [353; 354; 355])
      && (365 * (y - 2) <=? e)
      && reference_years count (y + 1) e'
  end.

(** ** More of the module: conversions between the kinds *)

Section Conversions.
Context {U : utils}.

(** [GregorianDate.is_leap(self)] *)
Definition GregorianDate_is_leap (self : CalendarDateMixin) : bool :=
  GregorianDate._is_leap (year self).

(** [GregorianDate.to_jd]: [JulianDay(self.jd)]. *)
Definition GregorianDate_to_jd (self : CalendarDateMixin) : date :=
  JulianDay.__init__ (GregorianDate.jd self).

(** [GregorianDate.to_heb]: [self.to_jd().to_heb()]. *)
Definition GregorianDate_to_heb (fuel : nat) (self : CalendarDateMixin)
  : outcome date :=
  match GregorianDate_to_jd self with
  | AJulianDay day => JulianDay.to_heb fuel day
  | _ => Raise AttributeError
  end.

(** [GregorianDate.from_pydate(pydate)]: [cls( *pydate.timetuple()[:3])]; a
    [datetime.date] is the triple its constructor returned. *)
Definition GregorianDate_from_pydate (pydate : Z * Z * Z) : outcome date :=
  let '(year, month, day) := pydate in
  GregorianDate.__init__ year month day None.

(** [JulianDay.to_pydate]: [self.to_greg().to_pydate()]. *)
Definition JulianDay_to_pydate (self_day : Q) : outcome (Z * Z * Z) :=
  g <- JulianDay.to_greg self_day ;;
  match g with
  | AGregorianDate c => GregorianDate.to_pydate c
  | _ => Raise AttributeError
  end.

(** [JulianDay.from_pydate(pydate)]:
    [GregorianDate.from_pydate(pydate).to_jd()]. *)
Definition JulianDay_from_pydate (pydate : Z * Z * Z) : outcome date :=
  g <- GregorianDate_from_pydate pydate ;;
  match g with
  | AGregorianDate c => Return (GregorianDate_to_jd c)
  | _ => Raise AttributeError
  end.

(** [HebrewDate.from_pydate(pydate)]:
    [GregorianDate.from_pydate(pydate).to_heb()]. *)
Definition HebrewDate_from_pydate (fuel : nat) (pydate : Z * Z * Z)
  : outcome date :=
  g <- GregorianDate_from_pydate pydate ;;
  match g with
  | AGregorianDate c => GregorianDate_to_heb fuel c
  | _ => Raise AttributeError
  end.

(** The expressions [(date + n).weekday()] and [(date + n) - date]. *)
Definition weekday_after (fuel : nat) (d : date) (n : Z) : outcome Z :=
  d1 <- BaseDate.plus fuel d (Num n) ;; BaseDate.weekday d1.

Definition distance_after (fuel : nat) (d : date) (n : Z) : outcome value :=
  d1 <- BaseDate.plus fuel d (Num n) ;; BaseDate.minus fuel d1 (Date d).

(** The expression [(date + n) + m == date + (n + m)]. *)
Definition add_twice_is_add_sum (fuel : nat) (d : date) (n m : Z) : outcome bool :=
  d1 <- BaseDate.plus fuel d (Num n) ;;
  d2 <- BaseDate.plus fuel d1 (Num m) ;;
  d3 <- BaseDate.plus fuel d (Num (n + m)) ;;
  BaseDate.equals d2 (Date d3).

(** The expression [greg.to_heb().to_greg()], as a tuple. *)
Definition to_heb_and_back (fuel : nat) (self : CalendarDateMixin)
  : outcome (Z * Z * Z) :=
  h <- GregorianDate_to_heb fuel self ;;
  g <- BaseDate.to_greg h ;;
  match g with
  | AGregorianDate c => Return (tuple c)
  | _ => Raise AttributeError
  end.

End Conversions.

(** ** main.py: the Gregorian month names of the [/date] route *)

(** [greg_month(mes)]; falling off the [if] chain returns [None]. *)
Definition greg_month (mes : Z) : outcome string :=
  if mes =? 1 then Return "janeiro"%string
  else if mes =? 2 then Return "fevereiro"%string
  else if mes =? 3 then Return "março"%string
  else if mes =? 4 then Return "abril"%string
  else if mes =? 5 then Return "maio"%string
  else if mes =? 6 then Return "junho"%string
  else if mes =? 7 then Return "julho"%string
  else if mes =? 8 then Return "agosto"%string
  else if mes =? 9 then Return "setembro"%string
  else if mes =? 10 then Return "outubro"%string
  else if mes =? 11 then Return "novembro"%string
  else if mes =? 12 then Return "dezembro"%string
  else ReturnNone.

(** ** Vocabulary of the further statements *)

(** The calendar day after [(year, month, day)], for a year of the common
    era. *)
Definition next_day (ymd : Z * Z * Z) : Z * Z * Z :=
  let '(year, month, day) := ymd in
  if day <? GregorianDate._monthlength year month then (year, month, day + 1)
  else if month <? 12 then (year, month + 1, 1)
  else (year + 1, 1, 1).

(** [(y, m, d) < (y', m', d')] as Python orders tuples. *)
Definition tuple_lt (a b : Z * Z * Z) : Prop :=
  let '(y, m, d) := a in
  let '(y', m', d') := b in
  y < y' \/ (y = y' /\ (m < m' \/ (m = m' /\ d < d'))).

(** How many of the [count] years from [lo] satisfy [leap]. *)
Definition leap_count (leap : Z -> bool) (lo : Z) (count : nat) : nat :=
  List.length (filter leap (upto lo count)).

(** The names [greg_month] knows, January first. *)
Definition greg_month_names : list string :=
  ["janeiro"; "fevereiro"; "março"; "abril"; "maio"; "junho"; "julho";
   "agosto"; "setembro"; "outubro"; "novembro"; "dezembro"]%string.

(** Every window of [count] years that starts at one of [los] holds
    [expected] leap years. *)
Definition window_checks (leap : Z -> bool) (expected count : nat)
           (los : list Z) : bool :=
  forallb (fun lo => Nat.eqb (leap_count leap lo count) expected) los.

(** The place of [month] in [months], counted from 0. *)
Fixpoint position (month : Z) (months : list Z) : nat :=
  match months with
  | [] => O
  | m :: months => if m =? month then O else S (position month months)
  end.

(** The month after [month] in [months]; [None] after the last one. *)
Fixpoint month_after (month : Z) (months : list Z) : option Z :=
  match months with
  | [] => None
  | m :: months =>
      if m =? month then hd_error months else month_after month months
  end.

Section HebrewOrder.
Context {U : utils}.

(** [(y, m, d)] is before [(y', m', d')] in the Hebrew calendar: an earlier
    year, or an earlier month of the same year in the order of
    [HebrewDate.months] (Tishrei first), or an earlier day of the same
    month. *)
Definition hebrew_lt (a b : Z * Z * Z) : Prop :=
  let '(y, m, d) := a in
  let '(y', m', d') := b in
  y < y'
  \/ (y = y'
      /\ ((position m (HebrewDate.months y) < position m' (HebrewDate.months y))%nat
          \/ (m = m' /\ d < d'))).

(** The day after [(year, month, day)] in the Hebrew calendar: the year
    changes after the last month of [HebrewDate.months], Elul. *)
Definition next_hebrew_day (ymd : Z * Z * Z) : Z * Z * Z :=
  let '(year, month, day) := ymd in
  if day <? _month_length year month then (year, month, day + 1)
  else
    match month_after month (HebrewDate.months year) with
    | Some m => (year, m, 1)
    | None => (year + 1, 7, 1)
    end.

(** The day of [(year, month, day)], counted as [HebrewDate.jd] counts it
    before the offset 347996.5 is added. *)
Definition hebrew_day_number (year month day : Z) : Z :=
  _elapsed_days year + days_before year month (HebrewDate.months year)
  + (day - 1).

End HebrewOrder.

(** ** HebrewDate.hebrew_date_string *)

Section Rendering.
Context {R : renderers}.

(** [hebrew_date_string(self, thousands=False)]: [f'{day} {month} {year}']
    of [hebrew_day()], [month_name(True)] and [hebrew_year(thousands)]. *)
Definition hebrew_date_string (self : CalendarDateMixin) (thousands : bool)
  : string :=
  let day := HebrewFormat.hebrew_day self true in
  let month := HebrewFormat.month_name self true in
  let year := HebrewFormat.hebrew_year self thousands in
  (day ++ " " ++ month ++ " " ++ year)%string.

End Rendering.

(** ** The range in which the rationals are the doubles of the code *)

(** 2^50.  Up to this bound every midnight value [n.5] is a double, so the
    float additions of [__add__], [__sub__], [weekday] and
    [JulianDay.__init__] are exact; and a Gregorian date with such a [jd]
    has a year below 3.1e12 in absolute value, so that [365.25 * year],
    which is [1461 * year / 4], is a double as well. *)
Definition exact_range : Z := 1125899906842624.

Definition in_exact_range (x : Q) : Prop := (Qabs x <= inject_Z exact_range)%Q.

(** The Julian day converts to a double: below 2^1023 the [int + float] of
    the [jd] property does not raise [OverflowError], so [jd] and
    [weekday()] return (a weekday that is the right one only within
    [in_exact_range]). *)
Definition fits_double (x : Q) : Prop := (Qabs x < inject_Z (2 ^ 1023))%Q.

(** ** The directives [__format__] hands to [datetime] *)

(** Reading [fmt] from the scanner state [s], a directive [%a], [%A], [%y]
    or [%Y] is met before any directive that is cut short or not in the
    table: these four are the ones [__format__] renders through
    [to_pydate().strftime] and [date(self.year, 1, 1).strftime]. *)
Fixpoint delegates (s : Spec.scanner_state) (fmt : string) : bool :=
  match fmt with
  | EmptyString => false
  | String c fmt =>
      match s with
      | Spec.AFTER_PERCENT => Spec.one_of c "aAyY"
      | _ => false
      end
      || match Spec.step s c with
         | Some s => delegates s fmt
         | None => false
         end
  end.

Definition uses_datetime (fmt : string) : bool := delegates Spec.LITERAL fmt.

(** ** The float arithmetic of [JulianDay] on doubles *)

(** The methods of a [JulianDay] that compute with floats, on IEEE binary64
    numbers (the kernel's primitive floats) instead of the rationals: what
    the code does with days outside [in_exact_range]. *)
Module Binary64.
Import PrimFloat FloatOps SpecFloat.

(** [int(x)] for a float: truncation toward zero; [OverflowError] on an
    infinity, [ValueError] on a NaN. *)
Definition int (x : float) : outcome Z :=
  match Prim2SF x with
  | S754_zero _ => Return 0
  | S754_infinity _ => Raise OverflowError
  | S754_nan => Raise (ValueError cannot_convert_nan)
  | S754_finite negative m e =>
      let magnitude :=
        if 0 <=? e then Z.pos m * 2 ^ e else Z.quot (Z.pos m) (2 ^ (- e)) in
      Return (if negative then - magnitude else magnitude)
  end.

(** The conversion of an [int] operand in [float + int] and [int - float]:
    the nearest double, ties to even; [OverflowError] beyond the doubles. *)
Definition float_of_int (n : Z) : outcome float :=
  match SpecFloat.binary_normalize 53 1024 n 0 false with
  | S754_infinity _ => Raise OverflowError
  | x => Return (SF2Prim x)
  end.

(** [JulianDay.__init__] for a float [day]: the stored [self.day]. *)
Definition __init__ (day : float) : outcome float :=
  n <- int day ;;
  i <- float_of_int n ;;
  if PrimFloat.ltb (PrimFloat.sub day i) 0.5%float
  then Return (PrimFloat.sub i 0.5%float)
  else Return (PrimFloat.add i 0.5%float).

(** [__add__] and [__sub__] of a [JulianDay] with an [int]:
    [JulianDay(self.jd + other)._to_x(self)], a [JulianDay] again. *)
Definition __add__ (self_day : float) (other : Z) : outcome float :=
  o <- float_of_int other ;;
  __init__ (PrimFloat.add self_day o).

Definition __sub__ (self_day : float) (other : Z) : outcome float :=
  o <- float_of_int other ;;
  __init__ (PrimFloat.sub self_day o).

(** [__eq__] of two [JulianDay]s: [self.jd == other.jd]. *)
Definition __eq__ (self_day other_day : float) : bool :=
  PrimFloat.eqb self_day other_day.

(** [weekday]: [int(self.jd+.5+1) % 7 + 1]. *)
Definition weekday (self_day : float) : outcome Z :=
  n <- int (PrimFloat.add (PrimFloat.add self_day 0.5%float) 1%float) ;;
  Return (n mod 7 + 1).

(** [shabbos]: [self + (7 - self.weekday())]. *)
Definition shabbos (self_day : float) : outcome float :=
  w <- weekday self_day ;;
  __add__ self_day (7 - w).

(** The expressions [(day + n) - n == day] and [day.shabbos().weekday()]. *)
Definition add_then_subtract (self_day : float) (n : Z) : outcome bool :=
  d1 <- __add__ self_day n ;;
  d2 <- __sub__ d1 n ;;
  Return (__eq__ d2 self_day).

Definition shabbos_weekday (self_day : float) : outcome Z :=
  s <- shabbos self_day ;; weekday s.

End Binary64.

(** * Properties *)

(** Division and modulo by constants, through their Euclidean equations. *)
Ltac zdiv := Z.to_euclidean_division_equations; lia.

(** Decides the integer comparisons of the goal that [lia] can settle. *)
Ltac zcmp :=
  repeat match goal with
  | |- context [?a >? ?b] => rewrite (Z.gtb_ltb a b)
  | |- context [?a >=? ?b] => rewrite (Z.geb_leb a b)
  | |- context [?a <? ?b] =>
      first [ replace (a <? b) with true by (symmetry; apply Z.ltb_lt; lia)
            | replace (a <? b) with false by (symmetry; apply Z.ltb_ge; lia) ]
  | |- context [?a <=? ?b] =>
      first [ replace (a <=? b) with true by (symmetry; apply Z.leb_le; lia)
            | replace (a <=? b) with false by (symmetry; apply Z.leb_gt; lia) ]
  | |- context [?a =? ?b] =>
      first [ replace (a =? b) with true by (symmetry; apply Z.eqb_eq; lia)
            | replace (a =? b) with false by (symmetry; apply Z.eqb_neq; lia) ]
  end.

(** Linear arithmetic on floats that mention injected integers. *)
Ltac qlin :=
  unfold Z.sub;
  rewrite ?inject_Z_plus, ?inject_Z_opp;
  repeat match goal with
  | |- context [inject_Z (Z.pos ?p)] =>
      change (inject_Z (Z.pos p)) with (Z.pos p # 1)
  | |- context [inject_Z (Z.neg ?p)] =>
      change (inject_Z (Z.neg p)) with (Z.neg p # 1)
  end;
  lra.

Lemma upto_In (count : nat) (lo k : Z) :
  In k (upto lo count) <-> lo <= k < lo + Z.of_nat count.
Proof.
  revert lo. induction count as [|count IH]; intros lo; simpl.
  - lia.
  - rewrite IH. lia.
Qed.

(** ** Arithmetic of [int] on floats *)

Lemma int_compat (x y : Q) : x == y -> Py.int x = Py.int y.
Proof.
  destruct x as [a b], y as [c d]. unfold Qeq, Py.int. simpl. intros H.
  rewrite <- (Z.quot_mul_cancel_r a (Z.pos b) (Z.pos d)) by lia.
  rewrite <- (Z.quot_mul_cancel_r c (Z.pos d) (Z.pos b)) by lia.
  rewrite H. f_equal. lia.
Qed.

Lemma int_inject_Z (n : Z) : Py.int (inject_Z n) = n.
Proof. unfold Py.int. simpl. apply Z.quot_1_r. Qed.

Lemma int_half (n : Z) :
  Py.int (inject_Z n + 0.5) = if n <? 0 then n + 1 else n.
Proof. unfold Py.int. simpl. destruct (Z.ltb_spec n 0); zdiv. Qed.


Lemma int_year (y : Z) : Py.int (365.25 * inject_Z y) = (36525 * y) ÷ 100.
Proof. reflexivity. Qed.

Lemma int_month (m : Z) : Py.int (30.6001 * inject_Z m) = (306001 * m) ÷ 10000.
Proof. reflexivity. Qed.

Lemma lt_spec (x y : Q) : Py.lt x y = true <-> (x < y)%Q.
Proof.
  unfold Py.lt. rewrite negb_true_iff, <- not_true_iff_false, Qle_bool_iff.
  split; [apply Qnot_le_lt | apply Qlt_not_le].
Qed.

Lemma lt_false (x y : Q) : Py.lt x y = false <-> (y <= x)%Q.
Proof. unfold Py.lt. rewrite negb_false_iff. apply Qle_bool_iff. Qed.

Lemma le_spec (x y : Q) : Py.le x y = true <-> (x <= y)%Q.
Proof. apply Qle_bool_iff. Qed.

Lemma le_false (x y : Q) : Py.le x y = false <-> (y < x)%Q.
Proof.
  unfold Py.le. rewrite <- not_true_iff_false, Qle_bool_iff.
  split; [apply Qnot_le_lt | apply Qlt_not_le].
Qed.

Lemma eq_spec (x y : Q) : Py.eq x y = true <-> x == y.
Proof. apply Qeq_bool_iff. Qed.

(** ** Midnight values *)

Lemma half_integer_compat (x y : Q) : x == y -> half_integer x -> half_integer y.
Proof. intros E [n H]. exists n. rewrite <- E. exact H. Qed.

Lemma int_of_half_integer (x : Q) (n : Z) :
  x == inject_Z n + 0.5 -> Py.int (x + 0.5) = n + 1.
Proof.
  intros H. rewrite <- (int_inject_Z (n + 1)). apply int_compat.
  rewrite H. qlin.
Qed.

(** The constructor leaves a midnight value as it is. *)
Lemma normalize_half (x : Q) (n : Z) :
  x == inject_Z n + 0.5 -> JulianDay.normalize x == x.
Proof.
  intros H. unfold JulianDay.normalize.
  rewrite (int_compat _ _ H), int_half.
  destruct (Z.ltb_spec n 0) as [Hn|Hn].
  - assert (L : Py.lt (x - inject_Z (n + 1)) 0.5 = true).
    { apply lt_spec. rewrite H. qlin. }
    rewrite L, H. qlin.
  - assert (L : Py.lt (x - inject_Z n) 0.5 = false).
    { apply lt_false. rewrite H. lra. }
    rewrite L, H. reflexivity.
Qed.

Lemma normalize_fixed (x : Q) : half_integer x -> JulianDay.normalize x == x.
Proof. intros [n H]. exact (normalize_half x n H). Qed.

(** Whatever it is given, the constructor stores a midnight value. *)
Lemma normalize_half_integer (raw : Q) : half_integer (JulianDay.normalize raw).
Proof.
  unfold JulianDay.normalize.
  destruct (Py.lt (raw - inject_Z (Py.int raw)) 0.5).
  - exists (Py.int raw - 1). qlin.
  - exists (Py.int raw). reflexivity.
Qed.

Lemma half_integer_shift (x : Q) (n : Z) :
  half_integer x -> half_integer (x + inject_Z n).
Proof. intros [k H]. exists (k + n). rewrite H. qlin. Qed.

Lemma half_integer_unshift (x : Q) (n : Z) :
  half_integer x -> half_integer (x - inject_Z n).
Proof.
  intros [k H]. exists (k - n). rewrite H. qlin.
Qed.

(** ** The Gregorian conversion *)

Section Gregorian.

Lemma jd_day_number (c : CalendarDateMixin) :
  _jd c = None ->
  GregorianDate.jd c
  = (inject_Z (day_number (year c) (month c) (day c)) + 1720994.5)%Q.
Proof.
  intros H. unfold GregorianDate.jd, day_number. rewrite H.
  destruct (month c <? 3); reflexivity.
Qed.

Lemma to_greg_fields_fliegel (x : Q) :
  JulianDay.to_greg_fields x = no_year_zero (fliegel (Py.int (x + 0.5))).
Proof. reflexivity. Qed.

Lemma day_number_linear (y m d : Z) :
  day_number y m d = day_number y m 1 + (d - 1).
Proof. unfold day_number. destruct (m <? 3); lia. Qed.

(** Four hundred years are 146097 days, in both directions. *)
Lemma day_number_period (y m d c : Z) :
  1 <= y -> 0 <= c ->
  day_number (y + 400 * c) m d = day_number y m d + 146097 * c.
Proof.
  intros Hy Hc. unfold day_number.
  replace (y + 400 * c <? 0) with false by (symmetry; apply Z.ltb_ge; lia).
  replace (y <? 0) with false by (symmetry; apply Z.ltb_ge; lia).
  destruct (m <? 3); rewrite !int_year; zdiv.
Qed.

Lemma fliegel_period (jd c : Z) :
  fliegel (jd + 146097 * c)
  = let '(y, m, d) := fliegel jd in (y + 400 * c, m, d).
Proof.
  unfold fliegel.
  assert (Hn : quot_n (jd + 146097 * c) = quot_n jd + 4 * c)
    by (unfold quot_n; zdiv).
  rewrite Hn.
  assert (HL : rest_n (jd + 146097 * c) (quot_n jd + 4 * c)
               = rest_n jd (quot_n jd))
    by (unfold rest_n; zdiv).
  rewrite HL. unfold assemble. f_equal. f_equal. lia.
Qed.

Lemma is_leap_period (y c : Z) :
  1 <= y -> 1 <= y + 400 * c ->
  GregorianDate._is_leap (y + 400 * c) = GregorianDate._is_leap y.
Proof.
  intros Hy Hc. unfold GregorianDate._is_leap.
  replace (y + 400 * c <? 0) with false by (symmetry; apply Z.ltb_ge; lia).
  replace (y <? 0) with false by (symmetry; apply Z.ltb_ge; lia).
  replace ((y + 400 * c) mod 4) with (y mod 4) by zdiv.
  replace ((y + 400 * c) mod 100) with (y mod 100) by zdiv.
  replace ((y + 400 * c) mod 400) with (y mod 400) by zdiv.
  reflexivity.
Qed.

(** Between two days with the same three quotients [to_greg] only moves the
    day of the month. *)
Lemma fliegel_between (jd1 jd2 jd : Z) :
  same_quotients jd1 jd2 = true -> jd1 <= jd <= jd2 ->
  fliegel jd = let '(y, m, d) := fliegel jd1 in (y, m, d + (jd - jd1)).
Proof.
  unfold same_quotients. rewrite !andb_true_iff, !Z.eqb_eq.
  intros [[Hn Hi] Hj] Hjd. unfold fliegel.
  set (n := quot_n jd1) in *.
  assert (En : quot_n jd = n).
  { assert (n <= quot_n jd) by (subst n; unfold quot_n; apply Z.div_le_mono; lia).
    assert (quot_n jd <= quot_n jd2) by (unfold quot_n; apply Z.div_le_mono; lia).
    lia. }
  rewrite En.
  assert (EL : rest_n jd n = rest_n jd1 n + (jd - jd1)) by (unfold rest_n; lia).
  assert (EL2 : rest_n jd2 n = rest_n jd1 n + (jd2 - jd1)) by (unfold rest_n; lia).
  rewrite EL. rewrite EL2 in Hi, Hj.
  set (L := rest_n jd1 n) in *. set (i := quot_i L) in *.
  assert (Ei : quot_i (L + (jd - jd1)) = i).
  { assert (i <= quot_i (L + (jd - jd1)))
      by (subst i; unfold quot_i; apply Z.div_le_mono; lia).
    assert (quot_i (L + (jd - jd1)) <= quot_i (L + (jd2 - jd1)))
      by (unfold quot_i; apply Z.div_le_mono; lia).
    lia. }
  rewrite Ei.
  assert (ER : forall k, rest_i (L + k) i = rest_i L i + k)
    by (intros k; unfold rest_i; lia).
  rewrite ER. rewrite ER in Hj.
  set (L' := rest_i L i) in *. set (j := quot_j L') in *.
  assert (Ej : quot_j (L' + (jd - jd1)) = j).
  { assert (j <= quot_j (L' + (jd - jd1)))
      by (subst j; unfold quot_j; apply Z.div_le_mono; lia).
    assert (quot_j (L' + (jd - jd1)) <= quot_j (L' + (jd2 - jd1)))
      by (unfold quot_j; apply Z.div_le_mono; lia).
    lia. }
  rewrite Ej. unfold assemble. f_equal. lia.
Qed.

(** The computation: every month of the years 1..400 passes
    [month_checks]. *)
Lemma cycle_checked : forallb month_checks cycle_months = true.
Proof. vm_compute. reflexivity. Qed.

Lemma month_checked (y m : Z) :
  1 <= y <= 400 -> 1 <= m <= 12 -> month_checks (y, m) = true.
Proof.
  intros Hy Hm. pose proof cycle_checked as H.
  rewrite forallb_forall in H. apply H.
  unfold cycle_months. apply in_flat_map. exists y. split.
  - apply upto_In. lia.
  - apply in_map. apply upto_In. lia.
Qed.

Lemma monthlength_bounds (y m : Z) : 28 <= GregorianDate._monthlength y m <= 31.
Proof.
  unfold GregorianDate._monthlength.
  destruct (Py.In m _); [lia|].
  destruct (m =? 2); [|lia].
  destruct (GregorianDate._is_leap y); lia.
Qed.

(** [to_greg] inverts the day number on the first cycle... *)
Lemma fliegel_day_number_cycle (y m d : Z) :
  1 <= y <= 400 -> 1 <= m <= 12 -> 1 <= d <= GregorianDate._monthlength y m ->
  fliegel (day_number y m d + 1720995) = (y, m, d).
Proof.
  intros Hy Hm Hd. pose proof (month_checked y m Hy Hm) as H.
  unfold month_checks in H. destruct (next_month (y, m)) as [y' m'].
  rewrite !andb_true_iff in H. destruct H as [[H1 H2] _].
  rewrite (fliegel_between _ _ (day_number y m d + 1720995) H2)
    by (rewrite (day_number_linear y m d); lia).
  destruct (fliegel (day_number y m 1 + 1720995)) as [[y0 m0] d0].
  rewrite !andb_true_iff, !Z.eqb_eq in H1. destruct H1 as [[-> ->] ->].
  rewrite (day_number_linear y m d). f_equal. lia.
Qed.

Lemma monthlength_period (y m c : Z) :
  1 <= y -> 1 <= y + 400 * c ->
  GregorianDate._monthlength (y + 400 * c) m = GregorianDate._monthlength y m.
Proof.
  intros Hy Hc. unfold GregorianDate._monthlength.
  rewrite is_leap_period by assumption. reflexivity.
Qed.

(** ... and therefore on every year of the common era. *)
Lemma fliegel_day_number (y m d : Z) :
  1 <= y -> 1 <= m <= 12 -> 1 <= d <= GregorianDate._monthlength y m ->
  fliegel (day_number y m d + 1720995) = (y, m, d).
Proof.
  intros Hy Hm Hd.
  set (c := (y - 1) / 400). set (y0 := (y - 1) mod 400 + 1).
  assert (Ey : y = y0 + 400 * c) by (subst c y0; zdiv).
  assert (Hy0 : 1 <= y0 <= 400) by (subst y0; zdiv).
  assert (Hc : 0 <= c) by (subst c; zdiv).
  rewrite Ey in Hd |- *.
  rewrite monthlength_period in Hd by lia.
  rewrite day_number_period by lia.
  replace (day_number y0 m d + 146097 * c + 1720995)
    with (day_number y0 m d + 1720995 + 146097 * c) by lia.
  rewrite fliegel_period, fliegel_day_number_cycle by lia.
  reflexivity.
Qed.

End Gregorian.

(** ** Every Julian day is a Gregorian date *)

Lemma day_number_month_13 (y d : Z) :
  1 <= y -> day_number (y + 1) 1 d = day_number y 13 d.
Proof.
  intros Hy. unfold day_number.
  replace (y + 1 <? 0) with false by (symmetry; apply Z.ltb_ge; lia).
  replace (y <? 0) with false by (symmetry; apply Z.ltb_ge; lia).
  change (1 <? 3) with true. change (13 <? 3) with false. cbv iota beta.
  replace (y + 1 - 1) with y by lia. reflexivity.
Qed.

Lemma month_adjacent (y m : Z) :
  1 <= y <= 400 -> 1 <= m <= 12 ->
  day_number y (m + 1) 1 = day_number y m 1 + GregorianDate._monthlength y m.
Proof.
  intros Hy Hm. pose proof (month_checked y m Hy Hm) as H.
  unfold month_checks, next_month in H.
  destruct (Z.eqb_spec m 12) as [->|Hne];
    rewrite !andb_true_iff, Z.eqb_eq in H; destruct H as [_ H].
  - change (12 + 1) with 13. rewrite <- day_number_month_13 by lia. lia.
  - lia.
Qed.

Lemma year_cover (y : Z) (n : nat) (k : Z) :
  1 <= y <= 400 -> (n <= 12)%nat ->
  day_number y 1 1 <= k < day_number y (1 + Z.of_nat n) 1 ->
  exists m d, 1 <= m <= 12 /\ 1 <= d <= GregorianDate._monthlength y m
              /\ k = day_number y m d.
Proof.
  intros Hy. induction n as [|n IH]; intros Hn Hk.
  - simpl in Hk. lia.
  - replace (1 + Z.of_nat (S n)) with ((1 + Z.of_nat n) + 1) in Hk by lia.
    rewrite month_adjacent in Hk by lia.
    destruct (Z_lt_le_dec k (day_number y (1 + Z.of_nat n) 1)) as [Hlt|Hge].
    + apply IH; lia.
    + exists (1 + Z.of_nat n), (k - day_number y (1 + Z.of_nat n) 1 + 1).
      rewrite (day_number_linear y (1 + Z.of_nat n) (_ + 1)). lia.
Qed.

Lemma cycle_cover (n : nat) (k : Z) :
  (n <= 400)%nat ->
  day_number 1 1 1 <= k < day_number (1 + Z.of_nat n) 1 1 ->
  exists y m d, 1 <= y <= 400 /\ 1 <= m <= 12
                /\ 1 <= d <= GregorianDate._monthlength y m
                /\ k = day_number y m d.
Proof.
  induction n as [|n IH]; intros Hn Hk.
  - simpl in Hk. lia.
  - destruct (Z_lt_le_dec k (day_number (1 + Z.of_nat n) 1 1)) as [Hlt|Hge].
    + apply IH; lia.
    + replace (1 + Z.of_nat (S n)) with ((1 + Z.of_nat n) + 1) in Hk by lia.
      rewrite day_number_month_13 in Hk by lia.
      destruct (year_cover (1 + Z.of_nat n) 12%nat k) as (m & d & H);
        [lia | lia | change (1 + Z.of_nat 12) with 13; lia |].
      exists (1 + Z.of_nat n), m, d. lia.
Qed.

(** The year [to_greg] stores for the astronomical year [y + 400 * c] is
    leap exactly when [y] is. *)
Lemma is_leap_no_year_zero (y c : Z) :
  1 <= y ->
  GregorianDate._is_leap
    (if y + 400 * c <? 1 then y + 400 * c - 1 else y + 400 * c)
  = GregorianDate._is_leap y.
Proof.
  intros Hy. unfold GregorianDate._is_leap.
  replace (y <? 0) with false by (symmetry; apply Z.ltb_ge; lia).
  assert (E : (let year := if y + 400 * c <? 1 then y + 400 * c - 1 else y + 400 * c in
               if year <? 0 then year + 1 else year) = y + 400 * c).
  { cbv zeta. destruct (Z.ltb_spec (y + 400 * c) 1).
    - replace (y + 400 * c - 1 <? 0) with true by (symmetry; apply Z.ltb_lt; lia). lia.
    - replace (y + 400 * c <? 0) with false by (symmetry; apply Z.ltb_ge; lia). lia. }
  cbv zeta in E |- *. rewrite E.
  replace ((y + 400 * c) mod 4) with (y mod 4) by zdiv.
  replace ((y + 400 * c) mod 100) with (y mod 100) by zdiv.
  replace ((y + 400 * c) mod 400) with (y mod 400) by zdiv.
  reflexivity.
Qed.

Lemma fliegel_valid (jd : Z) :
  let '(year, month, day) := no_year_zero (fliegel jd) in
  1 <= month <= 12 /\ 1 <= day <= GregorianDate._monthlength year month.
Proof.
  pose (base := day_number 1 1 1 + 1720995).
  set (c := (jd - base) / 146097). set (k := (jd - base) mod 146097).
  assert (Ejd : jd = (base + k) + 146097 * c) by (subst c k; zdiv).
  assert (Hk : 0 <= k < 146097) by (subst k; zdiv).
  destruct (cycle_cover 400 (base + k - 1720995)) as (y & m & d & Hy & Hm & Hd & E).
  { lia. }
  { change (1 + Z.of_nat 400) with (1 + 400 * 1).
    rewrite day_number_period by lia. subst base. lia. }
  rewrite Ejd, fliegel_period.
  replace (base + k) with (day_number y m d + 1720995) by lia.
  rewrite fliegel_day_number_cycle by assumption.
  unfold no_year_zero. split; [assumption|].
  unfold GregorianDate._monthlength in *.
  rewrite is_leap_no_year_zero by lia. exact Hd.
Qed.

Lemma GregorianDate_init_valid (y m d : Z) (jd : option Q) :
  1 <= m <= 12 -> 1 <= d <= GregorianDate._monthlength y m ->
  GregorianDate.__init__ y m d jd
  = Return (AGregorianDate (mkCalendarDate y m d jd)).
Proof.
  intros Hm Hd. unfold GregorianDate.__init__. cbv zeta. zcmp. reflexivity.
Qed.

Lemma GregorianDate_init_inv (y m d : Z) (jd : option Q) (g : date) :
  GregorianDate.__init__ y m d jd = Return g ->
  1 <= m <= 12 /\ 1 <= d <= GregorianDate._monthlength y m
  /\ g = AGregorianDate (mkCalendarDate y m d jd).
Proof.
  unfold GregorianDate.__init__.
  destruct (Z.ltb_spec m 1); [discriminate|].
  destruct (Z.gtb_spec m 12); [discriminate|].
  destruct (Z.ltb_spec d 1); [discriminate|].
  destruct (Z.gtb_spec d (GregorianDate._monthlength y m)); [discriminate|].
  simpl. intros [= <-]. repeat split; lia.
Qed.

(** [to_greg] never raises. *)
Lemma to_greg_total (x : Q) :
  exists y m d,
    JulianDay.to_greg x = Return (AGregorianDate (mkCalendarDate y m d (Some x))).
Proof.
  unfold JulianDay.to_greg. rewrite to_greg_fields_fliegel.
  pose proof (fliegel_valid (Py.int (x + 0.5))) as H.
  destruct (no_year_zero _) as [[y m] d]. destruct H as [Hm Hd].
  exists y, m, d. apply GregorianDate_init_valid; assumption.
Qed.

(** ** C3: what the [JulianDay] constructor stores *)







(** ** C1: Gregorian date to Julian day and back *)

Lemma gregorian_jd_half (y m d : Z) :
  GregorianDate.jd (mkCalendarDate y m d None)
  == inject_Z (day_number y m d + 1720994) + 0.5.
Proof. rewrite jd_day_number by reflexivity. simpl. qlin. Qed.

(** C1, counterexample.  1 January of the year -1 is a valid Gregorian date,
    its [jd] is 1721060.5, and [to_greg] maps that day to 2 January of the
    year -1. *)
Lemma gregorian_roundtrip_fails_before_common_era :
  GregorianDate.__init__ (-1) 1 1 None
  = Return (AGregorianDate (mkCalendarDate (-1) 1 1 None))
  /\ GregorianDate.jd (mkCalendarDate (-1) 1 1 None) == 1721060.5
  /\ JulianDay.to_greg
       (JulianDay.normalize (GregorianDate.jd (mkCalendarDate (-1) 1 1 None)))
     = Return (AGregorianDate (mkCalendarDate (-1) 1 2 (Some 1721060.5%Q)))
  /\ tuple (mkCalendarDate (-1) 1 2 (Some 1721060.5%Q)) <> (-1, 1, 1).
Proof. repeat split. discriminate. Qed.

(** C1, as amended.  For every valid Gregorian triple with a year of 1..9999,
    the [jd] of the date, wrapped in a [JulianDay] and converted by
    [to_greg], is the original triple.  Years below 1 are left out: the
    class documents them as approximations. *)
Theorem gregorian_roundtrip (y m d : Z) (g : CalendarDateMixin) :
  1 <= y <= 9999 ->
  GregorianDate.__init__ y m d None = Return (AGregorianDate g) ->
  exists c,
    JulianDay.to_greg (JulianDay.normalize (GregorianDate.jd g))
    = Return (AGregorianDate c)
    /\ tuple c = (y, m, d).
Proof.
  intros [Hy _] Hg. apply GregorianDate_init_inv in Hg.
  destruct Hg as (Hm & Hd & [= ->]).
  pose proof (gregorian_jd_half y m d) as Hjd.
  set (x := GregorianDate.jd _) in *.
  pose proof (normalize_half x _ Hjd) as Hn.
  exists (mkCalendarDate y m d (Some (JulianDay.normalize x))).
  split; [|reflexivity].
  unfold JulianDay.to_greg. rewrite to_greg_fields_fliegel.
  rewrite (int_of_half_integer (JulianDay.normalize x)
             (day_number y m d + 1720994)) by (rewrite Hn; exact Hjd).
  replace (day_number y m d + 1720994 + 1) with (day_number y m d + 1720995) by lia.
  rewrite fliegel_day_number by assumption.
  unfold no_year_zero. zcmp.
  apply GregorianDate_init_valid; assumption.
Qed.

Lemma gregorian_roundtrip_witness :
  exists c,
    JulianDay.to_greg
      (JulianDay.normalize (GregorianDate.jd (mkCalendarDate 2020 12 11 None)))
    = Return (AGregorianDate c)
    /\ tuple c = (2020, 12, 11).
Proof.
  apply (gregorian_roundtrip 2020 12 11); [lia | reflexivity].
Defined.

(** ** The Hebrew calendar *)

Section Hebrew.
Context {U : utils}.

Lemma months_In (y m : Z) :
  In m (HebrewDate.months y)
  <-> 1 <= m <= 13 /\ (m = 13 -> _is_leap y = true).
Proof.
  unfold HebrewDate.months. destruct (_is_leap y); simpl.
  - split; [intros H; split; [lia | reflexivity] | lia].
  - split; [intros H; split; [lia | intros ->; lia] | ].
    intros [H1 H2]. assert (m <> 13) by (intros ->; discriminate (H2 eq_refl)).
    lia.
Qed.

Lemma months_NoDup (y : Z) : NoDup (HebrewDate.months y).
Proof.
  unfold HebrewDate.months.
  destruct (_is_leap y); simpl;
    repeat (constructor; [simpl; lia|]); constructor.
Qed.

Lemma HebrewDate_init_valid (y m d : Z) (jd : option Q) :
  1 <= y -> In m (HebrewDate.months y) -> 1 <= d <= _month_length y m ->
  HebrewDate.__init__ y m d jd = Return (AHebrewDate (mkCalendarDate y m d jd)).
Proof.
  intros Hy Hm Hd. apply months_In in Hm. destruct Hm as [Hm Hleap].
  unfold HebrewDate.__init__. cbv zeta.
  replace (negb (_is_leap y) && (m =? 13)) with false.
  - zcmp. reflexivity.
  - symmetry. destruct (Z.eqb_spec m 13) as [E|E].
    + rewrite (Hleap E). reflexivity.
    + apply andb_false_r.
Qed.

Lemma HebrewDate_init_inv (y m d : Z) (jd : option Q) (h : date) :
  HebrewDate.__init__ y m d jd = Return h ->
  1 <= y /\ In m (HebrewDate.months y) /\ 1 <= d <= _month_length y m
  /\ h = AHebrewDate (mkCalendarDate y m d jd).
Proof.
  unfold HebrewDate.__init__. rewrite months_In.
  destruct (Z.ltb_spec y 1); [discriminate|].
  destruct (Z.ltb_spec m 1); [discriminate|].
  destruct (Z.gtb_spec m 13); [discriminate|]. simpl.
  destruct (negb (_is_leap y) && (m =? 13)) eqn:E; [discriminate|].
  destruct (Z.ltb_spec d 1); [discriminate|].
  destruct (Z.gtb_spec d (_month_length y m)); [discriminate|].
  simpl. intros [= <-]. repeat split; try lia.
  intros ->. rewrite Z.eqb_refl, andb_true_r in E.
  destruct (_is_leap y); [reflexivity | discriminate].
Qed.

(** The constructor raises nothing but its own four messages. *)
Lemma HebrewDate_init_not_before_creation (y m d : Z) (jd : option Q) :
  HebrewDate.__init__ y m d jd <> Raise (ValueError before_creation).
Proof.
  unfold HebrewDate.__init__.
  repeat match goal with |- context [if ?b then _ else _] => destruct b end;
    cbv zeta; discriminate.
Qed.

(** *** The [jd] property *)

Lemma jd_step_keeps (self : CalendarDateMixin) (l : list Z) (acc : Z) (cache : option Q) :
  ~ In (month self) l ->
  snd (fold_left (HebrewDate.jd_step self) l (acc, cache)) = cache.
Proof.
  revert acc. induction l as [|h t IH]; intros acc Hin; [reflexivity|].
  simpl. destruct (Z.eqb_spec h (month self)) as [E|E].
  - exfalso. apply Hin. left. exact E.
  - simpl. apply IH. intros H. apply Hin. right. exact H.
Qed.

Lemma jd_step_finds (self : CalendarDateMixin) (l : list Z) (acc : Z) :
  NoDup l -> In (month self) l ->
  snd (fold_left (HebrewDate.jd_step self) l (acc, None))
  = Some (inject_Z (acc + days_before (year self) (month self) l
                    + (day self - 1)) + 347996.5)%Q.
Proof.
  revert acc. induction l as [|h t IH]; intros acc Hnd Hin; [destruct Hin|].
  inversion Hnd as [|? ? Hnotin Hnd']; subst.
  simpl. destruct (Z.eqb_spec h (month self)) as [E|E].
  - simpl. rewrite jd_step_keeps by (rewrite <- E; exact Hnotin).
    rewrite Z.add_0_r. reflexivity.
  - simpl. destruct Hin as [Hin|Hin]; [contradiction|].
    rewrite IH by assumption. do 3 f_equal. lia.
Qed.

Lemma hebrew_jd_computed (y m d : Z) :
  In m (HebrewDate.months y) ->
  HebrewDate.jd (mkCalendarDate y m d None)
  = Some (inject_Z (_elapsed_days y + days_before y m (HebrewDate.months y)
                    + (d - 1)) + 347996.5)%Q.
Proof.
  intros Hm. unfold HebrewDate.jd. simpl.
  apply (jd_step_finds (mkCalendarDate y m d None)); [apply months_NoDup | exact Hm].
Qed.

(** *** The month loop of [to_heb] *)

Lemma days_before_bounds (y m : Z) (l : list Z) :
  (forall m', In m' l -> 1 <= _month_length y m') -> In m l ->
  0 <= days_before y m l /\ days_before y m l + _month_length y m <= days_in y l.
Proof.
  induction l as [|h t IH]; intros Hpos Hin; [destruct Hin|].
  simpl. assert (Hh : 1 <= _month_length y h) by (apply Hpos; left; reflexivity).
  assert (Ht : 0 <= days_in y t).
  { clear -Hpos. induction t as [|a t IH]; simpl; [lia|].
    assert (1 <= _month_length y a) by (apply Hpos; right; left; reflexivity).
    assert (0 <= days_in y t); [|lia].
    apply IH. intros m' [H'|H']; apply Hpos; [left | right; right]; assumption. }
  destruct (Z.eqb_spec h m) as [E|E].
  - subst. lia.
  - destruct Hin as [Hin|Hin]; [contradiction|].
    destruct IH as [I1 I2]; [intros m' H'; apply Hpos; right; exact H' | exact Hin |].
    lia.
Qed.

Lemma for_month_finds (x : Q) (y m d : Z) (l : list Z) :
  (forall m', In m' l -> 1 <= _month_length y m') -> In m l ->
  1 <= d <= _month_length y m ->
  JulianDay.for_month x y l (days_before y m l + (d - 1))
  = HebrewDate.__init__ y m d (Some x).
Proof.
  induction l as [|h t IH]; intros Hpos Hin Hd; [destruct Hin|].
  simpl. destruct (Z.eqb_spec h m) as [E|E].
  - subst h. zcmp. f_equal. lia.
  - destruct Hin as [Hin|Hin]; [contradiction|].
    assert (Hh : 1 <= _month_length y h) by (apply Hpos; left; reflexivity).
    destruct (days_before_bounds y m t) as [I1 I2];
      [intros m' H'; apply Hpos; right; exact H' | exact Hin |].
    zcmp.
    replace (_month_length y h + days_before y m t + (d - 1) - _month_length y h)
      with (days_before y m t + (d - 1)) by lia.
    apply IH; [intros m' H'; apply Hpos; right; exact H' | exact Hin | exact Hd].
Qed.

Lemma for_month_total (y r : Z) (l : list Z) :
  NoDup l ->
  (forall m', In m' l -> 1 <= _month_length y m') ->
  0 <= r < days_in y l ->
  exists m d, In m l /\ 1 <= d <= _month_length y m
              /\ r = days_before y m l + (d - 1).
Proof.
  revert r. induction l as [|h t IH]; intros r Hnd Hpos Hr; [simpl in Hr; lia|].
  inversion Hnd as [|? ? Hnotin Hnd']; subst. simpl in Hr.
  destruct (Z_lt_le_dec r (_month_length y h)) as [Hlt|Hge].
  - exists h, (r + 1). simpl. rewrite Z.eqb_refl. repeat split; lia.
  - destruct (IH (r - _month_length y h)) as (m & d & Hin & Hd & E);
      [exact Hnd' | intros m' H'; apply Hpos; right; exact H' | lia |].
    exists m, d. simpl.
    destruct (Z.eqb_spec h m) as [Ehm|Ehm]; [subst; contradiction|].
    repeat split; try lia. right. exact Hin.
Qed.

End Hebrew.

(** *** The year loop of [to_heb] *)

Section YearLoop.
Context {U : utils}.

Lemma while_finds (fuel : nat) (est y jd : Z) :
  y <= est -> _elapsed_days y <= jd ->
  (forall y', y < y' <= est -> jd < _elapsed_days y') ->
  (Z.to_nat (est - y) <= fuel)%nat ->
  JulianDay.while_first_day fuel est (_elapsed_days est) jd
  = Some (y, _elapsed_days y).
Proof.
  revert est. induction fuel as [|fuel IH]; intros est Hy Hle Habove Hfuel.
  - assert (est = y) by lia. subst est. simpl. zcmp. reflexivity.
  - destruct (Z.eq_dec est y) as [->|Hne].
    + simpl. zcmp. reflexivity.
    + assert (jd < _elapsed_days est) by (apply Habove; lia).
      simpl. zcmp. apply IH; try lia.
      intros y' Hy'. apply Habove. lia.
Qed.

Lemma year_of_day (n : nat) (est jd : Z) :
  est = 1 + Z.of_nat n -> _elapsed_days 1 <= jd ->
  exists y, 1 <= y <= est /\ _elapsed_days y <= jd
            /\ forall y', y < y' <= est -> jd < _elapsed_days y'.
Proof.
  revert est. induction n as [|n IH]; intros est -> H1.
  - exists 1. repeat split; intros; lia.
  - destruct (Z_lt_le_dec jd (_elapsed_days (1 + Z.of_nat (S n)))) as [Hlt|Hge].
    + destruct (IH (1 + Z.of_nat n) eq_refl H1) as (y & Hy & Hle & Habove).
      exists y. repeat split; try lia.
      intros y' Hy'. destruct (Z.eq_dec y' (1 + Z.of_nat (S n))) as [->|Hne].
      * exact Hlt.
      * apply Habove. lia.
    + exists (1 + Z.of_nat (S n)). repeat split; intros; lia.
Qed.

(** [for_month] hands over to the constructor or returns [None]; the guard
    message of [to_heb] is never its own. *)
Lemma for_month_not_before_creation (x : Q) (y r : Z) (l : list Z) :
  JulianDay.for_month x y l r <> Raise (ValueError before_creation).
Proof.
  revert r. induction l as [|h t IH]; intros r; simpl; [discriminate|].
  destruct (r >=? _month_length y h); [apply IH|].
  apply HebrewDate_init_not_before_creation.
Qed.

Lemma to_heb_guard (fuel : nat) (x : Q) :
  JulianDay.to_heb fuel x = Raise (ValueError before_creation)
  <-> (x <= 347997)%Q.
Proof.
  unfold JulianDay.to_heb. destruct (Py.le x 347997) eqn:E.
  - apply le_spec in E. tauto.
  - apply le_false in E. split.
    + cbv zeta. destruct (JulianDay.while_first_day _ _ _ _) as [[y f]|];
        [|discriminate].
      intros H. exfalso. exact (for_month_not_before_creation _ _ _ _ H).
    + intros H. exfalso. apply (Qlt_not_le _ _ E H).
Qed.

End YearLoop.

(** A midnight value after the guard of [to_heb] is day 347997.5 or later. *)
Lemma after_epoch (x : Q) (n : Z) :
  x == inject_Z n + 0.5 -> (347997 < x)%Q -> 347997 <= n.
Proof.
  intros Hx H. destruct (Z_lt_le_dec n 347997) as [Hlt|Hge]; [|exact Hge].
  exfalso. assert (Hq : (inject_Z n <= inject_Z 347996)%Q) by (rewrite <- Zle_Qle; lia).
  rewrite Hx in H. change (inject_Z 347996) with 347996%Q in Hq. lra.
Qed.

(** *** Under the contract of the collaborator *)

Section HebrewContract.
Context {U : utils}.
Variable Ymax : Z.
Hypothesis C : contract Ymax.

Lemma contract_epoch : _elapsed_days 1 = 1.
Proof. exact (proj1 C). Qed.

Lemma contract_year_length (y : Z) :
  1 <= y < Ymax ->
  _elapsed_days (y + 1) = _elapsed_days y + days_in y (HebrewDate.months y).
Proof. exact (proj1 (proj2 C) y). Qed.

Lemma contract_month (y m : Z) :
  1 <= y < Ymax -> In m (HebrewDate.months y) -> 1 <= _month_length y m.
Proof. exact (proj1 (proj2 (proj2 C)) y m). Qed.

Lemma contract_estimate (y : Z) :
  1 <= y <= Ymax -> 365 * (y - 2) <= _elapsed_days y.
Proof. exact (proj2 (proj2 (proj2 C)) y). Qed.

Lemma tishrei_In (y : Z) : In 7 (HebrewDate.months y).
Proof. apply months_In. split; [lia | intros [=]]. Qed.

(** The first days of the years are strictly increasing. *)
Lemma elapsed_next (y : Z) :
  1 <= y < Ymax -> _elapsed_days y < _elapsed_days (y + 1).
Proof.
  intros Hy. rewrite contract_year_length by assumption.
  destruct (days_before_bounds y 7 (HebrewDate.months y)) as [H1 H2];
    [intros m' H'; apply contract_month; assumption | apply tishrei_In |].
  pose proof (contract_month y 7 Hy (tishrei_In y)). lia.
Qed.

Lemma elapsed_mono (n : nat) (a : Z) :
  1 <= a -> a + Z.of_nat n <= Ymax ->
  _elapsed_days a <= _elapsed_days (a + Z.of_nat n).
Proof.
  intros Ha. induction n as [|n IH]; intros Hb.
  - rewrite Z.add_0_r. lia.
  - replace (a + Z.of_nat (S n)) with (a + Z.of_nat n + 1) in * by lia.
    pose proof (elapsed_next (a + Z.of_nat n)). lia.
Qed.

Lemma elapsed_le (a b : Z) :
  1 <= a <= b -> b <= Ymax -> _elapsed_days a <= _elapsed_days b.
Proof.
  intros Hab Hb. replace b with (a + Z.of_nat (Z.to_nat (b - a))) by lia.
  apply elapsed_mono; lia.
Qed.

(** After the guard, and in scope, [to_heb] returns a Hebrew date. *)
Lemma to_heb_total (fuel : nat) (x : Q) :
  half_integer x -> (347997 < x)%Q -> in_scope Ymax x ->
  (Z.to_nat Ymax <= fuel)%nat ->
  exists y m d,
    JulianDay.to_heb fuel x = Return (AHebrewDate (mkCalendarDate y m d (Some x)))
    /\ 1 <= y < Ymax.
Proof.
  intros [n Hn] Hx Hscope Hfuel.
  pose proof (after_epoch x n Hn Hx) as Hge.
  unfold in_scope, year_estimate in Hscope.
  unfold JulianDay.to_heb.
  replace (Py.le x 347997) with false by (symmetry; apply le_false; exact Hx).
  cbv zeta. rewrite (int_of_half_integer x n Hn) in *.
  set (jd := n + 1 - 347997) in *. set (est := jd / 365 + 2) in *.
  assert (Hjd : 1 <= jd) by (subst jd; lia).
  assert (Hest : 2 <= est) by (subst est; zdiv).
  destruct (year_of_day (Z.to_nat (est - 1)) est jd) as (y & Hy & Hle & Habove);
    [lia | rewrite contract_epoch; exact Hjd |].
  rewrite (while_finds fuel est y jd) by (try assumption; lia).
  assert (Hnext : jd < _elapsed_days (y + 1)).
  { destruct (Z.eq_dec y est) as [->|Hne].
    - pose proof (contract_estimate (est + 1)) as He.
      assert (jd < 365 * (est - 1)) by (subst est; zdiv). lia.
    - apply Habove. lia. }
  rewrite contract_year_length in Hnext by lia.
  destruct (for_month_total y (jd - _elapsed_days y) (HebrewDate.months y))
    as (m & d & Hm & Hd & E);
    [apply months_NoDup | intros m' H'; apply contract_month; [lia | exact H'] | lia |].
  exists y, m, d. split; [|lia]. rewrite E.
  rewrite for_month_finds;
    [| intros m' H'; apply contract_month; [lia | exact H'] | exact Hm | exact Hd].
  apply HebrewDate_init_valid; [lia | exact Hm | exact Hd].
Qed.

(** The [jd] of a freshly constructed Hebrew date, as an integer offset. *)
Lemma hebrew_jd_value (y m d : Z) :
  1 <= y < Ymax -> In m (HebrewDate.months y) -> 1 <= d <= _month_length y m ->
  exists J,
    HebrewDate.jd (mkCalendarDate y m d None) = Some (inject_Z J + 347996.5)%Q
    /\ _elapsed_days y <= J < _elapsed_days (y + 1)
    /\ J - _elapsed_days y = days_before y m (HebrewDate.months y) + (d - 1).
Proof.
  intros Hy Hm Hd.
  exists (_elapsed_days y + days_before y m (HebrewDate.months y) + (d - 1)).
  split; [apply hebrew_jd_computed; exact Hm|].
  destruct (days_before_bounds y m (HebrewDate.months y)) as [H1 H2];
    [intros m' H'; apply contract_month; assumption | exact Hm |].
  rewrite contract_year_length by assumption. lia.
Qed.

Lemma hebrew_roundtrip_scoped (fuel : nat) (y m d : Z) :
  1 <= y < Ymax -> In m (HebrewDate.months y) -> 1 <= d <= _month_length y m ->
  (Z.to_nat Ymax <= fuel)%nat ->
  exists x,
    HebrewDate.jd (mkCalendarDate y m d None) = Some x
    /\ half_integer x /\ (347997 < x)%Q
    /\ (in_scope Ymax x ->
        JulianDay.to_heb fuel (JulianDay.normalize x)
        = Return (AHebrewDate
                    (mkCalendarDate y m d (Some (JulianDay.normalize x))))).
Proof.
  intros Hy Hm Hd Hfuel.
  destruct (hebrew_jd_value y m d Hy Hm Hd) as (J & HJ & HJy & HJm).
  exists (inject_Z J + 347996.5)%Q. split; [exact HJ|].
  set (x := (inject_Z J + 347996.5)%Q).
  assert (Hx : x == inject_Z (J + 347996) + 0.5) by (subst x; qlin).
  assert (H1 : 1 <= _elapsed_days y).
  { rewrite <- contract_epoch. apply elapsed_le; lia. }
  assert (Hpos : (347997 < x)%Q).
  { assert (Hq : (inject_Z 1 <= inject_Z J)%Q) by (rewrite <- Zle_Qle; lia).
    subst x. change (inject_Z 1) with 1%Q in Hq. lra. }
  split; [exists (J + 347996); exact Hx|]. split; [exact Hpos|].
  intros Hscope. unfold in_scope, year_estimate in Hscope.
  rewrite (int_of_half_integer x _ Hx) in Hscope.
  pose proof (normalize_half x _ Hx) as Hnorm.
  unfold JulianDay.to_heb.
  replace (Py.le (JulianDay.normalize x) 347997) with false
    by (symmetry; apply le_false; rewrite Hnorm; exact Hpos).
  cbv zeta.
  rewrite (int_of_half_integer (JulianDay.normalize x) (J + 347996))
    by (rewrite Hnorm; exact Hx).
  replace (J + 347996 + 1 - 347997) with J in * by lia.
  set (est := J / 365 + 2) in *.
  assert (Hest : y <= est).
  { pose proof (contract_estimate y). subst est. zdiv. }
  rewrite (while_finds fuel est y J); try lia.
  - rewrite HJm.
    rewrite for_month_finds;
      [| intros m' H'; apply contract_month; assumption | exact Hm | exact Hd].
    apply HebrewDate_init_valid; [lia | exact Hm | exact Hd].
  - intros y' Hy'.
    assert (_elapsed_days (y + 1) <= _elapsed_days y') by (apply elapsed_le; lia).
    lia.
Qed.

End HebrewContract.

(** ** The reference calendar meets the contract *)

Lemma reference_years_sound (count : nat) (y : Z) :
  reference_years count y (Reference.elapsed_days y) = true ->
  forall k, y <= k < y + Z.of_nat count ->
    (if Reference.is_leap k
     then Py.In (Reference.days_in_year k) [383; 384; 385]
     else Py.In (Reference.days_in_year k) [353; 354; 355]) = true
    /\ 365 * (k - 2) <= Reference.elapsed_days k.
Proof.
  revert y. induction count as [|count IH]; intros y H k Hk; [lia|].
  cbn [reference_years] in H. cbv zeta in H.
  rewrite !andb_true_iff in H. destruct H as [[H1 H2] H3].
  destruct (Z.eq_dec k y) as [->|Hne].
  - split; [exact H1 | apply Z.leb_le; exact H2].
  - apply (IH (y + 1) H3). lia.
Qed.

Lemma reference_years_checked :
  reference_years (Z.to_nat 6020) 1 (Reference.elapsed_days 1) = true.
Proof. vm_compute. reflexivity. Qed.

Lemma reference_month_positive (y m : Z) :
  1 <= m <= 13 -> 1 <= Reference.month_length y m.
Proof.
  intros Hm.
  assert (Hcases : m = 1 \/ m = 2 \/ m = 3 \/ m = 4 \/ m = 5 \/ m = 6 \/ m = 7
                   \/ m = 8 \/ m = 9 \/ m = 10 \/ m = 11 \/ m = 12 \/ m = 13) by lia.
  unfold Reference.month_length.
  repeat (destruct Hcases as [->|Hcases]; [cbn [Py.In existsb Z.eqb Pos.eqb orb];
    repeat match goal with |- context [if ?b then _ else _] => destruct b end; lia|]).
  subst m. cbn [Py.In existsb Z.eqb Pos.eqb orb]. lia.
Qed.

Lemma In_three (x a b c : Z) :
  Py.In x [a; b; c] = true -> x = a \/ x = b \/ x = c.
Proof.
  unfold Py.In. cbn [existsb]. rewrite !orb_true_iff, !Z.eqb_eq.
  intuition discriminate.
Qed.

Lemma reference_year_length (y : Z) :
  (if Reference.is_leap y
   then Py.In (Reference.days_in_year y) [383; 384; 385]
   else Py.In (Reference.days_in_year y) [353; 354; 355]) = true ->
  Reference.days_in_year y
  = days_in (U := Reference.calendar) y (HebrewDate.months (U := Reference.calendar) y).
Proof.
  unfold HebrewDate.months. change (_is_leap y) with (Reference.is_leap y).
  destruct (Reference.is_leap y) eqn:L; intros H; apply In_three in H;
    cbn [negb Py.remove days_in _month_length Reference.calendar Z.eqb Pos.eqb];
    unfold Reference.month_length; rewrite L;
    cbn [Py.In existsb Z.eqb Pos.eqb orb];
    destruct H as [H|[H|H]]; rewrite H; reflexivity.
Qed.

(** The molad arithmetic satisfies the contract on the years 1..6020. *)
Lemma reference_contract : contract (U := Reference.calendar) 6020.
Proof.
  pose proof (reference_years_sound _ _ reference_years_checked) as H.
  rewrite Z2Nat.id in H by lia.
  split; [reflexivity|]. split; [|split].
  - intros y Hy. destruct (H y) as [Hlen _]; [lia|].
    pose proof (reference_year_length y Hlen) as E.
    change (Reference.elapsed_days (y + 1)
            = Reference.elapsed_days y
              + days_in (U := Reference.calendar) y
                  (HebrewDate.months (U := Reference.calendar) y)).
    rewrite <- E. unfold Reference.days_in_year. lia.
  - intros y m Hy Hm. apply months_In in Hm.
    apply reference_month_positive. lia.
  - intros y Hy. destruct (H y) as [_ He]; [lia|]. exact He.
Qed.

(** ** C2 and C4: the Hebrew conversion *)

Lemma half_integer_lt_le (x : Q) (k : Z) :
  half_integer x -> (x <= inject_Z k)%Q <-> (x < inject_Z k)%Q.
Proof.
  intros [n Hn]. split; [|apply Qlt_le_weak].
  intros H. rewrite Hn in *.
  destruct (Z_lt_le_dec n k) as [Hlt|Hge].
  - assert ((inject_Z (n + 1) <= inject_Z k)%Q) as Hq by (rewrite <- Zle_Qle; lia).
    revert Hq. qlin.
  - assert ((inject_Z k <= inject_Z n)%Q) as Hq by (rewrite <- Zle_Qle; lia).
    lra.
Qed.

(** C2.  For every calendar collaborator that meets the contract of the spec
    on the years below [Ymax], and every valid Hebrew triple whose year is
    below [Ymax] and whose day is one [to_heb] starts its search for below
    [Ymax] (with the reference calendar and [Ymax = 6020] these are all the
    dates of the years 1..6000):  the [jd] of the
    date, wrapped in a [JulianDay] and converted by [to_heb], is the
    original triple. *)
Theorem hebrew_roundtrip {U : utils} (Ymax : Z) (fuel : nat) (y m d : Z)
        (h : CalendarDateMixin) :
  contract Ymax -> (Z.to_nat Ymax <= fuel)%nat ->
  HebrewDate.__init__ y m d None = Return (AHebrewDate h) ->
  y < Ymax ->
  (forall x, HebrewDate.jd h = Some x -> in_scope Ymax x) ->
  exists x c,
    HebrewDate.jd h = Some x
    /\ JulianDay.to_heb fuel (JulianDay.normalize x) = Return (AHebrewDate c)
    /\ tuple c = (y, m, d).
Proof.
  intros C Hfuel Hh Hy Hscope.
  apply HebrewDate_init_inv in Hh. destruct Hh as (H1 & Hm & Hd & [= ->]).
  destruct (hebrew_roundtrip_scoped Ymax C fuel y m d) as (x & Hx & _ & _ & Hto);
    try assumption; [lia|].
  exists x, (mkCalendarDate y m d (Some (JulianDay.normalize x))).
  split; [exact Hx|]. split; [|reflexivity].
  apply Hto. apply Hscope. exact Hx.
Qed.

Lemma hebrew_roundtrip_witness :
  exists x c,
    HebrewDate.jd (U := Reference.calendar) (mkCalendarDate 5781 9 25 None) = Some x
    /\ JulianDay.to_heb (U := Reference.calendar) (Z.to_nat 6020) (JulianDay.normalize x)
       = Return (AHebrewDate c)
    /\ tuple c = (5781, 9, 25).
Proof.
  apply (hebrew_roundtrip (U := Reference.calendar) 6020 (Z.to_nat 6020) 5781 9 25).
  - exact reference_contract.
  - lia.
  - reflexivity.
  - lia.
  - intros x Hx. vm_compute in Hx. injection Hx as <-. reflexivity.
Defined.

(** On the reference calendar every date of the years 1..6000 is in scope:
    its [jd], wrapped in a [JulianDay] and converted by [to_heb], is the
    date again. *)
Lemma reference_roundtrip (y m d : Z) (h : CalendarDateMixin) :
  1 <= y <= 6000 ->
  HebrewDate.__init__ (U := Reference.calendar) y m d None = Return (AHebrewDate h) ->
  exists x c,
    HebrewDate.jd (U := Reference.calendar) h = Some x
    /\ JulianDay.to_heb (U := Reference.calendar) (Z.to_nat 6020) (JulianDay.normalize x)
       = Return (AHebrewDate c)
    /\ tuple c = (y, m, d).
Proof.
  intros Hy Hh.
  apply HebrewDate_init_inv in Hh. destruct Hh as (H1 & Hm & Hd & [= ->]).
  destruct (hebrew_roundtrip_scoped (U := Reference.calendar) 6020
              reference_contract (Z.to_nat 6020) y m d)
    as (x & Hx & _ & _ & Hto); [lia | exact Hm | exact Hd | lia |].
  exists x, (mkCalendarDate y m d (Some (JulianDay.normalize x))).
  split; [exact Hx|]. split; [|reflexivity]. apply Hto.
  destruct (hebrew_jd_value (U := Reference.calendar) 6020 reference_contract y m d)
    as (J & HJ & HJy & _); [lia | exact Hm | exact Hd |].
  rewrite HJ in Hx. injection Hx as <-.
  unfold in_scope, year_estimate.
  rewrite (int_of_half_integer _ (J + 347996)) by qlin.
  assert (Hup : @_elapsed_days Reference.calendar (y + 1)
                <= @_elapsed_days Reference.calendar 6001)
    by (apply (elapsed_le (U := Reference.calendar) 6020 reference_contract); lia).
  replace (@_elapsed_days Reference.calendar 6001) with 2191466 in Hup
    by (vm_compute; reflexivity).
  zdiv.
Qed.

(** C4.  On the day stored by a [JulianDay], [to_heb] raises its domain
    error exactly when the day precedes 347997, whatever the calendar
    collaborator; and on every other day in scope of a collaborator that
    meets the contract it returns a Hebrew date. *)
Theorem to_heb_domain {U : utils} (Ymax : Z) (fuel : nat) (raw : Q) :
  contract Ymax -> (Z.to_nat Ymax <= fuel)%nat ->
  (JulianDay.to_heb fuel (JulianDay.normalize raw)
   = Raise (ValueError before_creation)
   <-> (JulianDay.normalize raw < 347997)%Q)
  /\ (~ (JulianDay.normalize raw < 347997)%Q ->
      in_scope Ymax (JulianDay.normalize raw) ->
      exists y m d,
        JulianDay.to_heb fuel (JulianDay.normalize raw)
        = Return (AHebrewDate
                    (mkCalendarDate y m d (Some (JulianDay.normalize raw))))).
Proof.
  intros C Hfuel.
  pose proof (normalize_half_integer raw) as Hhalf.
  set (x := JulianDay.normalize raw) in *.
  pose proof (half_integer_lt_le x 347997 Hhalf) as Hle.
  change (inject_Z 347997) with 347997%Q in Hle.
  split.
  - rewrite to_heb_guard. exact Hle.
  - intros Hnot Hscope.
    assert (Hx : (347997 < x)%Q).
    { apply Qnot_le_lt. intros H. apply Hnot. apply Hle. exact H. }
    destruct (to_heb_total Ymax C fuel x Hhalf Hx Hscope Hfuel)
      as (y & m & d & H & _).
    exists y, m, d. exact H.
Qed.

Lemma to_heb_domain_witness :
  (JulianDay.to_heb (U := Reference.calendar) (Z.to_nat 6020)
     (JulianDay.normalize 2459194.5)
   = Raise (ValueError before_creation)
   <-> (JulianDay.normalize 2459194.5 < 347997)%Q)
  /\ (~ (JulianDay.normalize 2459194.5 < 347997)%Q ->
      in_scope 6020 (JulianDay.normalize 2459194.5) ->
      exists y m d,
        JulianDay.to_heb (U := Reference.calendar) (Z.to_nat 6020)
          (JulianDay.normalize 2459194.5)
        = Return (AHebrewDate
                    (mkCalendarDate y m d (Some (JulianDay.normalize 2459194.5))))).
Proof.
  apply (to_heb_domain (U := Reference.calendar) 6020 (Z.to_nat 6020) 2459194.5).
  - exact reference_contract.
  - lia.
Defined.

(** ** The operators of [BaseDate] *)

Lemma floor_compat (x y : Q) : x == y -> Spec.floor x = Spec.floor y.
Proof.
  destruct x as [a b], y as [c d]. unfold Qeq, Spec.floor. simpl. intros H.
  rewrite <- (Z.div_mul_cancel_r a (Z.pos b) (Z.pos d)) by lia.
  rewrite <- (Z.div_mul_cancel_r c (Z.pos d) (Z.pos b)) by lia.
  rewrite H. f_equal. lia.
Qed.

Lemma floor_inject_Z (n : Z) : Spec.floor (inject_Z n) = n.
Proof. unfold Spec.floor. simpl. apply Z.div_1_r. Qed.

Lemma year_estimate_compat (x y : Q) : x == y -> year_estimate x = year_estimate y.
Proof.
  intros H. unfold year_estimate. rewrite (int_compat (x + 0.5) (y + 0.5)); [reflexivity|].
  rewrite H. reflexivity.
Qed.

Lemma year_estimate_mono (x : Q) (k n : Z) :
  half_integer x -> k <= n ->
  year_estimate (x + inject_Z k) <= year_estimate (x + inject_Z n).
Proof.
  intros [j Hj] Hk. unfold year_estimate.
  rewrite (int_of_half_integer (x + inject_Z k) (j + k)) by (rewrite Hj; qlin).
  rewrite (int_of_half_integer (x + inject_Z n) (j + n)) by (rewrite Hj; qlin).
  zdiv.
Qed.

Section Operators.
Context {U : utils}.

Lemma shifted_same_kind (fuel : nat) (a b : date) (x : Q) :
  same_kind a b = true -> BaseDate.shifted fuel a x = BaseDate.shifted fuel b x.
Proof. destruct a, b; simpl; intros H; try discriminate H; reflexivity. Qed.

Lemma lands_julian (fuel : nat) (day x : Q) : lands fuel (AJulianDay day) x.
Proof. eexists. repeat split. Qed.

Lemma lands_gregorian (fuel : nat) (c : CalendarDateMixin) (x : Q) :
  lands fuel (AGregorianDate c) x.
Proof.
  destruct (to_greg_total (JulianDay.normalize x)) as (y & m & d & H).
  eexists. split; [exact H|]. split; reflexivity.
Qed.

Lemma lands_hebrew (Ymax : Z) (fuel : nat) (c : CalendarDateMixin) (x : Q) :
  contract Ymax -> (Z.to_nat Ymax <= fuel)%nat ->
  half_integer x -> (347997 < x)%Q -> in_scope Ymax x ->
  lands fuel (AHebrewDate c) x.
Proof.
  intros C Hfuel Hhalf Hx Hscope.
  pose proof (normalize_fixed x Hhalf) as Hn.
  destruct (to_heb_total Ymax C fuel (JulianDay.normalize x)) as (y & m & d & H & _).
  - apply normalize_half_integer.
  - rewrite Hn. exact Hx.
  - unfold in_scope. rewrite (year_estimate_compat _ x Hn). exact Hscope.
  - exact Hfuel.
  - eexists. split; [exact H|]. split; reflexivity.
Qed.

(** [(date + n) - n == date], given the two conversions. *)
Lemma identity_of_landings (fuel : nat) (d : date) (n : Z) (x : Q) :
  BaseDate.jd d = Some x -> half_integer x ->
  lands fuel d (x + inject_Z n) ->
  lands fuel d (JulianDay.normalize (x + inject_Z n) - inject_Z n) ->
  add_then_subtract fuel d n = Return true.
Proof.
  intros Hjd Hhalf (d1 & S1 & J1 & K1) (d2 & S2 & J2 & K2).
  unfold add_then_subtract, BaseDate.plus, BaseDate.__add__.
  rewrite Hjd, S1. cbn [bind].
  unfold BaseDate.minus, BaseDate.__sub__. rewrite J1.
  rewrite <- (shifted_same_kind fuel d d1) by exact K1. rewrite S2. cbn [bind].
  unfold BaseDate.equals, BaseDate.__eq__, BaseDate.operand_jd.
  rewrite J2, Hjd. cbn [BaseDate.jd_eq].
  replace (Py.eq _ x) with true; [reflexivity|].
  symmetry. apply eq_spec.
  pose proof (normalize_fixed _ (half_integer_shift x n Hhalf)) as E1.
  rewrite normalize_fixed.
  - rewrite E1. ring.
  - apply half_integer_unshift. apply normalize_half_integer.
Qed.

(** The day a constructed date stands for is a midnight value. *)
Lemma constructed_jd (d : date) :
  constructed d -> is_hebrew d = false ->
  exists x, BaseDate.jd d = Some x /\ half_integer x.
Proof.
  destruct d as [x | [y m d [v|]] | c]; simpl; intros H K; try discriminate K.
  - exists x. split; [reflexivity | exact H].
  - exists v. split; [reflexivity | apply (proj2 H); reflexivity].
  - eexists. split; [reflexivity|].
    exists (day_number y m d + 1720994). apply gregorian_jd_half.
Qed.

Lemma constructed_jd_hebrew (Ymax : Z) (c : CalendarDateMixin) :
  contract Ymax -> constructed (AHebrewDate c) -> year c < Ymax ->
  exists x, BaseDate.jd (AHebrewDate c) = Some x
            /\ half_integer x /\ (347997 < x)%Q.
Proof.
  intros C [Hinit Hcache] Hy. destruct c as [y m d [v|]]; simpl in *.
  - exists v. split; [reflexivity|]. apply Hcache. reflexivity.
  - apply HebrewDate_init_inv in Hinit. destruct Hinit as (H1 & Hm & Hd & _).
    destruct (hebrew_jd_value Ymax C y m d) as (J & HJ & HJy & _);
      [lia | exact Hm | exact Hd |].
    exists (inject_Z J + 347996.5)%Q. split; [exact HJ|].
    assert (H1e : 1 <= _elapsed_days y).
    { rewrite <- (contract_epoch Ymax C). apply (elapsed_le Ymax C); lia. }
    split.
    + exists (J + 347996). qlin.
    + assert (Hq : (inject_Z 1 <= inject_Z J)%Q) by (rewrite <- Zle_Qle; lia).
      change (inject_Z 1) with 1%Q in Hq. lra.
Qed.

Lemma constructed_hebrew_half (c : CalendarDateMixin) (x : Q) :
  constructed (AHebrewDate c) -> BaseDate.jd (AHebrewDate c) = Some x ->
  half_integer x.
Proof.
  intros [Hinit Hcache] Hjd. destruct c as [y m d [v|]]; simpl in *.
  - injection Hjd as <-. apply Hcache. reflexivity.
  - apply HebrewDate_init_inv in Hinit. destruct Hinit as (H1 & Hm & Hd & _).
    rewrite (hebrew_jd_computed y m d Hm) in Hjd. injection Hjd as <-.
    exists (_elapsed_days y + days_before y m (HebrewDate.months y) + (d - 1)
            + 347996).
    qlin.
Qed.

(** Every date the module builds has a Julian day. *)
Lemma constructed_jd_defined (d : date) :
  constructed d -> exists x, BaseDate.jd d = Some x /\ half_integer x.
Proof.
  intros Hd. destruct (is_hebrew d) eqn:K.
  - destruct d as [| |c]; try discriminate K.
    destruct Hd as [Hinit Hcache]. destruct c as [y m d [v|]]; simpl in *.
    + exists v. split; [reflexivity|]. apply Hcache. reflexivity.
    + apply HebrewDate_init_inv in Hinit. destruct Hinit as (H1 & Hm & Hd & _).
      rewrite (hebrew_jd_computed y m d Hm). eexists. split; [reflexivity|].
      exists (_elapsed_days y + days_before y m (HebrewDate.months y) + (d - 1)
              + 347996).
      qlin.
  - apply constructed_jd; assumption.
Qed.

End Operators.

(** *** C5 *)

(** C5, counterexample.  On the reference calendar 1 Tishrei of the year 1
    is a valid Hebrew date; adding -1 to it asks [to_heb] for the day
    347996.5, which its guard refuses. *)
Lemma add_then_subtract_fails_at_creation :
  HebrewDate.__init__ (U := Reference.calendar) 1 7 1 None
  = Return (AHebrewDate (mkCalendarDate 1 7 1 None))
  /\ BaseDate.plus (U := Reference.calendar) (Z.to_nat 6020)
       (AHebrewDate (mkCalendarDate 1 7 1 None)) (Num (-1))
     = Raise (ValueError before_creation)
  /\ add_then_subtract (U := Reference.calendar) (Z.to_nat 6020)
       (AHebrewDate (mkCalendarDate 1 7 1 None)) (-1)
     = Raise (ValueError before_creation).
Proof. split; [|split]; vm_compute; reflexivity. Qed.

(** C5, as amended.  As long as the Julian days of [date] and of
    [date + n] are within the range in which the float arithmetic is exact:
    [(date + n) - n == date] holds for every [JulianDay] and every
    [GregorianDate] and all integers [n]; for a [HebrewDate] it holds
    whenever [date + n] is a day after the guard of [to_heb]
    ([jd + n > 347997]; the calendar collaborator meeting its contract on
    the years in scope), and otherwise [date + n] raises the domain error
    of [to_heb]. *)
Theorem add_then_subtract_identity {U : utils} (Ymax : Z) (fuel : nat) (d : date) (n : Z) (x : Q) :
  constructed d -> BaseDate.jd d = Some x ->
  in_exact_range x -> in_exact_range (x + inject_Z n) ->
  (is_hebrew d = false -> add_then_subtract fuel d n = Return true)
  /\ (forall c, d = AHebrewDate c ->
        contract Ymax -> (Z.to_nat Ymax <= fuel)%nat -> year c < Ymax ->
        in_scope Ymax x -> in_scope Ymax (x + inject_Z n) ->
        (347997 < x + inject_Z n)%Q ->
        add_then_subtract fuel d n = Return true)
  /\ (forall c, d = AHebrewDate c ->
        (x + inject_Z n <= 347997)%Q ->
        BaseDate.plus fuel d (Num n) = Raise (ValueError before_creation)).
Proof.
  intros Hd Hjd _ _. split; [|split].
  - intros K. destruct (constructed_jd d Hd K) as (x' & Hx' & Hhalf).
    rewrite Hjd in Hx'. injection Hx' as <-.
    apply (identity_of_landings fuel d n x Hjd Hhalf);
      destruct d; try discriminate K;
      first [apply lands_julian | apply lands_gregorian].
  - intros c -> C Hfuel Hy Hs Hsn Hn.
    destruct (constructed_jd_hebrew Ymax c C Hd Hy) as (x' & Hx' & Hhalf & Hx).
    rewrite Hjd in Hx'. injection Hx' as <-.
    pose proof (half_integer_shift x n Hhalf) as Hhn.
    pose proof (normalize_fixed _ Hhn) as En.
    apply (identity_of_landings fuel _ n x Hjd Hhalf).
    + apply (lands_hebrew Ymax); assumption.
    + assert (E : JulianDay.normalize (x + inject_Z n) - inject_Z n == x)
        by (rewrite En; ring).
      apply (lands_hebrew Ymax); try assumption.
      * apply half_integer_unshift. apply normalize_half_integer.
      * rewrite E. exact Hx.
      * unfold in_scope. rewrite (year_estimate_compat _ x E). exact Hs.
  - intros c -> Hle. pose proof Hjd as Hjd'. simpl in Hjd'.
    unfold BaseDate.plus, BaseDate.__add__. rewrite Hjd.
    unfold BaseDate.shifted, JulianDay._to_x.
    pose proof (constructed_hebrew_half c x Hd Hjd) as Hhalf.
    assert (E : JulianDay.to_heb fuel (JulianDay.normalize (x + inject_Z n))
                = Raise (ValueError before_creation)).
    { apply to_heb_guard.
      rewrite (normalize_fixed _ (half_integer_shift x n Hhalf)). exact Hle. }
    rewrite E. reflexivity.
Qed.

(** *** C9 *)

Section Weekday.
Context {U : utils}.

Lemma weekday_value (d : date) (x : Q) (n : Z) :
  BaseDate.jd d = Some x -> x == inject_Z n + 0.5 ->
  BaseDate.weekday d = Return ((n + 2) mod 7 + 1).
Proof.
  intros Hjd Hx. unfold BaseDate.weekday. rewrite Hjd.
  rewrite (int_compat (x + 0.5 + 1) (inject_Z (n + 2))) by (rewrite Hx; qlin).
  rewrite int_inject_Z. reflexivity.
Qed.

Lemma spec_weekday_value (x : Q) (n : Z) :
  x == inject_Z n + 0.5 -> Spec.weekday x = (n + 2) mod 7 + 1.
Proof.
  intros Hx. unfold Spec.weekday.
  rewrite (floor_compat (x + 1.5) (inject_Z (n + 2))) by (rewrite Hx; qlin).
  rewrite floor_inject_Z. reflexivity.
Qed.

Lemma shabbos_of_landings (fuel : nat) (d : date) (x : Q) :
  BaseDate.jd d = Some x -> half_integer x ->
  (forall k, 0 <= k <= 6 -> lands fuel d (x + inject_Z k)) ->
  shabbos_weekday fuel d = Return 7
  /\ (BaseDate.weekday d = Return 7 -> shabbos_is_self fuel d = Return true).
Proof.
  intros Hjd [n Hn] Hland.
  pose proof (weekday_value d x n Hjd Hn) as Hw.
  set (w := (n + 2) mod 7 + 1) in *.
  assert (Hk : 0 <= 7 - w <= 6) by (subst w; zdiv).
  destruct (Hland (7 - w) Hk) as (d1 & S1 & J1 & K1).
  assert (Hs : BaseDate.shabbos fuel d = Return d1).
  { unfold BaseDate.shabbos. rewrite Hw. cbn [bind].
    unfold BaseDate.plus, BaseDate.__add__. rewrite Hjd, S1. reflexivity. }
  assert (E1 : JulianDay.normalize (x + inject_Z (7 - w))
               == inject_Z (n + (7 - w)) + 0.5).
  { rewrite normalize_fixed by (apply half_integer_shift; exists n; exact Hn).
    rewrite Hn. qlin. }
  split.
  - unfold shabbos_weekday. rewrite Hs. cbn [bind].
    rewrite (weekday_value d1 _ _ J1 E1). f_equal. subst w. zdiv.
  - intros H7. rewrite Hw in H7. injection H7 as H7.
    unfold shabbos_is_self. rewrite Hs. cbn [bind].
    unfold BaseDate.equals, BaseDate.__eq__, BaseDate.operand_jd.
    rewrite J1, Hjd. cbn [BaseDate.jd_eq].
    replace (Py.eq _ x) with true; [reflexivity|].
    symmetry. apply eq_spec. rewrite E1, Hn, H7. qlin.
Qed.

End Weekday.

(** 12 December 2020 was a Saturday, 13 December a Sunday. *)
Example weekday_of_a_saturday :
  BaseDate.weekday (U := Reference.calendar)
    (AGregorianDate (mkCalendarDate 2020 12 12 None)) = Return 7
  /\ BaseDate.weekday (U := Reference.calendar)
       (AGregorianDate (mkCalendarDate 2020 12 13 None)) = Return 1.
Proof. split; reflexivity. Qed.

(** C9, as amended.  For every date the module builds whose Julian day is
    within the range in which the float arithmetic is exact: [weekday()] is
    [floor(jd + 1.5) mod 7 + 1], a number of 1..7; [shabbos()] is
    [date + (7 - weekday())]; it returns a date whose weekday is 7, equal
    to the date itself when the date is a Saturday.  For a Hebrew date the
    conversion back needs the calendar collaborator to meet its contract on
    the years in scope. *)
Theorem weekday_and_shabbos {U : utils} (Ymax : Z) (fuel : nat) (d : date) (x : Q) :
  constructed d -> BaseDate.jd d = Some x -> in_exact_range x ->
  (exists w, BaseDate.weekday d = Return w /\ w = Spec.weekday x /\ 1 <= w <= 7
             /\ BaseDate.shabbos fuel d = BaseDate.plus fuel d (Num (7 - w)))
  /\ (is_hebrew d = false ->
      shabbos_weekday fuel d = Return 7
      /\ (BaseDate.weekday d = Return 7 -> shabbos_is_self fuel d = Return true))
  /\ (forall c, d = AHebrewDate c ->
        contract Ymax -> (Z.to_nat Ymax <= fuel)%nat -> year c < Ymax ->
        in_scope Ymax (x + inject_Z 6) ->
        shabbos_weekday fuel d = Return 7
        /\ (BaseDate.weekday d = Return 7 -> shabbos_is_self fuel d = Return true)).
Proof.
  intros Hd Hjd _.
  assert (Hhalf : half_integer x).
  { destruct (is_hebrew d) eqn:K.
    - destruct d; try discriminate K. exact (constructed_hebrew_half _ x Hd Hjd).
    - destruct (constructed_jd d Hd K) as (x' & Hx' & H).
      rewrite Hjd in Hx'. injection Hx' as <-. exact H. }
  split; [|split].
  - destruct Hhalf as [n Hn]. exists ((n + 2) mod 7 + 1).
    pose proof (weekday_value d x n Hjd Hn) as Hw.
    split; [exact Hw|]. split; [symmetry; apply spec_weekday_value; exact Hn|].
    split; [zdiv|]. unfold BaseDate.shabbos. rewrite Hw. reflexivity.
  - intros K. apply (shabbos_of_landings fuel d x Hjd Hhalf).
    intros k _. destruct d; try discriminate K;
      first [apply lands_julian | apply lands_gregorian].
  - intros c -> C Hfuel Hy Hscope.
    destruct (constructed_jd_hebrew Ymax c C Hd Hy) as (x' & Hx' & _ & Hx).
    rewrite Hjd in Hx'. injection Hx' as <-.
    apply (shabbos_of_landings fuel _ x Hjd Hhalf).
    intros k Hk. apply (lands_hebrew Ymax); try assumption.
    + apply half_integer_shift. exact Hhalf.
    + assert (Hq : (inject_Z 0 <= inject_Z k)%Q) by (rewrite <- Zle_Qle; lia).
      change (inject_Z 0) with 0%Q in Hq. lra.
    + unfold in_scope in *.
      pose proof (year_estimate_mono x k 6 Hhalf ltac:(lia)). lia.
Qed.

Lemma weekday_and_shabbos_witness :
  shabbos_weekday (U := Reference.calendar) (Z.to_nat 6020)
    (AHebrewDate (mkCalendarDate 5781 3 29 None)) = Return 7
  /\ BaseDate.shabbos (U := Reference.calendar) (Z.to_nat 6020)
       (AHebrewDate (mkCalendarDate 5781 3 29 None))
     = Return (AHebrewDate (mkCalendarDate 5781 4 2 (Some 2459377.5%Q))).
Proof.
  split; [|vm_compute; reflexivity].
  refine (proj1 (proj2 (proj2 (weekday_and_shabbos (U := Reference.calendar)
            6020 (Z.to_nat 6020) (AHebrewDate (mkCalendarDate 5781 3 29 None))
            2459374.5 _ _ _)) _ eq_refl reference_contract _ _ _)).
  - split; [reflexivity | intros v H; discriminate H].
  - vm_compute. reflexivity.
  - vm_compute. discriminate.
  - lia.
  - simpl. lia.
  - vm_compute. reflexivity.
Defined.

Lemma add_then_subtract_identity_witness :
  add_then_subtract (U := Reference.calendar) (Z.to_nat 6020)
    (AHebrewDate (mkCalendarDate 5781 9 25 None)) (-400) = Return true
  /\ add_then_subtract (U := Reference.calendar) 0
       (AGregorianDate (mkCalendarDate 2020 12 11 None)) 1000000 = Return true.
Proof.
  split.
  - refine (proj1 (proj2 (add_then_subtract_identity (U := Reference.calendar)
              6020 (Z.to_nat 6020) (AHebrewDate (mkCalendarDate 5781 9 25 None))
              (-400) 2459194.5 _ _ _ _)) _ eq_refl reference_contract _ _ _ _ _).
    + split; [reflexivity | intros v H; discriminate H].
    + vm_compute. reflexivity.
    + vm_compute. discriminate.
    + vm_compute. discriminate.
    + lia.
    + simpl. lia.
    + vm_compute. reflexivity.
    + vm_compute. reflexivity.
    + vm_compute. reflexivity.
  - refine (proj1 (add_then_subtract_identity (U := Reference.calendar)
              6020 0 (AGregorianDate (mkCalendarDate 2020 12 11 None))
              1000000 2459194.5 _ _ _ _) eq_refl).
    + split; [reflexivity | intros v H; discriminate H].
    + reflexivity.
    + vm_compute. discriminate.
    + vm_compute. discriminate.
Defined.

(** ** C6: what the constructors accept *)

(** Settles one case of a constructor after its tests have been decided. *)
Ltac validation_case :=
  cbn [orb andb negb];
  repeat split;
  try (intros [? ?]);
  intros;
  first [ discriminate
        | reflexivity
        | lia
        | eexists; reflexivity
        | intuition (first [lia | discriminate | congruence]) ].

(** C6.  [GregorianDate(year, month, day)] raises a [ValueError] exactly
    when the month is outside 1..12 or the day outside
    1..monthlength(year, month), and otherwise returns the date with these
    fields; [HebrewDate(year, month, day)] raises a [ValueError] exactly
    when the year is below 1, the month outside 1..13, the month 13 in a
    year that is not leap, or the day outside 1..monthlength(year, month),
    and otherwise returns the date. *)
Theorem construction_validation {U : utils} (y m d : Z) (jd : option Q) :
  ((exists msg, GregorianDate.__init__ y m d jd = Raise (ValueError msg))
   <-> (m < 1 \/ 12 < m \/ d < 1 \/ GregorianDate._monthlength y m < d))
  /\ (GregorianDate.__init__ y m d jd
      = Return (AGregorianDate (mkCalendarDate y m d jd))
      <-> ~ (m < 1 \/ 12 < m \/ d < 1 \/ GregorianDate._monthlength y m < d))
  /\ ((exists msg, HebrewDate.__init__ y m d jd = Raise (ValueError msg))
      <-> (y < 1 \/ m < 1 \/ 13 < m \/ (m = 13 /\ _is_leap y = false)
           \/ d < 1 \/ _month_length y m < d))
  /\ (HebrewDate.__init__ y m d jd
      = Return (AHebrewDate (mkCalendarDate y m d jd))
      <-> ~ (y < 1 \/ m < 1 \/ 13 < m \/ (m = 13 /\ _is_leap y = false)
             \/ d < 1 \/ _month_length y m < d)).
Proof.
  assert (G : ((exists msg, GregorianDate.__init__ y m d jd = Raise (ValueError msg))
               <-> (m < 1 \/ 12 < m \/ d < 1 \/ GregorianDate._monthlength y m < d))
              /\ (GregorianDate.__init__ y m d jd
                  = Return (AGregorianDate (mkCalendarDate y m d jd))
                  <-> ~ (m < 1 \/ 12 < m \/ d < 1
                         \/ GregorianDate._monthlength y m < d))).
  { unfold GregorianDate.__init__. cbv zeta.
    destruct (Z.ltb_spec m 1), (Z.gtb_spec m 12), (Z.ltb_spec d 1),
      (Z.gtb_spec d (GregorianDate._monthlength y m)); validation_case. }
  destruct G as [G1 G2]. split; [exact G1|]. split; [exact G2|].
  unfold HebrewDate.__init__. cbv zeta.
  destruct (Z.ltb_spec y 1), (Z.ltb_spec m 1), (Z.gtb_spec m 13),
    (_is_leap y), (Z.eqb_spec m 13), (Z.ltb_spec d 1),
    (Z.gtb_spec d (_month_length y m)); validation_case.
Qed.

(** ** C8: differences, equality and order through the Julian day *)

(** C8.  For dates [a], [b], [c] of any kinds with Julian days [x], [y],
    [z]: [a - b] is [abs(x - y)], which is non-negative and equal to
    [b - a]; [==], [!=], [<], [>], [<=] and [>=] compare [x] and [y], so
    dates of different kinds on the same day are equal; and [<] is
    transitive. *)
Theorem date_algebra {U : utils} (fuel : nat) (a b c : date) (x y z : Q) :
  BaseDate.jd a = Some x -> BaseDate.jd b = Some y -> BaseDate.jd c = Some z ->
  BaseDate.minus fuel a (Date b) = Return (VFloat (Qabs (x - y)))
  /\ BaseDate.minus fuel b (Date a) = Return (VFloat (Qabs (y - x)))
  /\ (0 <= Qabs (x - y))%Q
  /\ Qabs (x - y) == Qabs (y - x)
  /\ BaseDate.equals a (Date b) = Return (Py.eq x y)
  /\ (x == y <-> BaseDate.equals a (Date b) = Return true)
  /\ BaseDate.__ne__ a (Date b) = Return (negb (Py.eq x y))
  /\ BaseDate.__lt__ a (Date b) = Return (Py.lt x y)
  /\ BaseDate.__gt__ a (Date b) = Return (Py.lt y x)
  /\ BaseDate.__le__ a (Date b) = Return (Py.le x y)
  /\ BaseDate.__ge__ a (Date b) = Return (Py.le y x)
  /\ (BaseDate.__lt__ a (Date b) = Return true ->
      BaseDate.__lt__ b (Date c) = Return true ->
      BaseDate.__lt__ a (Date c) = Return true).
Proof.
  intros Ha Hb Hc.
  assert (E : BaseDate.equals a (Date b) = Return (Py.eq x y)).
  { unfold BaseDate.equals, BaseDate.__eq__, BaseDate.operand_jd.
    rewrite Ha, Hb. reflexivity. }
  assert (L : forall p q u v, BaseDate.jd p = Some u -> BaseDate.jd q = Some v ->
                              BaseDate.__lt__ p (Date q) = Return (Py.lt u v)).
  { intros p q u v Hp Hq.
    unfold BaseDate.__lt__, BaseDate.ordering, BaseDate.operand_jd.
    rewrite Hp, Hq. reflexivity. }
  repeat match goal with |- _ /\ _ => split end.
  - unfold BaseDate.minus, BaseDate.__sub__. rewrite Ha, Hb. reflexivity.
  - unfold BaseDate.minus, BaseDate.__sub__. rewrite Ha, Hb. reflexivity.
  - apply Qabs_nonneg.
  - rewrite Qabs_Qminus. reflexivity.
  - exact E.
  - rewrite E. split.
    + intros H. apply eq_spec in H. rewrite H. reflexivity.
    + intros [= H]. apply eq_spec. exact H.
  - unfold BaseDate.__ne__, BaseDate.operand_jd. rewrite Ha, Hb. reflexivity.
  - apply L; assumption.
  - unfold BaseDate.__gt__, BaseDate.ordering, BaseDate.operand_jd.
    rewrite Ha, Hb. reflexivity.
  - unfold BaseDate.__le__, BaseDate.ordering, BaseDate.operand_jd.
    rewrite Ha, Hb. reflexivity.
  - unfold BaseDate.__ge__, BaseDate.ordering, BaseDate.operand_jd.
    rewrite Ha, Hb. reflexivity.
  - rewrite (L a b x y Ha Hb), (L b c y z Hb Hc), (L a c x z Ha Hc).
    intros [= H1] [= H2]. f_equal. apply lt_spec.
    apply lt_spec in H1. apply lt_spec in H2.
    exact (Qlt_trans _ _ _ H1 H2).
Qed.

Lemma date_algebra_witness :
  BaseDate.equals (U := Reference.calendar)
    (AHebrewDate (mkCalendarDate 5781 9 25 None))
    (Date (AGregorianDate (mkCalendarDate 2020 12 11 None)))
  = Return true.
Proof.
  refine (proj1 (proj1 (proj2 (proj2 (proj2 (proj2 (proj2
            (date_algebra (U := Reference.calendar) 0
               (AHebrewDate (mkCalendarDate 5781 9 25 None))
               (AGregorianDate (mkCalendarDate 2020 12 11 None))
               (AJulianDay 2459194.5)
               2459194.5 2459194.5 2459194.5 _ _ _))))))) _).
  - vm_compute. reflexivity.
  - reflexivity.
  - reflexivity.
  - reflexivity.
Defined.

(** ** C10: the month names of the [/date] route *)

(** C10.  A date compared with a number by [==] is never equal to it:
    [__eq__] returns [NotImplemented] and the operator falls back to
    identity.  So [hebrew_month] returns the transliterated name for the
    months 1..10 and [None] for the months 11, 12 and 13. *)
Theorem hebrew_month_late_months {U : utils} (c : CalendarDateMixin) :
  (forall n, BaseDate.__eq__ (AHebrewDate c) (Num n) = NotImplemented
             /\ BaseDate.equals (AHebrewDate c) (Num n) = Return false)
  /\ (1 <= month c <= 10 ->
      main.hebrew_month (AHebrewDate c)
      = Return (nth (Z.to_nat (month c - 1)) early_month_names ""%string))
  /\ (11 <= month c <= 13 -> main.hebrew_month (AHebrewDate c) = ReturnNone).
Proof.
  split; [intros n; split; reflexivity|]. split; intros H.
  - assert (Hc : month c = 1 \/ month c = 2 \/ month c = 3 \/ month c = 4
                 \/ month c = 5 \/ month c = 6 \/ month c = 7 \/ month c = 8
                 \/ month c = 9 \/ month c = 10) by lia.
    unfold main.hebrew_month.
    repeat (destruct Hc as [Hc|Hc]; [rewrite Hc; reflexivity|]).
    rewrite Hc. reflexivity.
  - assert (Hc : month c = 11 \/ month c = 12 \/ month c = 13) by lia.
    unfold main.hebrew_month.
    destruct Hc as [Hc|[Hc|Hc]]; rewrite Hc; reflexivity.
Qed.

Lemma hebrew_month_late_months_witness :
  main.hebrew_month (U := Reference.calendar)
    (AHebrewDate (mkCalendarDate 5781 9 25 None)) = Return "Kislev"%string
  /\ main.hebrew_month (U := Reference.calendar)
       (AHebrewDate (mkCalendarDate 5781 11 25 None)) = ReturnNone.
Proof.
  split.
  - apply (proj1 (proj2 (hebrew_month_late_months (U := Reference.calendar)
                           (mkCalendarDate 5781 9 25 None)))).
    simpl. lia.
  - apply (proj2 (proj2 (hebrew_month_late_months (U := Reference.calendar)
                           (mkCalendarDate 5781 11 25 None)))).
    simpl. lia.
Defined.

(** ** C7: the directive interpreter *)

Section Format.
Context {U : utils} {R : renderers}.

Lemma string_app_assoc (a b c : string) : ((a ++ b) ++ c = a ++ (b ++ c))%string.
Proof. induction a as [|x a IH]; simpl; [reflexivity | rewrite IH; reflexivity]. Qed.

Lemma concat_snoc (l : list string) (x : string) :
  String.concat "" (l ++ [x]) = (String.concat "" l ++ x)%string.
Proof.
  induction l as [|a t IH]; [reflexivity|].
  destruct t as [|b t].
  - reflexivity.
  - change (String.concat "" ((a :: b :: t) ++ [x]))
      with (a ++ String.concat "" ((b :: t) ++ [x]))%string.
    rewrite IH.
    change (String.concat "" (a :: b :: t))
      with (a ++ String.concat "" (b :: t))%string.
    rewrite string_app_assoc. reflexivity.
Qed.

Ltac fmt_cbn :=
  cbn [HebrewFormat.loop Spec.scan Spec.step Spec.one_of
       existsb list_ascii_of_string negb orb andb Ascii.eqb Bool.eqb];
  unfold HebrewFormat.casefold_is;
  cbn [negb orb andb Ascii.eqb Bool.eqb].

Ltac fmt_step :=
  fmt_cbn;
  match goal with
  | |- context [Ascii.eqb ?c ?k] =>
      is_var c; destruct (Ascii.eqb_spec c k); [subst c|]
  | |- context [match ?s with EmptyString => _ | String _ _ => _ end] =>
      is_var s; destruct s
  end.

Variable self : CalendarDateMixin.

Lemma string_app_nil_r (a : string) : (a ++ "")%string = a.
Proof. induction a as [|x a IH]; simpl; [reflexivity | rewrite IH; reflexivity]. Qed.

Lemma loop_accumulates (n : nat) :
  forall fmt new, (String.length fmt <= n)%nat ->
    HebrewFormat.loop self fmt new
    = (s <- HebrewFormat.loop self fmt [] ;;
       Return (String.concat "" new ++ s)%string).
Proof.
  induction n as [|n IH]; intros fmt new Hlen.
  - destruct fmt; [|simpl in Hlen; lia].
    cbn [HebrewFormat.loop bind String.concat]. rewrite string_app_nil_r. reflexivity.
  - destruct fmt as [|c fmt].
    { cbn [HebrewFormat.loop bind String.concat]. rewrite string_app_nil_r. reflexivity. }
    repeat fmt_step. all: fmt_cbn.
    all: cbn [bind].
    all: try match goal with
         | |- context [bind (HebrewFormat.weekday ?d) _] =>
             destruct (HebrewFormat.weekday d); cbn [bind]
         | |- context [bind (HebrewFormat.to_pydate ?d) _] =>
             destruct (HebrewFormat.to_pydate d); cbn [bind]
         | |- context [bind (datetime.date ?y ?m ?d) _] =>
             destruct (datetime.date y m d); cbn [bind]
         end.
    all: try reflexivity.
    all: try match goal with
         | |- HebrewFormat.loop _ ?rest (?acc ++ [?x]) = _ =>
             rewrite (IH rest (acc ++ [x])), (IH rest ([] ++ [x]))
               by (simpl in Hlen |- *; lia);
             destruct (HebrewFormat.loop _ rest []); cbn [bind];
             try reflexivity;
             rewrite !concat_snoc, string_app_assoc; reflexivity
         end.
Qed.

Variable w : Z.
Variables p q : Z * Z * Z.
Hypothesis Hw : HebrewFormat.weekday self = Return w.
Hypothesis Hp : HebrewFormat.to_pydate self = Return p.
Hypothesis Hq : datetime.date (year self) 1 1 = Return q.

Lemma loop_outcome (n : nat) :
  forall fmt new, (String.length fmt <= n)%nat ->
    (Spec.well_formed fmt = true -> exists s, HebrewFormat.loop self fmt new = Return s)
    /\ (Spec.well_formed fmt = false ->
        exists e, HebrewFormat.loop self fmt new = Raise e /\ is_format_error e = true).
Proof.
  induction n as [|n IH]; intros fmt new Hlen.
  - destruct fmt; [|simpl in Hlen; lia].
    split; [intros _; eexists; reflexivity | discriminate].
  - unfold Spec.well_formed, HebrewFormat.casefold_is in *. 
    destruct fmt as [|c fmt]; [split; [intros _; eexists; reflexivity | discriminate]|].
    repeat fmt_step. all: fmt_cbn.
    all: rewrite ?Hw, ?Hp, ?Hq; cbn [bind].
    all: try (apply IH; simpl in Hlen |- *; lia).
    all: try (split; [discriminate | intros _; eexists; split; reflexivity]).
Qed.

Lemma format_outcome (fmt : string) :
  (Spec.well_formed fmt = true ->
   exists s, HebrewFormat.__format__ self fmt = Return s)
  /\ (Spec.well_formed fmt = false ->
      exists e, HebrewFormat.__format__ self fmt = Raise e
                /\ is_format_error e = true).
Proof. apply (loop_outcome (String.length fmt)). apply le_n. Qed.

End Format.

(** The same without the delegated calls, for a string that never reaches
    them. *)
Ltac plain_cbn :=
  cbn [HebrewFormat.loop Spec.scan Spec.step Spec.one_of delegates
       existsb list_ascii_of_string negb orb andb Ascii.eqb Bool.eqb];
  unfold HebrewFormat.casefold_is;
  cbn [negb orb andb Ascii.eqb Bool.eqb].

Ltac plain_step :=
  plain_cbn;
  try (let H := fresh in intros H; discriminate H);
  match goal with
  | |- context [Ascii.eqb ?c ?k] =>
      is_var c; destruct (Ascii.eqb_spec c k); [subst c|]
  | |- context [match ?s with EmptyString => _ | String _ _ => _ end] =>
      is_var s; destruct s
  end.

Ltac format_cbn :=
  cbn [HebrewFormat.loop append negb orb andb Ascii.eqb Bool.eqb];
  unfold HebrewFormat.casefold_is;
  cbn [negb orb andb Ascii.eqb Bool.eqb].

Ltac format_step :=
  format_cbn;
  try (let H := fresh in intros H; discriminate H);
  match goal with
  | |- context [Ascii.eqb ?c ?k] =>
      is_var c; destruct (Ascii.eqb_spec c k); [subst c|]
  | |- context [match ?s with EmptyString => _ | String _ _ => _ end] =>
      is_var s; destruct s
  end.

Section FormatPieces.
Context {U : utils} {R : renderers}.
Variable self : CalendarDateMixin.

(** Formatting goes piece by piece. *)
Lemma loop_app (n : nat) :
  forall f1 f2 new s1, (String.length f1 <= n)%nat ->
    HebrewFormat.loop self f1 new = Return s1 ->
    HebrewFormat.loop self (f1 ++ f2) new
    = (s2 <- HebrewFormat.loop self f2 [] ;; Return (s1 ++ s2)%string).
Proof.
  induction n as [|n IH]; intros f1 f2 new s1 Hlen.
  - destruct f1; [|simpl in Hlen; lia].
    cbn [HebrewFormat.loop append]. intros [= <-].
    apply (loop_accumulates self (String.length f2)). apply le_n.
  - destruct f1 as [|c f1].
    { cbn [HebrewFormat.loop append]. intros [= <-].
      apply (loop_accumulates self (String.length f2)). apply le_n. }
    revert f2. repeat format_step. all: format_cbn.
    all: try (intros ? H; discriminate H).
    all: intros f2.
    all: try match goal with
         | |- context [bind (HebrewFormat.weekday ?d) _] =>
             destruct (HebrewFormat.weekday d); cbn [bind]
         | |- context [bind (HebrewFormat.to_pydate ?d) _] =>
             destruct (HebrewFormat.to_pydate d); cbn [bind]
         | |- context [bind (datetime.date ?y ?m ?d) _] =>
             destruct (datetime.date y m d); cbn [bind]
         end.
    all: try (intros H; discriminate H).
    all: intros H; apply IH; [simpl in Hlen |- *; lia | exact H].
Qed.

Variable w : Z.
Hypothesis Hw : HebrewFormat.weekday self = Return w.

Lemma loop_outcome_plain (n : nat) :
  forall fmt new, (String.length fmt <= n)%nat ->
    delegates Spec.LITERAL fmt = false ->
    (Spec.well_formed fmt = true -> exists s, HebrewFormat.loop self fmt new = Return s)
    /\ (Spec.well_formed fmt = false ->
        exists e, HebrewFormat.loop self fmt new = Raise e /\ is_format_error e = true).
Proof.
  induction n as [|n IH]; intros fmt new Hlen.
  - destruct fmt; [|simpl in Hlen; lia].
    intros _. split; [intros _; eexists; reflexivity | discriminate].
  - unfold Spec.well_formed, HebrewFormat.casefold_is in *.
    destruct fmt as [|c fmt];
      [intros _; split; [intros _; eexists; reflexivity | discriminate]|].
    repeat plain_step. all: plain_cbn.
    all: try (intros H; discriminate H).
    all: rewrite ?Hw; cbn [bind].
    all: try (intros H; apply IH; [simpl in Hlen |- *; lia | exact H]).
    all: try (intros _; split; [discriminate | intros _; eexists; split; reflexivity]).
Qed.

End FormatPieces.

Section FormatOfADate.
Context {U : utils} {R : renderers}.
Variable self : CalendarDateMixin.

(** What the error conditions of the claim come to, given both outcomes. *)
Lemma format_verdict (fmt : string) :
  (Spec.well_formed fmt = true ->
   exists s, HebrewFormat.__format__ self fmt = Return s) ->
  (Spec.well_formed fmt = false ->
   exists e, HebrewFormat.__format__ self fmt = Raise e
             /\ is_format_error e = true) ->
  ((exists e, HebrewFormat.__format__ self fmt = Raise e)
   <-> Spec.well_formed fmt = false)
  /\ (forall e, HebrewFormat.__format__ self fmt = Raise e ->
                is_format_error e = true)
  /\ (Spec.well_formed fmt = true ->
      exists s, HebrewFormat.__format__ self fmt = Return s).
Proof.
  intros Hok Hbad. split; [split|split].
  - intros [e He]. destruct (Spec.well_formed fmt); [|reflexivity].
    destruct (Hok eq_refl) as [s Hs]. rewrite Hs in He. discriminate He.
  - intros H. destruct (Hbad H) as (e & He & _). exists e. exact He.
  - intros e He. destruct (Spec.well_formed fmt).
    + destruct (Hok eq_refl) as [s Hs]. rewrite Hs in He. discriminate He.
    + destruct (Hbad eq_refl) as (e' & He' & Hf). rewrite He' in He.
      injection He as <-. exact Hf.
  - exact Hok.
Qed.

Lemma format_after_prefix (f1 f2 s1 : string) :
  HebrewFormat.__format__ self f1 = Return s1 ->
  HebrewFormat.__format__ self (f1 ++ f2)
  = (s2 <- HebrewFormat.__format__ self f2 ;; Return (s1 ++ s2)%string).
Proof.
  intros H. unfold HebrewFormat.__format__ in *.
  apply (loop_app self (String.length f1)); [apply le_n | exact H].
Qed.



End FormatOfADate.

Lemma format_percent {U : utils} {R : renderers} (self : CalendarDateMixin)
      (fmt : string) :
  HebrewFormat.__format__ self ("%%" ++ fmt)
  = (s <- HebrewFormat.__format__ self fmt ;; Return ("%" ++ s)%string).
Proof.
  unfold HebrewFormat.__format__. cbn [append HebrewFormat.loop negb Ascii.eqb Bool.eqb andb].
  rewrite (loop_accumulates self (String.length fmt)) by apply le_n.
  reflexivity.
Qed.

Lemma format_literal {U : utils} {R : renderers} (self : CalendarDateMixin)
      (c : ascii) (fmt : string) :
  c <> "%"%char ->
  HebrewFormat.__format__ self (String c fmt)
  = (s <- HebrewFormat.__format__ self fmt ;; Return (String c s)).
Proof.
  intros Hc. unfold HebrewFormat.__format__. cbn [HebrewFormat.loop].
  destruct (Ascii.eqb_spec c "%") as [E|_]; [contradiction|]. cbn [negb].
  rewrite (loop_accumulates self (String.length fmt)) by apply le_n.
  reflexivity.
Qed.

(** C7, counterexample.  On the reference calendar 1 Nisan 10000 is a valid
    Hebrew date and [%y] is a directive of the table, yet formatting fails:
    [datetime.date(10000, 1, 1)] raises its own [ValueError]; and on [%y%q],
    which holds the unknown directive [%q], the error raised is that one
    and not a format error.  The same happens to [%a] on 1 Tishrei of the
    year 1, whose Gregorian year is -3761. *)
Lemma format_fails_on_a_directive_of_the_table :
  HebrewDate.__init__ (U := Reference.calendar) 10000 1 1 None
  = Return (AHebrewDate (mkCalendarDate 10000 1 1 None))
  /\ Spec.well_formed "%y" = true
  /\ HebrewFormat.__format__ (U := Reference.calendar) (R := Reference.decimal)
       (mkCalendarDate 10000 1 1 None) "%y"
     = Raise (ValueError (year_out_of_range 10000))
  /\ is_format_error (ValueError (year_out_of_range 10000)) = false
  /\ Spec.well_formed "%y%q" = false
  /\ HebrewFormat.__format__ (U := Reference.calendar) (R := Reference.decimal)
       (mkCalendarDate 10000 1 1 None) "%y%q"
     = Raise (ValueError (year_out_of_range 10000))
  /\ HebrewDate.__init__ (U := Reference.calendar) 1 7 1 None
     = Return (AHebrewDate (mkCalendarDate 1 7 1 None))
  /\ Spec.well_formed "%a" = true
  /\ HebrewFormat.__format__ (U := Reference.calendar) (R := Reference.decimal)
       (mkCalendarDate 1 7 1 None) "%a"
     = Raise (ValueError (year_out_of_range (-3761))).
Proof. repeat split; vm_compute; reflexivity. Qed.

(** C7, as amended.  For a Hebrew date the module builds, with a Julian
    day that fits a double, and a directive string that meets none of the
    directives [%a], [%A], [%y], [%Y] before its first malformed directive
    (or any directive string, when [datetime.date] accepts the Gregorian
    projection of the date and the first day of its year): formatting fails
    exactly when the string is not well formed for the table of the spec,
    and then with one of the format errors of [__format__]; otherwise it
    returns a string.  For every Hebrew date, after a prefix that is
    formatted to [s1], [%%] emits a literal [%] and a character other than
    [%] is copied. *)
Theorem format_errors {U : utils} {R : renderers} (self : CalendarDateMixin)
        (fmt : string) :
  (forall x,
      constructed (AHebrewDate self) ->
      BaseDate.jd (AHebrewDate self) = Some x -> fits_double x ->
      (uses_datetime fmt = false
       \/ exists p q, HebrewFormat.to_pydate self = Return p
                      /\ datetime.date (year self) 1 1 = Return q) ->
      ((exists e, HebrewFormat.__format__ self fmt = Raise e)
       <-> Spec.well_formed fmt = false)
      /\ (forall e, HebrewFormat.__format__ self fmt = Raise e ->
                    is_format_error e = true)
      /\ (Spec.well_formed fmt = true ->
          exists s, HebrewFormat.__format__ self fmt = Return s))
  /\ (forall f1 s1,
        HebrewFormat.__format__ self f1 = Return s1 ->
        HebrewFormat.__format__ self (f1 ++ "%%" ++ fmt)
        = (s <- HebrewFormat.__format__ self fmt ;;
           Return (s1 ++ "%" ++ s)%string))
  /\ (forall f1 s1 c,
        c <> "%"%char ->
        HebrewFormat.__format__ self f1 = Return s1 ->
        HebrewFormat.__format__ self (f1 ++ String c fmt)
        = (s <- HebrewFormat.__format__ self fmt ;;
           Return (s1 ++ String c s)%string)).
Proof.
  split; [|split].
  - intros x Hc Hjd _ Hcase.
    destruct (constructed_jd_defined _ Hc) as (x' & Hx' & [k Hk]).
    rewrite Hjd in Hx'. injection Hx' as <-.
    pose proof (weekday_value _ x k Hjd Hk) as Hw.
    destruct Hcase as [Hplain | (p & q & Hp & Hq)].
    + destruct (loop_outcome_plain self _ Hw (String.length fmt) fmt []
                  (le_n _) Hplain) as [Hok Hbad].
      apply format_verdict; assumption.
    + destruct (format_outcome self _ p q Hw Hp Hq fmt) as [Hok Hbad].
      apply format_verdict; assumption.
  - intros f1 s1 H1. rewrite (format_after_prefix self f1 _ s1 H1).
    rewrite format_percent.
    destruct (HebrewFormat.__format__ self fmt); reflexivity.
  - intros f1 s1 c Hc H1. rewrite (format_after_prefix self f1 _ s1 H1).
    rewrite (format_literal self c fmt Hc).
    destruct (HebrewFormat.__format__ self fmt); reflexivity.
Qed.

Lemma format_errors_witness :
  (exists e, HebrewFormat.__format__ (U := Reference.calendar) (R := Reference.decimal)
               (mkCalendarDate 5781 9 25 None) "%d-%m-%q" = Raise e)
  /\ HebrewFormat.__format__ (U := Reference.calendar) (R := Reference.decimal)
       (mkCalendarDate 5781 9 25 None) ("%d-%m " ++ "%%" ++ "")%string
     = Return "25-09 %"%string.
Proof.
  split.
  - refine (proj2 (proj1 (proj1 (format_errors (U := Reference.calendar)
              (R := Reference.decimal) (mkCalendarDate 5781 9 25 None)
              "%d-%m-%q") 2459194.5%Q _ _ _ _)) _).
    + split; [reflexivity | intros v H; discriminate H].
    + vm_compute. reflexivity.
    + vm_compute. reflexivity.
    + left. reflexivity.
    + reflexivity.
  - apply (proj1 (proj2 (format_errors (U := Reference.calendar)
              (R := Reference.decimal) (mkCalendarDate 5781 9 25 None) ""))
             "%d-%m "%string "25-09 "%string).
    vm_compute. reflexivity.
Defined.

(** ** Outside the exact range: the same methods on doubles *)

Module Doubles.
Import PrimFloat FloatOps SpecFloat.

(** C9, counterexample.  [JulianDay(4503599627370495.5)] is a midnight
    value, and a Wednesday ([weekday()] is 4); [shabbos()] adds 3, the sum
    4503599627370498.5 is not a double and is stored as 4503599627370498.0,
    whose [weekday()] is 6: the result is not a Saturday. *)
Lemma shabbos_misses_saturday_beyond_exact_range :
  Binary64.__init__ 4503599627370495.5 = Return 4503599627370495.5%float
  /\ Binary64.weekday 4503599627370495.5 = Return 4
  /\ Binary64.shabbos 4503599627370495.5 = Return 4503599627370498%float
  /\ Binary64.shabbos_weekday 4503599627370495.5 = Return 6.
Proof.
  repeat split.
Qed.

(** From 2^52 on the doubles are whole numbers, and the constructor no
    longer stores a midnight value. *)
Lemma constructor_rounds_beyond_exact_range :
  Binary64.__init__ 9007199254740992 = Return 9007199254740992%float
  /\ Binary64.__init__ 4503599627370497 = Return 4503599627370496%float.
Proof.
  repeat split.
Qed.

(** [(JulianDay(0.5) + 2**52) - 2**52 == JulianDay(0.5)] is [False]: the
    sum is stored as 4503599627370495.5, one day short. *)
Lemma add_then_subtract_rounds_beyond_exact_range :
  Binary64.__init__ 0.5 = Return 0.5%float
  /\ Binary64.__add__ 0.5 4503599627370496 = Return 4503599627370495.5%float
  /\ Binary64.add_then_subtract 0.5 4503599627370496 = Return false.
Proof.
  repeat split.
Qed.

End Doubles.

(** * Further properties of the module *)

(** ** The [JulianDay] constructor *)

Lemma int_within_one (x : Q) :
  (inject_Z (Py.int x) - 1 < x)%Q /\ (x < inject_Z (Py.int x) + 1)%Q.
Proof.
  destruct x as [a b]. unfold Qlt, Py.int. simpl.
  pose proof (Z.quot_rem' a (Z.pos b)) as E.
  pose proof (Z.rem_bound_abs a (Z.pos b) ltac:(lia)) as R.
  rewrite !Z.mul_1_r. split; nia.
Qed.

(** X1.  Given a number below 2^52 in absolute value, where its float
    arithmetic is exact, the [JulianDay] constructor stores a midnight
    value [n.5] less than one day below and less than half a day above it,
    and building a [JulianDay] from a stored value changes nothing. *)
Theorem JulianDay_constructor_rounds (raw : Q) :
  (Qabs raw < 4503599627370496)%Q ->
  half_integer (JulianDay.normalize raw)
  /\ (raw - 1 < JulianDay.normalize raw)%Q
  /\ (JulianDay.normalize raw < raw + 0.5)%Q
  /\ JulianDay.normalize (JulianDay.normalize raw) == JulianDay.normalize raw.
Proof.
  intros _. split; [apply normalize_half_integer|].
  split; [|split]; [| |apply normalize_fixed, normalize_half_integer].
  - destruct (int_within_one raw) as [H1 H2]. unfold JulianDay.normalize.
    destruct (Py.lt (raw - inject_Z (Py.int raw)) 0.5) eqn:L.
    + apply lt_spec in L. lra.
    + lra.
  - destruct (int_within_one raw) as [H1 H2]. unfold JulianDay.normalize.
    destruct (Py.lt (raw - inject_Z (Py.int raw)) 0.5) eqn:L.
    + lra.
    + apply lt_false in L. lra.
Qed.

Lemma JulianDay_constructor_rounds_witness :
  half_integer (JulianDay.normalize 2459194.7)
  /\ (2459194.7 - 1 < JulianDay.normalize 2459194.7)%Q
  /\ (JulianDay.normalize 2459194.7 < 2459194.7 + 0.5)%Q
  /\ JulianDay.normalize (JulianDay.normalize 2459194.7)
     == JulianDay.normalize 2459194.7.
Proof.
  apply (JulianDay_constructor_rounds 2459194.7). reflexivity.
Defined.

(** ** The Gregorian calendar of the common era *)

Lemma month_adjacent_ce (y m : Z) :
  1 <= y -> 1 <= m <= 12 ->
  day_number y (m + 1) 1 = day_number y m 1 + GregorianDate._monthlength y m.
Proof.
  intros Hy Hm.
  set (c := (y - 1) / 400). set (y0 := (y - 1) mod 400 + 1).
  assert (Ey : y = y0 + 400 * c) by (subst c y0; zdiv).
  assert (Hy0 : 1 <= y0 <= 400) by (subst y0; zdiv).
  assert (Hc : 0 <= c) by (subst c; zdiv).
  rewrite Ey, monthlength_period, !day_number_period by lia.
  rewrite month_adjacent by lia. lia.
Qed.

(** Every day from 1 January of the year 1 on is the day number of a valid
    date of the common era. *)
Lemma common_era_cover (k : Z) :
  day_number 1 1 1 <= k ->
  exists y m d, 1 <= y /\ 1 <= m <= 12
                /\ 1 <= d <= GregorianDate._monthlength y m
                /\ k = day_number y m d.
Proof.
  intros Hk. set (base := day_number 1 1 1) in *.
  set (c := (k - base) / 146097). set (k0 := (k - base) mod 146097).
  assert (Ek : k = (base + k0) + 146097 * c) by (subst c k0; zdiv).
  assert (Hk0 : 0 <= k0 < 146097) by (subst k0; zdiv).
  assert (Hc : 0 <= c) by (subst c; zdiv).
  destruct (cycle_cover 400 (base + k0)) as (y & m & d & Hy & Hm & Hd & E).
  { lia. }
  { change (1 + Z.of_nat 400) with (1 + 400 * 1).
    rewrite day_number_period by lia. subst base. lia. }
  exists (y + 400 * c), m, d.
  rewrite monthlength_period, day_number_period by lia.
  repeat split; try lia.
Qed.

(** X2.  [to_greg] never raises: for every stored day it returns a
    Gregorian date that passes the validation of the constructor, carries
    the day in its cache, and never has the year 0. *)
Theorem to_greg_never_raises (x : Q) :
  exists y m d,
    JulianDay.to_greg x = Return (AGregorianDate (mkCalendarDate y m d (Some x)))
    /\ y <> 0 /\ 1 <= m <= 12 /\ 1 <= d <= GregorianDate._monthlength y m.
Proof.
  unfold JulianDay.to_greg. rewrite to_greg_fields_fliegel.
  pose proof (fliegel_valid (Py.int (x + 0.5))) as H.
  destruct (fliegel (Py.int (x + 0.5))) as [[y m] d]. unfold no_year_zero in *.
  destruct H as [Hm Hd].
  exists (if y <? 1 then y - 1 else y), m, d.
  split; [apply GregorianDate_init_valid; assumption|].
  split; [destruct (Z.ltb_spec y 1); lia|]. split; assumption.
Qed.

(** X3.  From 1 January of the year 1 on (day 1721425.5), and within the
    range in which the float arithmetic is exact, the date [to_greg]
    returns has a year of the common era, and its [jd], computed afresh
    from the fields, is the day it was converted from: cache and fields
    agree. *)
Theorem to_greg_then_jd (x : Q) :
  half_integer x -> (1721425.5 <= x)%Q -> in_exact_range x ->
  exists y m d,
    JulianDay.to_greg x = Return (AGregorianDate (mkCalendarDate y m d (Some x)))
    /\ 1 <= y
    /\ GregorianDate.jd (mkCalendarDate y m d None) == x.
Proof.
  intros [n Hn] Hx _.
  assert (Hge : 1721425 <= n).
  { destruct (Z_lt_le_dec n 1721425) as [Hlt|Hge]; [|exact Hge].
    exfalso. assert (Hq : (inject_Z n <= inject_Z 1721424)%Q)
      by (rewrite <- Zle_Qle; lia).
    rewrite Hn in Hx. change (inject_Z 1721424) with 1721424%Q in Hq. lra. }
  destruct (common_era_cover (n + 1 - 1720995)) as (y & m & d & Hy & Hm & Hd & E).
  { change (day_number 1 1 1) with 431. lia. }
  exists y, m, d.
  unfold JulianDay.to_greg. rewrite to_greg_fields_fliegel.
  rewrite (int_of_half_integer x n Hn).
  replace (n + 1) with (day_number y m d + 1720995) by lia.
  rewrite fliegel_day_number by assumption.
  unfold no_year_zero. zcmp.
  split; [apply GregorianDate_init_valid; assumption|]. split; [exact Hy|].
  rewrite gregorian_jd_half, Hn. replace (day_number y m d + 1720994) with n by lia.
  reflexivity.
Qed.

Lemma to_greg_then_jd_witness :
  exists y m d,
    JulianDay.to_greg 2459194.5
    = Return (AGregorianDate (mkCalendarDate y m d (Some 2459194.5%Q)))
    /\ 1 <= y
    /\ GregorianDate.jd (mkCalendarDate y m d None) == 2459194.5.
Proof.
  apply (to_greg_then_jd 2459194.5).
  - exists 2459194. reflexivity.
  - unfold Qle. simpl. lia.
  - vm_compute. discriminate.
Defined.

(** The first of a month, then the month lengths, in order. *)
Lemma day_number_months (y : Z) (n : nat) (m : Z) :
  1 <= y -> 1 <= m -> m + Z.of_nat n <= 13 ->
  day_number y m 1 + 28 * Z.of_nat n <= day_number y (m + Z.of_nat n) 1.
Proof.
  intros Hy Hm. induction n as [|n IH]; intros Hn.
  - cbn [Z.of_nat]. rewrite !Z.add_0_r. lia.
  - replace (m + Z.of_nat (S n)) with (m + Z.of_nat n + 1) by lia.
    rewrite month_adjacent_ce by lia.
    pose proof (monthlength_bounds y (m + Z.of_nat n)). lia.
Qed.

Lemma day_number_years (y : Z) (n : nat) :
  1 <= y ->
  day_number y 1 1 + 336 * Z.of_nat n <= day_number (y + Z.of_nat n) 1 1.
Proof.
  intros Hy. induction n as [|n IH].
  - cbn [Z.of_nat]. rewrite !Z.add_0_r. lia.
  - replace (y + Z.of_nat (S n)) with (y + Z.of_nat n + 1) by lia.
    rewrite day_number_month_13 by lia.
    pose proof (day_number_months (y + Z.of_nat n) 12 1 ltac:(lia) ltac:(lia) ltac:(lia)).
    change (1 + Z.of_nat 12) with 13 in *. lia.
Qed.

Lemma day_number_end_of_month (y m d : Z) :
  1 <= y -> 1 <= m <= 12 -> d <= GregorianDate._monthlength y m ->
  day_number y m d < day_number y (m + 1) 1.
Proof.
  intros Hy Hm Hd. rewrite month_adjacent_ce by lia.
  rewrite (day_number_linear y m d). lia.
Qed.

(** The day number grows with the date. *)
Lemma day_number_increasing (y m d y' m' d' : Z) :
  1 <= y -> 1 <= m <= 12 -> 1 <= d <= GregorianDate._monthlength y m ->
  1 <= m' <= 12 -> 1 <= d' ->
  tuple_lt (y, m, d) (y', m', d') ->
  day_number y m d < day_number y' m' d'.
Proof.
  intros Hy Hm Hd Hm' Hd' Hlt. unfold tuple_lt in Hlt.
  pose proof (day_number_end_of_month y m d Hy Hm ltac:(lia)) as Hend.
  pose proof (day_number_linear y' m' d') as Hlin'.
  destruct Hlt as [Hlt|[<- [Hlt|[<- Hlt]]]].
  - pose proof (day_number_months y (Z.to_nat (13 - (m + 1))) (m + 1)
                  ltac:(lia) ltac:(lia) ltac:(lia)) as H1.
    replace (m + 1 + Z.of_nat (Z.to_nat (13 - (m + 1)))) with 13 in H1 by lia.
    rewrite <- day_number_month_13 in H1 by lia.
    pose proof (day_number_years (y + 1) (Z.to_nat (y' - (y + 1))) ltac:(lia)) as H2.
    replace (y + 1 + Z.of_nat (Z.to_nat (y' - (y + 1)))) with y' in H2 by lia.
    pose proof (day_number_months y' (Z.to_nat (m' - 1)) 1
                  ltac:(lia) ltac:(lia) ltac:(lia)) as H3.
    replace (1 + Z.of_nat (Z.to_nat (m' - 1))) with m' in H3 by lia.
    lia.
  - pose proof (day_number_months y (Z.to_nat (m' - (m + 1))) (m + 1)
                  ltac:(lia) ltac:(lia) ltac:(lia)) as H1.
    replace (m + 1 + Z.of_nat (Z.to_nat (m' - (m + 1)))) with m' in H1 by lia.
    lia.
  - rewrite (day_number_linear y m d). lia.
Qed.

Lemma gregorian_jd_order (a b : Z) :
  ((inject_Z a + 1720994.5 < inject_Z b + 1720994.5)%Q <-> a < b)
  /\ (inject_Z a + 1720994.5 == inject_Z b + 1720994.5 <-> a = b).
Proof.
  split; split; intros H.
  - rewrite Zlt_Qlt. lra.
  - rewrite Zlt_Qlt in H. lra.
  - apply inject_Z_injective. lra.
  - subst. reflexivity.
Qed.

(** X4.  Two Gregorian dates of the common era, with Julian days in the
    range in which the float arithmetic is exact, compare as their
    [(year, month, day)] tuples do: they are [==] exactly when the fields
    are the same, and [<] exactly when the tuple is smaller. *)
Theorem gregorian_order_is_calendar_order {U : utils}
        (y m d y' m' d' : Z) (a b : date) :
  1 <= y -> 1 <= y' ->
  GregorianDate.__init__ y m d None = Return a ->
  GregorianDate.__init__ y' m' d' None = Return b ->
  in_exact_range (GregorianDate.jd (mkCalendarDate y m d None)) ->
  in_exact_range (GregorianDate.jd (mkCalendarDate y' m' d' None)) ->
  (BaseDate.equals a (Date b) = Return true <-> (y, m, d) = (y', m', d'))
  /\ (BaseDate.__lt__ a (Date b) = Return true <-> tuple_lt (y, m, d) (y', m', d')).
Proof.
  intros Hy Hy' Ha Hb _ _.
  apply GregorianDate_init_inv in Ha. destruct Ha as (Hm & Hd & ->).
  apply GregorianDate_init_inv in Hb. destruct Hb as (Hm' & Hd' & ->).
  unfold BaseDate.equals, BaseDate.__eq__, BaseDate.__lt__, BaseDate.ordering,
    BaseDate.operand_jd, BaseDate.jd, BaseDate.jd_eq, BaseDate.jd_cmp.
  rewrite !jd_day_number by reflexivity. simpl (year _). simpl (month _). simpl (day _).
  destruct (gregorian_jd_order (day_number y m d) (day_number y' m' d')) as [Olt Oeq].
  assert (Mono : tuple_lt (y, m, d) (y', m', d') ->
                 day_number y m d < day_number y' m' d')
    by (apply day_number_increasing; lia).
  assert (Mono' : tuple_lt (y', m', d') (y, m, d) ->
                  day_number y' m' d' < day_number y m d)
    by (apply day_number_increasing; lia).
  assert (Tri : tuple_lt (y, m, d) (y', m', d') \/ (y, m, d) = (y', m', d')
                \/ tuple_lt (y', m', d') (y, m, d)).
  { unfold tuple_lt.
    destruct (Z.lt_total y y') as [H|[H|H]]; [lia| |lia].
    destruct (Z.lt_total m m') as [H1|[H1|H1]]; [lia| |lia].
    destruct (Z.lt_total d d') as [H2|[H2|H2]]; [lia| |lia].
    right. left. subst. reflexivity. }
  split; split.
  - intros [= H]. apply eq_spec, Oeq in H.
    destruct Tri as [T|[T|T]]; [apply Mono in T; lia | exact T | apply Mono' in T; lia].
  - intros [= -> -> ->]. f_equal. apply eq_spec. reflexivity.
  - intros [= H]. apply lt_spec, Olt in H.
    destruct Tri as [T|[T|T]]; [exact T | | apply Mono' in T; lia].
    injection T as -> -> ->. lia.
  - intros T. f_equal. apply lt_spec, Olt, Mono, T.
Qed.

Lemma gregorian_order_is_calendar_order_witness :
  BaseDate.__lt__ (U := Reference.calendar)
    (AGregorianDate (mkCalendarDate 2020 2 29 None))
    (Date (AGregorianDate (mkCalendarDate 2020 3 1 None))) = Return true
  <-> tuple_lt (2020, 2, 29) (2020, 3, 1).
Proof.
  apply (proj2 (gregorian_order_is_calendar_order (U := Reference.calendar)
                  2020 2 29 2020 3 1 _ _ ltac:(lia) ltac:(lia) eq_refl eq_refl
                  ltac:(vm_compute; discriminate)
                  ltac:(vm_compute; discriminate))).
Defined.

(** *** Days that follow one another *)

Lemma next_day_number (y m d : Z) :
  1 <= y -> 1 <= m <= 12 -> 1 <= d <= GregorianDate._monthlength y m ->
  let '(y', m', d') := next_day (y, m, d) in
  1 <= y' /\ 1 <= m' <= 12 /\ 1 <= d' <= GregorianDate._monthlength y' m'
  /\ day_number y' m' d' = day_number y m d + 1.
Proof.
  intros Hy Hm Hd. unfold next_day.
  pose proof (day_number_linear y m d) as Hlin.
  destruct (Z.ltb_spec d (GregorianDate._monthlength y m)) as [Hlt|Hge].
  - rewrite (day_number_linear y m (d + 1)). lia.
  - assert (Ed : d = GregorianDate._monthlength y m) by lia.
    pose proof (month_adjacent_ce y m Hy Hm) as Hadj.
    destruct (Z.ltb_spec m 12) as [Hm12|Hm12].
    + pose proof (monthlength_bounds y (m + 1)). lia.
    + assert (m = 12) by lia. subst m.
      pose proof (monthlength_bounds (y + 1) 1).
      rewrite day_number_month_13 by lia. change (12 + 1) with 13 in Hadj. lia.
Qed.

Lemma iter_next_day_number (n : nat) (y m d : Z) :
  1 <= y -> 1 <= m <= 12 -> 1 <= d <= GregorianDate._monthlength y m ->
  let '(y', m', d') := Nat.iter n next_day (y, m, d) in
  1 <= y' /\ 1 <= m' <= 12 /\ 1 <= d' <= GregorianDate._monthlength y' m'
  /\ day_number y' m' d' = day_number y m d + Z.of_nat n.
Proof.
  intros Hy Hm Hd. induction n as [|n IH].
  - simpl. lia.
  - rewrite Nat.iter_succ. destruct (Nat.iter n next_day (y, m, d)) as [[y1 m1] d1].
    cbv beta iota in IH. destruct IH as (Hy1 & Hm1 & Hd1 & E).
    pose proof (next_day_number y1 m1 d1 Hy1 Hm1 Hd1) as H.
    destruct (next_day (y1, m1, d1)) as [[y2 m2] d2]. cbv beta iota in H |- *. lia.
Qed.

(** X5.  Adding [n >= 0] days to a Gregorian date of the common era steps
    through the calendar, as long as the Julian day reached is in the range
    in which the float arithmetic is exact: [date + n] is the date reached
    by taking the following day [n] times (the next day of the month, else
    the first of the next month, else 1 January of the next year). *)
Theorem add_days_steps_through_calendar {U : utils} (fuel n : nat)
        (y m d : Z) (a : date) :
  1 <= y ->
  GregorianDate.__init__ y m d None = Return a ->
  in_exact_range (GregorianDate.jd (mkCalendarDate y m d None)
                  + inject_Z (Z.of_nat n)) ->
  exists c,
    BaseDate.plus fuel a (Num (Z.of_nat n)) = Return (AGregorianDate c)
    /\ tuple c = Nat.iter n next_day (y, m, d).
Proof.
  intros Hy Ha _. apply GregorianDate_init_inv in Ha.
  destruct Ha as (Hm & Hd & ->).
  pose proof (iter_next_day_number n y m d Hy Hm Hd) as H.
  destruct (Nat.iter n next_day (y, m, d)) as [[y' m'] d'].
  cbv beta iota in H. destruct H as (Hy' & Hm' & Hd' & E).
  unfold BaseDate.plus, BaseDate.__add__, BaseDate.jd, BaseDate.shifted,
    JulianDay._to_x.
  set (x := (GregorianDate.jd (mkCalendarDate y m d None) + inject_Z (Z.of_nat n))%Q).
  assert (Hx : x == inject_Z (day_number y' m' d' + 1720994) + 0.5).
  { subst x. rewrite gregorian_jd_half, E. qlin. }
  exists (mkCalendarDate y' m' d' (Some (JulianDay.normalize x))).
  split; [|reflexivity].
  unfold JulianDay.to_greg. rewrite to_greg_fields_fliegel.
  rewrite (int_of_half_integer (JulianDay.normalize x) (day_number y' m' d' + 1720994))
    by (rewrite (normalize_half x _ Hx); exact Hx).
  replace (day_number y' m' d' + 1720994 + 1) with (day_number y' m' d' + 1720995)
    by lia.
  rewrite fliegel_day_number by assumption.
  unfold no_year_zero. zcmp.
  rewrite GregorianDate_init_valid by assumption. reflexivity.
Qed.

Lemma add_days_steps_through_calendar_witness :
  exists c,
    BaseDate.plus (U := Reference.calendar) 0
      (AGregorianDate (mkCalendarDate 2020 12 31 None)) (Num (Z.of_nat 1))
    = Return (AGregorianDate c)
    /\ tuple c = Nat.iter 1 next_day (2020, 12, 31).
Proof.
  apply (add_days_steps_through_calendar (U := Reference.calendar) 0 1 2020 12 31).
  - lia.
  - reflexivity.
  - vm_compute. discriminate.
Defined.

(** *** Leap years and the length of the year *)

Lemma monthlength_values (y : Z) :
  GregorianDate._monthlength y 1 = 31
  /\ GregorianDate._monthlength y 2 = (if GregorianDate._is_leap y then 29 else 28)
  /\ GregorianDate._monthlength y 3 = 31 /\ GregorianDate._monthlength y 4 = 30
  /\ GregorianDate._monthlength y 5 = 31 /\ GregorianDate._monthlength y 6 = 30
  /\ GregorianDate._monthlength y 7 = 31 /\ GregorianDate._monthlength y 8 = 31
  /\ GregorianDate._monthlength y 9 = 30 /\ GregorianDate._monthlength y 10 = 31
  /\ GregorianDate._monthlength y 11 = 30 /\ GregorianDate._monthlength y 12 = 31.
Proof. repeat split. Qed.

(** X6.  In the common era, and within the range in which the float
    arithmetic is exact, the year has as many days as its twelve months:
    1 January of the next year is 366 days after 1 January of a leap year
    and 365 days after 1 January of any other year. *)
Theorem gregorian_year_length {U : utils} (fuel : nat) (y : Z) :
  1 <= y ->
  in_exact_range (GregorianDate.jd (mkCalendarDate (y + 1) 1 1 None)) ->
  exists v,
    BaseDate.minus fuel (AGregorianDate (mkCalendarDate (y + 1) 1 1 None))
      (Date (AGregorianDate (mkCalendarDate y 1 1 None)))
    = Return (VFloat v)
    /\ v == (if GregorianDate._is_leap y then 366 else 365).
Proof.
  intros Hy _. eexists. split; [reflexivity|].
  cbn [BaseDate.jd]. rewrite !jd_day_number by reflexivity.
  cbn [year month day].
  assert (E : day_number (y + 1) 1 1
              = day_number y 1 1 + (if GregorianDate._is_leap y then 366 else 365)).
  { rewrite day_number_month_13 by lia.
    pose proof (monthlength_values y) as
      (L1 & L2 & L3 & L4 & L5 & L6 & L7 & L8 & L9 & L10 & L11 & L12).
    pose proof (month_adjacent_ce y 1 Hy ltac:(lia)) as A1.
    pose proof (month_adjacent_ce y 2 Hy ltac:(lia)) as A2.
    pose proof (month_adjacent_ce y 3 Hy ltac:(lia)) as A3.
    pose proof (month_adjacent_ce y 4 Hy ltac:(lia)) as A4.
    pose proof (month_adjacent_ce y 5 Hy ltac:(lia)) as A5.
    pose proof (month_adjacent_ce y 6 Hy ltac:(lia)) as A6.
    pose proof (month_adjacent_ce y 7 Hy ltac:(lia)) as A7.
    pose proof (month_adjacent_ce y 8 Hy ltac:(lia)) as A8.
    pose proof (month_adjacent_ce y 9 Hy ltac:(lia)) as A9.
    pose proof (month_adjacent_ce y 10 Hy ltac:(lia)) as A10.
    pose proof (month_adjacent_ce y 11 Hy ltac:(lia)) as A11.
    pose proof (month_adjacent_ce y 12 Hy ltac:(lia)) as A12.
    cbn [Z.add Pos.add Pos.succ] in *.
    rewrite L1 in A1. rewrite L2 in A2. rewrite L3 in A3. rewrite L4 in A4.
    rewrite L5 in A5. rewrite L6 in A6. rewrite L7 in A7. rewrite L8 in A8.
    rewrite L9 in A9. rewrite L10 in A10. rewrite L11 in A11. rewrite L12 in A12.
    destruct (GregorianDate._is_leap y); lia. }
  rewrite E.
  set (D := day_number y 1 1).
  destruct (GregorianDate._is_leap y).
  - rewrite Qabs_pos by qlin. qlin.
  - rewrite Qabs_pos by qlin. qlin.
Qed.

Lemma gregorian_year_length_witness :
  exists v,
    BaseDate.minus (U := Reference.calendar) 0
      (AGregorianDate (mkCalendarDate (2020 + 1) 1 1 None))
      (Date (AGregorianDate (mkCalendarDate 2020 1 1 None)))
    = Return (VFloat v)
    /\ v == (if GregorianDate._is_leap 2020 then 366 else 365).
Proof.
  apply (gregorian_year_length (U := Reference.calendar) 0 2020).
  - lia.
  - vm_compute. discriminate.
Defined.

(** *** Weekdays and distances along the day count *)

Section DayCount.
Context {U : utils}.

Lemma lands_not_hebrew (fuel : nat) (d : date) (x : Q) :
  is_hebrew d = false -> lands fuel d x.
Proof.
  intros K. destruct d; try discriminate K;
    first [apply lands_julian | apply lands_gregorian].
Qed.

Lemma plus_of_landing (fuel : nat) (d : date) (n : Z) (x : Q) :
  BaseDate.jd d = Some x -> half_integer x ->
  lands fuel d (x + inject_Z n) ->
  exists d1 x1, BaseDate.plus fuel d (Num n) = Return d1
                /\ BaseDate.jd d1 = Some x1 /\ x1 == x + inject_Z n
                /\ same_kind d d1 = true.
Proof.
  intros Hjd Hhalf (d1 & S1 & J1 & K1).
  exists d1, (JulianDay.normalize (x + inject_Z n)).
  split; [|split; [exact J1|split; [|exact K1]]].
  - unfold BaseDate.plus, BaseDate.__add__. rewrite Hjd, S1. reflexivity.
  - apply normalize_fixed. apply half_integer_shift. exact Hhalf.
Qed.

Lemma same_kind_not_hebrew (a b : date) :
  same_kind a b = true -> is_hebrew a = false -> is_hebrew b = false.
Proof. destruct a, b; simpl; intros H K; first [discriminate | reflexivity]. Qed.

Lemma weekday_after_of_landing (fuel : nat) (d : date) (n k : Z) (x : Q) :
  BaseDate.jd d = Some x -> x == inject_Z k + 0.5 ->
  lands fuel d (x + inject_Z n) ->
  weekday_after fuel d n = Return ((k + n + 2) mod 7 + 1).
Proof.
  intros Hjd Hx Hl.
  destruct (plus_of_landing fuel d n x Hjd (ex_intro _ k Hx) Hl)
    as (d1 & x1 & P & J1 & E1 & _).
  unfold weekday_after. rewrite P. cbn [bind].
  apply (weekday_value d1 x1 (k + n) J1). rewrite E1, Hx. qlin.
Qed.

End DayCount.

(** X7.  The weekday moves with the day count, as long as the Julian days
    stay in the range in which the float arithmetic is exact: when
    [date.weekday()] is [w], [(date + n).weekday()] is
    [(w - 1 + n) mod 7 + 1], so a whole number of weeks leaves the weekday
    unchanged.  For a Hebrew date the sum has to be a day [to_heb] accepts,
    and the calendar collaborator has to meet its contract on the years in
    scope. *)
Theorem weekday_moves_with_day_count {U : utils} (Ymax : Z) (fuel : nat)
        (d : date) (n : Z) (x : Q) (w : Z) :
  constructed d -> BaseDate.jd d = Some x -> BaseDate.weekday d = Return w ->
  in_exact_range x -> in_exact_range (x + inject_Z n) ->
  (is_hebrew d = false ->
   weekday_after fuel d n = Return ((w - 1 + n) mod 7 + 1)
   /\ (in_exact_range (x + inject_Z (7 * n)) ->
       weekday_after fuel d (7 * n) = Return w))
  /\ (forall c, d = AHebrewDate c ->
        contract Ymax -> (Z.to_nat Ymax <= fuel)%nat ->
        in_scope Ymax (x + inject_Z n) -> (347997 < x + inject_Z n)%Q ->
        weekday_after fuel d n = Return ((w - 1 + n) mod 7 + 1)).
Proof.
  intros Hd Hjd Hw _ _.
  destruct (constructed_jd_defined d Hd) as (x' & Hx' & Hhalf).
  rewrite Hjd in Hx'. injection Hx' as <-.
  destruct Hhalf as [k Hk].
  rewrite (weekday_value d x k Hjd Hk) in Hw. injection Hw as <-.
  split.
  - intros K. split.
    + rewrite (weekday_after_of_landing fuel d n k x Hjd Hk)
        by (apply lands_not_hebrew; exact K).
      f_equal. zdiv.
    + intros _. rewrite (weekday_after_of_landing fuel d (7 * n) k x Hjd Hk)
        by (apply lands_not_hebrew; exact K).
      f_equal. zdiv.
  - intros c -> C Hfuel Hscope Hn.
    rewrite (weekday_after_of_landing fuel _ n k x Hjd Hk).
    + f_equal. zdiv.
    + apply (lands_hebrew Ymax); try assumption.
      apply half_integer_shift. exists k. exact Hk.
Qed.

Lemma weekday_moves_with_day_count_witness :
  weekday_after (U := Reference.calendar) 0
    (AGregorianDate (mkCalendarDate 2020 12 12 None)) 1
  = Return ((7 - 1 + 1) mod 7 + 1)
  /\ weekday_after (U := Reference.calendar) (Z.to_nat 6020)
       (AHebrewDate (mkCalendarDate 5781 9 25 None)) 1
     = Return ((6 - 1 + 1) mod 7 + 1).
Proof.
  split.
  - refine (proj1 (proj1 (weekday_moves_with_day_count (U := Reference.calendar)
              6020 0 (AGregorianDate (mkCalendarDate 2020 12 12 None))
              1 2459195.5 7 _ _ _ _ _) eq_refl)).
    + split; [reflexivity | intros v H; discriminate H].
    + reflexivity.
    + reflexivity.
    + vm_compute. discriminate.
    + vm_compute. discriminate.
  - refine (proj2 (weekday_moves_with_day_count (U := Reference.calendar)
              6020 (Z.to_nat 6020) (AHebrewDate (mkCalendarDate 5781 9 25 None))
              1 2459194.5 6 _ _ _ _ _) _ eq_refl reference_contract _ _ _).
    + split; [reflexivity | intros v H; discriminate H].
    + vm_compute. reflexivity.
    + vm_compute. reflexivity.
    + vm_compute. discriminate.
    + vm_compute. discriminate.
    + lia.
    + vm_compute. reflexivity.
    + vm_compute. reflexivity.
Defined.

(** X8.  [isoweekday()] of a date the module builds, with a Julian day in
    the range in which the float arithmetic is exact, is
    [int(jd + 0.5) mod 7 + 1]: a number of 1..7 with Monday as 1 and Sunday
    as 7, one day behind [weekday()], which counts Sunday as 1. *)
Theorem isoweekday_counts_from_monday {U : utils} (d : date) (x : Q) :
  constructed d -> BaseDate.jd d = Some x -> in_exact_range x ->
  exists w i,
    BaseDate.weekday d = Return w /\ BaseDate.isoweekday d = Return i
    /\ 1 <= i <= 7 /\ i = Py.int (x + 0.5) mod 7 + 1 /\ w = i mod 7 + 1.
Proof.
  intros Hd Hjd _.
  destruct (constructed_jd_defined d Hd) as (x' & Hx' & Hhalf).
  rewrite Hjd in Hx'. injection Hx' as <-.
  destruct Hhalf as [k Hk].
  pose proof (weekday_value d x k Hjd Hk) as Hw.
  exists ((k + 2) mod 7 + 1), ((k + 1) mod 7 + 1).
  split; [exact Hw|]. rewrite (int_of_half_integer x k Hk).
  split; [|split; [zdiv|split; [reflexivity|zdiv]]].
  unfold BaseDate.isoweekday. rewrite Hw. cbn [bind].
  destruct (Z.eqb_spec ((k + 2) mod 7 + 1) 1) as [E|E]; f_equal; zdiv.
Qed.

Lemma isoweekday_counts_from_monday_witness :
  exists w i,
    BaseDate.weekday (U := Reference.calendar)
      (AGregorianDate (mkCalendarDate 2020 12 13 None)) = Return w
    /\ BaseDate.isoweekday (U := Reference.calendar)
         (AGregorianDate (mkCalendarDate 2020 12 13 None)) = Return i
    /\ 1 <= i <= 7 /\ i = Py.int (2459196.5 + 0.5) mod 7 + 1 /\ w = i mod 7 + 1.
Proof.
  apply (isoweekday_counts_from_monday (U := Reference.calendar)
           (AGregorianDate (mkCalendarDate 2020 12 13 None)) 2459196.5).
  - split; [reflexivity | intros v H; discriminate H].
  - reflexivity.
  - vm_compute. discriminate.
Defined.

(** X9.  For a Julian day or a Gregorian date and an integer [n], with the
    Julian days of [date] and [date + n] in the range in which the float
    arithmetic is exact, [(date + n) - date] is [abs(n)]: adding moves the
    date by exactly [n] days. *)
Theorem distance_after_adding {U : utils} (fuel : nat) (d : date) (n : Z)
        (x : Q) :
  constructed d -> is_hebrew d = false ->
  BaseDate.jd d = Some x ->
  in_exact_range x -> in_exact_range (x + inject_Z n) ->
  exists v, distance_after fuel d n = Return (VFloat v)
            /\ v == inject_Z (Z.abs n).
Proof.
  intros Hd K Hjd _ _.
  destruct (constructed_jd d Hd K) as (x' & Hx' & Hhalf).
  rewrite Hjd in Hx'. injection Hx' as <-.
  destruct (plus_of_landing fuel d n x Hjd Hhalf (lands_not_hebrew fuel d _ K))
    as (d1 & x1 & P & J1 & E1 & _).
  exists (Qabs (x1 - x)%Q). split.
  - unfold distance_after. rewrite P. cbn [bind].
    unfold BaseDate.minus, BaseDate.__sub__. rewrite J1, Hjd. reflexivity.
  - rewrite E1. setoid_replace (x + inject_Z n - x)%Q with (inject_Z n) by ring.
    unfold Qabs, inject_Z. reflexivity.
Qed.

Lemma distance_after_adding_witness :
  exists v, distance_after (U := Reference.calendar) 0
              (AGregorianDate (mkCalendarDate 2020 12 11 None)) (-30)
            = Return (VFloat v)
            /\ v == inject_Z (Z.abs (-30)).
Proof.
  apply (distance_after_adding (U := Reference.calendar) 0
           (AGregorianDate (mkCalendarDate 2020 12 11 None)) (-30) 2459194.5).
  - split; [reflexivity | intros v H; discriminate H].
  - reflexivity.
  - reflexivity.
  - vm_compute. discriminate.
  - vm_compute. discriminate.
Defined.

(** X10.  For a Julian day or a Gregorian date and integers [n] and [m],
    with the Julian days of [date], [date + n] and [date + n + m] in the
    range in which the float arithmetic is exact,
    [(date + n) + m == date + (n + m)]. *)
Theorem adding_twice_adds_the_sum {U : utils} (fuel : nat) (d : date)
        (n m : Z) (x : Q) :
  constructed d -> is_hebrew d = false ->
  BaseDate.jd d = Some x ->
  in_exact_range x -> in_exact_range (x + inject_Z n) ->
  in_exact_range (x + inject_Z (n + m)) ->
  add_twice_is_add_sum fuel d n m = Return true.
Proof.
  intros Hd K Hjd _ _ _.
  destruct (constructed_jd d Hd K) as (x' & Hx' & Hhalf).
  rewrite Hjd in Hx'. injection Hx' as <-.
  destruct (plus_of_landing fuel d n x Hjd Hhalf (lands_not_hebrew fuel d _ K))
    as (d1 & x1 & P1 & J1 & E1 & K1).
  pose proof (same_kind_not_hebrew d d1 K1 K) as Kd1.
  assert (H1 : half_integer x1).
  { destruct Hhalf as [k Hk]. exists (k + n). rewrite E1, Hk. qlin. }
  destruct (plus_of_landing fuel d1 m x1 J1 H1 (lands_not_hebrew fuel d1 _ Kd1))
    as (d2 & x2 & P2 & J2 & E2 & _).
  destruct (plus_of_landing fuel d (n + m) x Hjd Hhalf
              (lands_not_hebrew fuel d _ K))
    as (d3 & x3 & P3 & J3 & E3 & _).
  unfold add_twice_is_add_sum. rewrite P1. cbn [bind]. rewrite P2. cbn [bind].
  rewrite P3. cbn [bind].
  unfold BaseDate.equals, BaseDate.__eq__, BaseDate.operand_jd.
  rewrite J2, J3. cbn [BaseDate.jd_eq].
  replace (Py.eq x2 x3) with true; [reflexivity|].
  symmetry. apply eq_spec. rewrite E2, E3, E1. qlin.
Qed.

Lemma adding_twice_adds_the_sum_witness :
  add_twice_is_add_sum (U := Reference.calendar) 0
    (AGregorianDate (mkCalendarDate 2020 12 11 None)) 25 (-400) = Return true.
Proof.
  apply (adding_twice_adds_the_sum (U := Reference.calendar) 0
           (AGregorianDate (mkCalendarDate 2020 12 11 None)) 25 (-400)
           2459194.5).
  - split; [reflexivity | intros v H; discriminate H].
  - reflexivity.
  - reflexivity.
  - vm_compute. discriminate.
  - vm_compute. discriminate.
  - vm_compute. discriminate.
Defined.

(** *** Conversions to and from [datetime.date] *)

Lemma day_number_common_era (y m d : Z) :
  1 <= y -> 1 <= m <= 12 -> 1 <= d ->
  day_number 1 1 1 <= day_number y m d.
Proof.
  intros Hy Hm Hd.
  pose proof (day_number_years 1 (Z.to_nat (y - 1)) ltac:(lia)) as H1.
  pose proof (day_number_months y (Z.to_nat (m - 1)) 1 Hy ltac:(lia)) as H2.
  rewrite Z2Nat.id in H1, H2 by lia.
  replace (1 + (y - 1)) with y in H1 by lia.
  replace (1 + (m - 1)) with m in H2 by lia.
  rewrite (day_number_linear y m d). lia.
Qed.

(** A Gregorian date of the common era, turned into a Julian day and back. *)
Lemma to_greg_of_gregorian (y m d : Z) (x : Q) :
  1 <= y -> 1 <= m <= 12 -> 1 <= d <= GregorianDate._monthlength y m ->
  x == GregorianDate.jd (mkCalendarDate y m d None) ->
  JulianDay.to_greg x = Return (AGregorianDate (mkCalendarDate y m d (Some x))).
Proof.
  intros Hy Hm Hd Hx. unfold JulianDay.to_greg. rewrite to_greg_fields_fliegel.
  rewrite (int_of_half_integer x (day_number y m d + 1720994))
    by (rewrite Hx; apply gregorian_jd_half).
  replace (day_number y m d + 1720994 + 1) with (day_number y m d + 1720995) by lia.
  rewrite fliegel_day_number by assumption.
  unfold no_year_zero. zcmp.
  apply GregorianDate_init_valid; assumption.
Qed.

(** The same through a cached [jd]: [to_greg] of [JulianDay(x)]. *)
Lemma to_greg_of_cached (y m d : Z) (x : Q) :
  1 <= y -> 1 <= m <= 12 -> 1 <= d <= GregorianDate._monthlength y m ->
  x == GregorianDate.jd (mkCalendarDate y m d None) ->
  JulianDay.to_greg (JulianDay.normalize x)
  = Return (AGregorianDate (mkCalendarDate y m d (Some (JulianDay.normalize x)))).
Proof.
  intros Hy Hm Hd Hx. apply to_greg_of_gregorian; try assumption.
  transitivity x; [|exact Hx].
  apply (normalize_half x (day_number y m d + 1720994)).
  rewrite Hx. apply gregorian_jd_half.
Qed.

Lemma normalize_gregorian_jd (y m d : Z) :
  JulianDay.normalize (GregorianDate.jd (mkCalendarDate y m d None))
  == GregorianDate.jd (mkCalendarDate y m d None).
Proof. apply (normalize_half _ _ (gregorian_jd_half y m d)). Qed.

Lemma datetime_is_leap (y : Z) :
  1 <= y -> datetime._is_leap y = GregorianDate._is_leap y.
Proof.
  intros Hy. unfold datetime._is_leap, GregorianDate._is_leap.
  replace (y <? 0) with false by (symmetry; apply Z.ltb_ge; lia).
  destruct (y mod 4 =? 0), (y mod 100 =? 0), (y mod 400 =? 0); reflexivity.
Qed.

Lemma days_in_month_monthlength (y m : Z) :
  1 <= y -> 1 <= m <= 12 ->
  datetime._days_in_month y m = GregorianDate._monthlength y m.
Proof.
  intros Hy Hm. unfold datetime._days_in_month.
  rewrite (datetime_is_leap y Hy).
  pose proof (monthlength_values y) as
    (L1 & L2 & L3 & L4 & L5 & L6 & L7 & L8 & L9 & L10 & L11 & L12).
  assert (Hc : m = 1 \/ m = 2 \/ m = 3 \/ m = 4 \/ m = 5 \/ m = 6 \/ m = 7
               \/ m = 8 \/ m = 9 \/ m = 10 \/ m = 11 \/ m = 12) by lia.
  repeat (destruct Hc as [Hc|Hc];
          [subst m; first [rewrite L1 | rewrite L2 | rewrite L3 | rewrite L4
                          | rewrite L5 | rewrite L6 | rewrite L7 | rewrite L8
                          | rewrite L9 | rewrite L10 | rewrite L11];
           cbn [Z.eqb Pos.eqb andb]; try reflexivity;
           destruct (GregorianDate._is_leap y); reflexivity|]).
  subst m. rewrite L12. reflexivity.
Qed.

Lemma datetime_date_inv (y m d : Z) (p : Z * Z * Z) :
  datetime.date y m d = Return p ->
  1 <= y <= 9999 /\ 1 <= m <= 12 /\ 1 <= d <= GregorianDate._monthlength y m
  /\ p = (y, m, d).
Proof.
  unfold datetime.date, MINYEAR, MAXYEAR.
  destruct (negb _); [discriminate|].
  destruct (Z.ltb_spec y 1); [discriminate|].
  destruct (Z.gtb_spec y 9999); [discriminate|].
  destruct (Z.ltb_spec m 1); [discriminate|].
  destruct (Z.gtb_spec m 12); [discriminate|].
  cbn [orb]. rewrite days_in_month_monthlength by lia.
  destruct (Z.ltb_spec d 1); [discriminate|].
  destruct (Z.gtb_spec d (GregorianDate._monthlength y m)); [discriminate|].
  cbn [orb]. intros [= <-]. repeat split; lia.
Qed.

Lemma datetime_date_valid (y m d : Z) :
  1 <= y <= 9999 -> 1 <= m <= 12 -> 1 <= d <= GregorianDate._monthlength y m ->
  datetime.date y m d = Return (y, m, d).
Proof.
  intros Hy Hm Hd. unfold datetime.date, datetime.c_int, MINYEAR, MAXYEAR.
  pose proof (monthlength_bounds y m).
  rewrite days_in_month_monthlength by lia. zcmp. reflexivity.
Qed.

(** X11.  [to_pydate()] of a valid Gregorian date returns the
    [datetime.date] of the same year, month and day when the year is one of
    1..9999, and [from_pydate] gives the date back; for another year that
    fits a C [int], [datetime.date] refuses the year and [to_pydate()]
    raises its [ValueError]; for a year that does not fit, it raises
    [OverflowError].  The day-of-month check of [datetime] never rejects a
    date that [GregorianDate] accepted. *)
Theorem gregorian_to_pydate (y m d : Z) (c : CalendarDateMixin) :
  GregorianDate.__init__ y m d None = Return (AGregorianDate c) ->
  (1 <= y <= 9999 ->
   GregorianDate.to_pydate c = Return (y, m, d)
   /\ GregorianDate_from_pydate (y, m, d) = Return (AGregorianDate c))
  /\ (-2147483648 <= y < 1 \/ 9999 < y <= 2147483647 ->
      GregorianDate.to_pydate c = Raise (ValueError (year_out_of_range y)))
  /\ (y < -2147483648 \/ 2147483647 < y ->
      GregorianDate.to_pydate c = Raise OverflowError).
Proof.
  intros Hc. pose proof Hc as Hinit.
  apply GregorianDate_init_inv in Hc. destruct Hc as (Hm & Hd & [= ->]).
  pose proof (monthlength_bounds y m) as Hlen.
  unfold GregorianDate.to_pydate. cbn [year month day]. split; [|split].
  - intros Hy. split; [apply datetime_date_valid; assumption | exact Hinit].
  - intros Hy. unfold datetime.date, datetime.c_int, MINYEAR, MAXYEAR.
    replace ((-2147483648 <=? y) && (y <=? 2147483647)) with true
      by (symmetry; apply andb_true_iff; split; apply Z.leb_le; lia).
    replace ((-2147483648 <=? m) && (m <=? 2147483647)) with true
      by (symmetry; apply andb_true_iff; split; apply Z.leb_le; lia).
    replace ((-2147483648 <=? d) && (d <=? 2147483647)) with true
      by (symmetry; apply andb_true_iff; split; apply Z.leb_le; lia).
    cbn [andb negb].
    destruct (Z.ltb_spec y 1); [reflexivity|].
    destruct (Z.gtb_spec y 9999); [reflexivity|]. lia.
  - intros Hy. unfold datetime.date, datetime.c_int.
    replace ((-2147483648 <=? y) && (y <=? 2147483647)) with false;
      [reflexivity|].
    symmetry. apply andb_false_iff.
    destruct Hy; [left | right]; apply Z.leb_gt; lia.
Qed.

Lemma gregorian_to_pydate_witness :
  GregorianDate.to_pydate (mkCalendarDate 2020 2 29 None) = Return (2020, 2, 29)
  /\ GregorianDate.to_pydate (mkCalendarDate (-5) 2 28 None)
     = Raise (ValueError (year_out_of_range (-5))).
Proof.
  split.
  - apply (proj1 (gregorian_to_pydate 2020 2 29 _ eq_refl)). lia.
  - apply (proj1 (proj2 (gregorian_to_pydate (-5) 2 28 _ eq_refl))). lia.
Defined.

(** X12.  Every [datetime.date] converts: [GregorianDate.from_pydate] and
    [JulianDay.from_pydate] never raise on one, the Gregorian date has the
    fields of the [datetime.date], the Julian day is its [jd], and
    [to_pydate()] of either result is the [datetime.date] they came from. *)
Theorem from_pydate_then_to_pydate (y m d : Z) (p : Z * Z * Z) :
  datetime.date y m d = Return p ->
  exists c x,
    GregorianDate_from_pydate p = Return (AGregorianDate c)
    /\ tuple c = p
    /\ GregorianDate.to_pydate c = Return p
    /\ JulianDay_from_pydate p = Return (AJulianDay x)
    /\ x == GregorianDate.jd c
    /\ JulianDay_to_pydate x = Return p.
Proof.
  intros Hp. apply datetime_date_inv in Hp. destruct Hp as (Hy & Hm & Hd & ->).
  exists (mkCalendarDate y m d None),
    (JulianDay.normalize (GregorianDate.jd (mkCalendarDate y m d None))).
  pose proof (GregorianDate_init_valid y m d None Hm Hd) as Hinit.
  pose proof (datetime_date_valid y m d Hy Hm Hd) as Hdate.
  split; [exact Hinit|]. split; [reflexivity|]. split; [exact Hdate|].
  split; [unfold JulianDay_from_pydate, GregorianDate_from_pydate;
          rewrite Hinit; reflexivity|].
  split; [apply normalize_gregorian_jd|].
  unfold JulianDay_to_pydate.
  rewrite (to_greg_of_gregorian y m d) by
    (first [lia | assumption | apply normalize_gregorian_jd]).
  exact Hdate.
Qed.

Lemma from_pydate_then_to_pydate_witness :
  exists c x,
    GregorianDate_from_pydate (2020, 12, 11) = Return (AGregorianDate c)
    /\ tuple c = (2020, 12, 11)
    /\ GregorianDate.to_pydate c = Return (2020, 12, 11)
    /\ JulianDay_from_pydate (2020, 12, 11) = Return (AJulianDay x)
    /\ x == GregorianDate.jd c
    /\ JulianDay_to_pydate x = Return (2020, 12, 11).
Proof.
  apply (from_pydate_then_to_pydate 2020 12 11). reflexivity.
Defined.

(** *** From the Gregorian calendar to the Hebrew one and back *)

Section GregorianToHebrew.
Context {U : utils}.
Variable Ymax : Z.
Hypothesis C : contract Ymax.

Lemma to_heb_of_gregorian (fuel : nat) (y m d : Z) :
  (Z.to_nat Ymax <= fuel)%nat ->
  1 <= y -> 1 <= m <= 12 -> 1 <= d <= GregorianDate._monthlength y m ->
  in_scope Ymax (GregorianDate.jd (mkCalendarDate y m d None)) ->
  exists hy hm hd x,
    GregorianDate_to_heb fuel (mkCalendarDate y m d None)
    = Return (AHebrewDate (mkCalendarDate hy hm hd (Some x)))
    /\ x == GregorianDate.jd (mkCalendarDate y m d None)
    /\ 1 <= hy < Ymax.
Proof.
  intros Hfuel Hy Hm Hd Hscope.
  set (g := GregorianDate.jd (mkCalendarDate y m d None)) in *.
  pose proof (normalize_gregorian_jd y m d) as En. fold g in En.
  destruct (to_heb_total Ymax C fuel (JulianDay.normalize g))
    as (hy & hm & hd & H & Hhy).
  - apply normalize_half_integer.
  - rewrite En. subst g. rewrite jd_day_number by reflexivity. cbn [year month day].
    pose proof (day_number_common_era y m d Hy Hm ltac:(lia)) as Hlow.
    change (day_number 1 1 1) with 431 in Hlow.
    assert (Hq : (inject_Z 431 <= inject_Z (day_number y m d))%Q)
      by (rewrite <- Zle_Qle; exact Hlow).
    change (inject_Z 431) with 431%Q in Hq. lra.
  - unfold in_scope. rewrite (year_estimate_compat _ g En). exact Hscope.
  - exact Hfuel.
  - exists hy, hm, hd, (JulianDay.normalize g). split; [exact H|].
    split; [exact En | exact Hhy].
Qed.

End GregorianToHebrew.

(** X13.  A Gregorian date of the common era, with a Julian day in the
    range in which the float arithmetic is exact, converts to a Hebrew date
    and back to itself: [greg.to_heb()] returns a Hebrew date that is [==]
    to the Gregorian one, and [greg.to_heb().to_greg()] has the year, month
    and day of [greg] (the calendar collaborator meeting its contract on
    the years in scope). *)
Theorem gregorian_to_hebrew_and_back {U : utils} (Ymax : Z) (fuel : nat)
        (y m d : Z) (a : date) :
  contract Ymax -> (Z.to_nat Ymax <= fuel)%nat ->
  1 <= y -> GregorianDate.__init__ y m d None = Return a ->
  in_exact_range (GregorianDate.jd (mkCalendarDate y m d None)) ->
  in_scope Ymax (GregorianDate.jd (mkCalendarDate y m d None)) ->
  (exists h, GregorianDate_to_heb fuel (mkCalendarDate y m d None)
             = Return (AHebrewDate h)
             /\ 1 <= year h < Ymax
             /\ BaseDate.equals (AHebrewDate h) (Date a) = Return true)
  /\ to_heb_and_back fuel (mkCalendarDate y m d None) = Return (y, m, d).
Proof.
  intros C Hfuel Hy Ha _ Hscope.
  apply GregorianDate_init_inv in Ha. destruct Ha as (Hm & Hd & ->).
  destruct (to_heb_of_gregorian Ymax C fuel y m d Hfuel Hy Hm Hd Hscope)
    as (hy & hm & hd & x & H & Ex & Hhy).
  split.
  - exists (mkCalendarDate hy hm hd (Some x)). split; [exact H|].
    split; [exact Hhy|].
    unfold BaseDate.equals, BaseDate.__eq__, BaseDate.operand_jd.
    cbn [BaseDate.jd HebrewDate.jd _jd BaseDate.jd_eq].
    replace (Py.eq _ _) with true; [reflexivity|].
    symmetry. apply eq_spec. exact Ex.
  - unfold to_heb_and_back. rewrite H. cbn [bind].
    unfold BaseDate.to_greg. cbn [BaseDate.jd HebrewDate.jd _jd].
    rewrite (to_greg_of_cached y m d x) by (first [lia | assumption]).
    reflexivity.
Qed.

Lemma gregorian_to_hebrew_and_back_witness :
  to_heb_and_back (U := Reference.calendar) (Z.to_nat 6020)
    (mkCalendarDate 2020 12 11 None) = Return (2020, 12, 11).
Proof.
  refine (proj2 (gregorian_to_hebrew_and_back (U := Reference.calendar)
            6020 (Z.to_nat 6020) 2020 12 11 _ reference_contract _ _ eq_refl
            _ _)).
  - lia.
  - lia.
  - vm_compute. discriminate.
  - vm_compute. reflexivity.
Defined.

(** X14.  [HebrewDate.from_pydate(p).to_pydate()] is [p] for every
    [datetime.date] [p] (the calendar collaborator meeting its contract on
    the years in scope). *)
Theorem hebrew_pydate_round_trip {U : utils} (Ymax : Z) (fuel : nat)
        (y m d : Z) (p : Z * Z * Z) :
  contract Ymax -> (Z.to_nat Ymax <= fuel)%nat ->
  datetime.date y m d = Return p ->
  in_scope Ymax (GregorianDate.jd (mkCalendarDate y m d None)) ->
  exists h, HebrewDate_from_pydate fuel p = Return (AHebrewDate h)
            /\ 1 <= year h < Ymax
            /\ BaseDate.to_pydate (AHebrewDate h) = Return p.
Proof.
  intros C Hfuel Hp Hscope.
  apply datetime_date_inv in Hp. destruct Hp as (Hy & Hm & Hd & ->).
  destruct (to_heb_of_gregorian Ymax C fuel y m d Hfuel ltac:(lia) Hm Hd Hscope)
    as (hy & hm & hd & x & H & Ex & Hhy).
  exists (mkCalendarDate hy hm hd (Some x)).
  split; [|split; [exact Hhy|]].
  - unfold HebrewDate_from_pydate, GregorianDate_from_pydate.
    rewrite (GregorianDate_init_valid y m d None Hm Hd). cbn [bind]. exact H.
  - unfold BaseDate.to_pydate, BaseDate.to_greg.
    cbn [BaseDate.jd HebrewDate.jd _jd].
    rewrite (to_greg_of_cached y m d x) by (first [lia | assumption]).
    cbn [bind]. unfold GregorianDate.to_pydate. cbn [year month day].
    apply datetime_date_valid; assumption.
Qed.

Lemma hebrew_pydate_round_trip_witness :
  exists h, HebrewDate_from_pydate (U := Reference.calendar) (Z.to_nat 6020)
              (2020, 12, 11) = Return (AHebrewDate h)
            /\ 1 <= year h < 6020
            /\ BaseDate.to_pydate (U := Reference.calendar) (AHebrewDate h)
               = Return (2020, 12, 11).
Proof.
  refine (hebrew_pydate_round_trip (U := Reference.calendar)
            6020 (Z.to_nat 6020) 2020 12 11 _ reference_contract _ eq_refl _).
  - lia.
  - vm_compute. reflexivity.
Defined.

(** *** Leap years *)

Lemma leap_count_shift (leap : Z -> bool) (s lo0 : Z) (count : nat) :
  (forall z, lo0 <= z -> leap (z + s) = leap z) ->
  forall lo, lo0 <= lo ->
    leap_count leap (lo + s) count = leap_count leap lo count.
Proof.
  intros Hs. unfold leap_count.
  induction count as [|count IH]; intros lo Hlo; [reflexivity|].
  cbn [upto filter]. rewrite (Hs lo Hlo).
  replace (lo + s + 1) with (lo + 1 + s) by lia.
  specialize (IH (lo + 1) ltac:(lia)).
  destruct (leap lo); cbn [List.length]; rewrite IH; reflexivity.
Qed.

Lemma window_checks_sound (leap : Z -> bool) (expected count : nat)
      (los : list Z) (lo : Z) :
  window_checks leap expected count los = true -> In lo los ->
  leap_count leap lo count = expected.
Proof.
  unfold window_checks. rewrite forallb_forall. intros H Hin.
  apply Nat.eqb_eq. exact (H lo Hin).
Qed.

Lemma hebrew_leap_period (y c : Z) :
  main.hebrew_leap (y + 19 * c) = main.hebrew_leap y.
Proof.
  unfold main.hebrew_leap.
  replace ((y + 19 * c) * 7 + 1) with (y * 7 + 1 + (7 * c) * 19) by lia.
  rewrite Z_mod_plus_full. reflexivity.
Qed.

Lemma hebrew_leap_windows :
  window_checks main.hebrew_leap 7 19 (upto 0 19) = true.
Proof. vm_compute. reflexivity. Qed.

(** X15.  The leap test of [main.py] follows the 19-year cycle: it is
    periodic with period 19, the leap years are those whose remainder by 19
    is 0, 3, 6, 8, 11, 14 or 17, and any 19 years in a row hold exactly 7
    of them. *)
Theorem hebrew_leap_cycle (year : Z) :
  main.hebrew_leap (year + 19) = main.hebrew_leap year
  /\ main.hebrew_leap year = Py.In (year mod 19) [0; 3; 6; 8; 11; 14; 17]
  /\ leap_count main.hebrew_leap year 19 = 7%nat.
Proof.
  set (r := year mod 19). set (c := year / 19).
  assert (Ey : year = r + 19 * c) by (subst r c; zdiv).
  assert (Hr : 0 <= r < 19) by (subst r; zdiv).
  split; [|split].
  - replace (year + 19) with (year + 19 * 1) by lia. apply hebrew_leap_period.
  - rewrite Ey at 1. rewrite hebrew_leap_period.
    assert (Hc : r = 0 \/ r = 1 \/ r = 2 \/ r = 3 \/ r = 4 \/ r = 5 \/ r = 6
                 \/ r = 7 \/ r = 8 \/ r = 9 \/ r = 10 \/ r = 11 \/ r = 12
                 \/ r = 13 \/ r = 14 \/ r = 15 \/ r = 16 \/ r = 17 \/ r = 18)
      by lia.
    repeat (destruct Hc as [Hc|Hc]; [rewrite Hc; reflexivity|]).
    rewrite Hc. reflexivity.
  - rewrite Ey.
    rewrite (leap_count_shift main.hebrew_leap (19 * c) r 19
               (fun z _ => hebrew_leap_period z c) r ltac:(lia)).
    apply (window_checks_sound _ _ _ _ r hebrew_leap_windows).
    apply upto_In. simpl. lia.
Qed.

Lemma gregorian_leap_windows :
  window_checks GregorianDate._is_leap 97 400 (upto 1 400) = true.
Proof. vm_compute. reflexivity. Qed.

(** X16.  In the common era [GregorianDate._is_leap] is the Gregorian rule:
    a year is leap when 4 divides it and 100 does not, or 400 does; the
    test has period 400, and any 400 years in a row hold exactly 97 leap
    years.  [is_leap()] of a date is the test of its year. *)
Theorem gregorian_leap_rule (y : Z) :
  1 <= y ->
  (GregorianDate._is_leap y = true
   <-> (y mod 4 = 0 /\ (y mod 100 <> 0 \/ y mod 400 = 0)))
  /\ GregorianDate._is_leap (y + 400) = GregorianDate._is_leap y
  /\ leap_count GregorianDate._is_leap y 400 = 97%nat
  /\ (forall m d jd, GregorianDate_is_leap (mkCalendarDate y m d jd)
                     = GregorianDate._is_leap y).
Proof.
  intros Hy. split; [|split; [|split]].
  - unfold GregorianDate._is_leap.
    replace (y <? 0) with false by (symmetry; apply Z.ltb_ge; lia).
    destruct (Z.eqb_spec (y mod 4) 0), (Z.eqb_spec (y mod 100) 0),
      (Z.eqb_spec (y mod 400) 0); cbn [andb negb];
      split; intros H; first [discriminate | reflexivity | tauto | lia | idtac].
    all: try (split; [assumption|]; first [left; assumption | right; assumption]).
  - replace (y + 400) with (y + 400 * 1) by lia. apply is_leap_period; lia.
  - set (c := (y - 1) / 400). set (y0 := (y - 1) mod 400 + 1).
    assert (Ey : y = y0 + 400 * c) by (subst c y0; zdiv).
    assert (Hy0 : 1 <= y0 <= 400) by (subst y0; zdiv).
    assert (Hc : 0 <= c) by (subst c; zdiv).
    rewrite Ey.
    rewrite (leap_count_shift GregorianDate._is_leap (400 * c) 1 400).
    + apply (window_checks_sound _ _ _ _ y0 gregorian_leap_windows).
      apply upto_In. simpl. lia.
    + intros z Hz. apply is_leap_period; lia.
    + lia.
  - intros m d jd. reflexivity.
Qed.

Lemma gregorian_leap_rule_witness :
  GregorianDate._is_leap 1900 = true
  <-> (1900 mod 4 = 0 /\ (1900 mod 100 <> 0 \/ 1900 mod 400 = 0)).
Proof.
  apply (proj1 (gregorian_leap_rule 1900 ltac:(lia))).
Defined.

(** *** The Gregorian month names of the [/date] route *)

(** X17.  [greg_month] returns a name exactly for the month numbers 1..12,
    the Portuguese name of that month, and [None] for every other number;
    different months get different names. *)
Theorem greg_month_total_on_months (mes : Z) :
  (1 <= mes <= 12 ->
   greg_month mes
   = Return (nth (Z.to_nat (mes - 1)) greg_month_names ""%string))
  /\ (mes < 1 \/ 12 < mes -> greg_month mes = ReturnNone)
  /\ (forall mes', 1 <= mes <= 12 -> greg_month mes = greg_month mes' ->
                   mes = mes').
Proof.
  assert (Hout : forall k, k < 1 \/ 12 < k -> greg_month k = ReturnNone).
  { intros k Hk. unfold greg_month.
    repeat match goal with
           | |- context [?a =? ?b] => destruct (Z.eqb_spec a b); [lia|]
           end.
    reflexivity. }
  split; [|split].
  - intros H.
    assert (Hc : mes = 1 \/ mes = 2 \/ mes = 3 \/ mes = 4 \/ mes = 5 \/ mes = 6
                 \/ mes = 7 \/ mes = 8 \/ mes = 9 \/ mes = 10 \/ mes = 11
                 \/ mes = 12) by lia.
    repeat (destruct Hc as [Hc|Hc]; [rewrite Hc; reflexivity|]).
    rewrite Hc. reflexivity.
  - apply Hout.
  - intros mes' H E.
    destruct (Z_lt_le_dec mes' 1) as [Hlo|Hlo];
      [|destruct (Z_lt_le_dec 12 mes') as [Hhi|Hhi]].
    + rewrite (Hout mes') in E by lia.
      assert (Hc : mes = 1 \/ mes = 2 \/ mes = 3 \/ mes = 4 \/ mes = 5
                   \/ mes = 6 \/ mes = 7 \/ mes = 8 \/ mes = 9 \/ mes = 10
                   \/ mes = 11 \/ mes = 12) by lia.
      repeat (destruct Hc as [Hc|Hc]; [rewrite Hc in E; discriminate E|]).
      rewrite Hc in E. discriminate E.
    + rewrite (Hout mes') in E by lia.
      assert (Hc : mes = 1 \/ mes = 2 \/ mes = 3 \/ mes = 4 \/ mes = 5
                   \/ mes = 6 \/ mes = 7 \/ mes = 8 \/ mes = 9 \/ mes = 10
                   \/ mes = 11 \/ mes = 12) by lia.
      repeat (destruct Hc as [Hc|Hc]; [rewrite Hc in E; discriminate E|]).
      rewrite Hc in E. discriminate E.
    + assert (Hc : mes = 1 \/ mes = 2 \/ mes = 3 \/ mes = 4 \/ mes = 5
                   \/ mes = 6 \/ mes = 7 \/ mes = 8 \/ mes = 9 \/ mes = 10
                   \/ mes = 11 \/ mes = 12) by lia.
      assert (Hc' : mes' = 1 \/ mes' = 2 \/ mes' = 3 \/ mes' = 4 \/ mes' = 5
                    \/ mes' = 6 \/ mes' = 7 \/ mes' = 8 \/ mes' = 9
                    \/ mes' = 10 \/ mes' = 11 \/ mes' = 12) by lia.
      clear H Hlo Hhi Hout.
      repeat (destruct Hc as [Hc|Hc]; [subst mes|]); try subst mes;
        repeat (destruct Hc' as [Hc'|Hc']; [subst mes'|]); try subst mes';
        first [reflexivity | discriminate E].
Qed.

Lemma greg_month_total_on_months_witness :
  greg_month 3 = Return (nth (Z.to_nat (3 - 1)) greg_month_names ""%string).
Proof.
  apply (proj1 (greg_month_total_on_months 3)). lia.
Defined.

(** *** Formatting piece by piece *)

Section FormatComposition.
Context {U : utils} {R : renderers}.
Variable self : CalendarDateMixin.

Lemma loop_literal (f : string) :
  (forall c, In c (list_ascii_of_string f) -> c <> "%"%char) ->
  forall new, HebrewFormat.loop self f new
              = Return (String.concat "" new ++ f)%string.
Proof.
  induction f as [|c f IH]; intros Hf new.
  - cbn [HebrewFormat.loop]. rewrite string_app_nil_r. reflexivity.
  - cbn [HebrewFormat.loop].
    destruct (Ascii.eqb_spec c "%") as [E|_].
    + exfalso. apply (Hf c); [left; reflexivity | exact E].
    + cbn [negb]. rewrite IH by (intros k Hk; apply Hf; right; exact Hk).
      rewrite concat_snoc, string_app_assoc. reflexivity.
Qed.

End FormatComposition.

(** X18.  Formatting is done piece by piece: when a format string [f1] is
    accepted with result [s1], formatting [f1 ++ f2] formats [f2] and puts
    [s1] in front of its result, and fails as [f2] fails. *)
Theorem format_of_a_concatenation {U : utils} {R : renderers}
        (self : CalendarDateMixin) (f1 f2 s1 : string) :
  HebrewFormat.__format__ self f1 = Return s1 ->
  HebrewFormat.__format__ self (f1 ++ f2)
  = (s2 <- HebrewFormat.__format__ self f2 ;; Return (s1 ++ s2)%string).
Proof.
  intros H. apply format_after_prefix. exact H.
Qed.

Lemma format_of_a_concatenation_witness :
  HebrewFormat.__format__ (U := Reference.calendar) (R := Reference.decimal)
    (mkCalendarDate 5781 9 25 None) ("%d-" ++ "%m %%")
  = (s2 <- HebrewFormat.__format__ (U := Reference.calendar)
             (R := Reference.decimal) (mkCalendarDate 5781 9 25 None) "%m %%" ;;
     Return ("25-" ++ s2)%string).
Proof.
  apply (format_of_a_concatenation (U := Reference.calendar)
           (R := Reference.decimal) (mkCalendarDate 5781 9 25 None)
           "%d-" "%m %%" "25-").
  vm_compute. reflexivity.
Defined.

(** X19.  A format string without a percent sign is its own result, for
    every date and whatever the collaborators do. *)
Theorem format_of_plain_text {U : utils} {R : renderers}
        (self : CalendarDateMixin) (fmt : string) :
  (forall c, In c (list_ascii_of_string fmt) -> c <> "%"%char) ->
  HebrewFormat.__format__ self fmt = Return fmt.
Proof.
  intros H. unfold HebrewFormat.__format__.
  rewrite (loop_literal self fmt H). reflexivity.
Qed.

Lemma format_of_plain_text_witness :
  HebrewFormat.__format__ (U := Reference.calendar) (R := Reference.decimal)
    (mkCalendarDate 5781 9 25 None) "shalom" = Return "shalom"%string.
Proof.
  apply (format_of_plain_text (U := Reference.calendar) (R := Reference.decimal)
           (mkCalendarDate 5781 9 25 None) "shalom").
  intros c Hc. simpl in Hc.
  repeat (destruct Hc as [Hc|Hc]; [subst c; discriminate|]).
  contradiction.
Defined.

(** *** The order of the Hebrew dates *)

Section HebrewOrderLemmas.
Context {U : utils}.

Lemma position_inj (l : list Z) (m m' : Z) :
  In m l -> In m' l -> position m l = position m' l -> m = m'.
Proof.
  induction l as [|h t IH]; intros Hm Hm' E; [contradiction|].
  cbn [position] in E.
  destruct (Z.eqb_spec h m) as [E1|E1], (Z.eqb_spec h m') as [E2|E2];
    try congruence.
  apply IH.
  - destruct Hm; [contradiction | assumption].
  - destruct Hm'; [contradiction | assumption].
  - congruence.
Qed.

Lemma days_before_nonneg (y m : Z) (l : list Z) :
  (forall k, In k l -> 1 <= _month_length y k) -> 0 <= days_before y m l.
Proof.
  induction l as [|h t IH]; intros Hpos; cbn [days_before]; [lia|].
  destruct (h =? m); [lia|].
  pose proof (Hpos h (or_introl eq_refl)).
  specialize (IH (fun k Hk => Hpos k (or_intror Hk))). lia.
Qed.

Lemma days_before_position (y m m' : Z) (l : list Z) :
  (forall k, In k l -> 1 <= _month_length y k) ->
  (position m l < position m' l)%nat ->
  days_before y m l + _month_length y m <= days_before y m' l.
Proof.
  induction l as [|h t IH]; intros Hpos Hlt; cbn [position] in Hlt; [lia|].
  cbn [days_before].
  destruct (Z.eqb_spec h m) as [E1|E1], (Z.eqb_spec h m') as [E2|E2];
    try lia.
  - subst h.
    pose proof (days_before_nonneg y m' t (fun k Hk => Hpos k (or_intror Hk))).
    lia.
  - specialize (IH (fun k Hk => Hpos k (or_intror Hk)) ltac:(lia)). lia.
Qed.

Variable Ymax : Z.
Hypothesis C : contract Ymax.

(** Dates in calendar order have day numbers in the same order. *)
Lemma hebrew_lt_days (y m d y' m' d' : Z) :
  1 <= y < Ymax -> In m (HebrewDate.months y) -> 1 <= d <= _month_length y m ->
  1 <= y' < Ymax -> In m' (HebrewDate.months y') -> 1 <= d' <= _month_length y' m' ->
  hebrew_lt (y, m, d) (y', m', d') ->
  _elapsed_days y + days_before y m (HebrewDate.months y) + (d - 1)
  < _elapsed_days y' + days_before y' m' (HebrewDate.months y') + (d' - 1).
Proof.
  intros Hy Hm Hd Hy' Hm' Hd' Hlt.
  pose proof (contract_month Ymax C y) as Hpos.
  pose proof (contract_month Ymax C y') as Hpos'.
  destruct (days_before_bounds y m (HebrewDate.months y)
              (fun k Hk => Hpos k Hy Hk) Hm) as [B1 B2].
  destruct (days_before_bounds y' m' (HebrewDate.months y')
              (fun k Hk => Hpos' k Hy' Hk) Hm') as [B1' B2'].
  destruct Hlt as [Hlt | [<- [Hlt | [<- Hlt]]]].
  - pose proof (contract_year_length Ymax C y Hy) as Hlen.
    pose proof (elapsed_le Ymax C (y + 1) y' ltac:(lia) ltac:(lia)). lia.
  - pose proof (days_before_position y m m' (HebrewDate.months y)
                  (fun k Hk => Hpos k Hy Hk) Hlt). lia.
  - lia.
Qed.

Lemma hebrew_trichotomy (y m d y' m' d' : Z) :
  In m (HebrewDate.months y) -> In m' (HebrewDate.months y') ->
  (y, m, d) = (y', m', d')
  \/ hebrew_lt (y, m, d) (y', m', d') \/ hebrew_lt (y', m', d') (y, m, d).
Proof.
  intros Hm Hm'. unfold hebrew_lt.
  destruct (Z.lt_trichotomy y y') as [H|[H|H]]; [tauto| |tauto]. subst y'.
  destruct (Nat.lt_trichotomy (position m (HebrewDate.months y))
              (position m' (HebrewDate.months y))) as [H|[H|H]];
    [tauto| |tauto].
  apply (position_inj _ _ _ Hm Hm') in H. subst m'.
  destruct (Z.lt_trichotomy d d') as [H|[H|H]]; [tauto| |tauto].
  subst d'. left. reflexivity.
Qed.

End HebrewOrderLemmas.

(** X20.  Hebrew dates with Julian days in the range in which the float
    arithmetic is exact compare in the order of the Hebrew calendar, whose
    year begins with Tishrei (month 7): two valid dates are [==] exactly
    when their fields agree, and [a < b] exactly when [a] has the earlier
    year, or the month that comes first in the year from Tishrei to Elul,
    or the earlier day of the same month (the calendar collaborator meeting
    its contract on the years in scope). *)
Theorem hebrew_order_is_calendar_order {U : utils} (Ymax : Z)
        (y m d y' m' d' : Z) (a b : date) (x x' : Q) :
  contract Ymax -> 1 <= y < Ymax -> 1 <= y' < Ymax ->
  HebrewDate.__init__ y m d None = Return a ->
  HebrewDate.__init__ y' m' d' None = Return b ->
  BaseDate.jd a = Some x -> BaseDate.jd b = Some x' ->
  in_exact_range x -> in_exact_range x' ->
  (BaseDate.equals a (Date b) = Return true <-> (y, m, d) = (y', m', d'))
  /\ (BaseDate.__lt__ a (Date b) = Return true
      <-> hebrew_lt (y, m, d) (y', m', d')).
Proof.
  intros C Hy Hy' Ha Hb _ _ _ _.
  apply HebrewDate_init_inv in Ha. destruct Ha as (_ & Hm & Hd & ->).
  apply HebrewDate_init_inv in Hb. destruct Hb as (_ & Hm' & Hd' & ->).
  pose proof (hebrew_lt_days Ymax C y m d y' m' d' Hy Hm Hd Hy' Hm' Hd') as L1.
  pose proof (hebrew_lt_days Ymax C y' m' d' y m d Hy' Hm' Hd' Hy Hm Hd) as L2.
  pose proof (hebrew_trichotomy y m d y' m' d' Hm Hm') as T.
  unfold BaseDate.equals, BaseDate.__eq__, BaseDate.__lt__, BaseDate.ordering,
    BaseDate.operand_jd.
  cbn [BaseDate.jd].
  rewrite (hebrew_jd_computed y m d Hm), (hebrew_jd_computed y' m' d' Hm').
  cbn [BaseDate.jd_eq BaseDate.jd_cmp].
  set (J := _elapsed_days y + days_before y m (HebrewDate.months y) + (d - 1)) in *.
  set (J' := _elapsed_days y' + days_before y' m' (HebrewDate.months y')
             + (d' - 1)) in *.
  assert (Eq : (inject_Z J + 347996.5 == inject_Z J' + 347996.5) <-> J = J').
  { split; intros H; [apply inject_Z_injective; lra | rewrite H; reflexivity]. }
  assert (Lt : (inject_Z J + 347996.5 < inject_Z J' + 347996.5)%Q <-> J < J').
  { rewrite Zlt_Qlt. split; intros H; lra. }
  split; split.
  - intros [= H]. apply eq_spec, Eq in H.
    destruct T as [T|[T|T]]; [exact T | apply L1 in T; lia | apply L2 in T; lia].
  - intros [= -> -> ->]. f_equal. apply eq_spec. reflexivity.
  - intros [= H]. apply lt_spec, Lt in H.
    destruct T as [T|[T|T]]; [|exact T | apply L2 in T; lia].
    injection T as -> -> ->. subst J J'. lia.
  - intros H. f_equal. apply lt_spec, Lt. apply L1. exact H.
Qed.

Lemma hebrew_order_is_calendar_order_witness :
  BaseDate.__lt__ (U := Reference.calendar)
    (AHebrewDate (mkCalendarDate 5781 7 1 None))
    (Date (AHebrewDate (mkCalendarDate 5781 1 15 None))) = Return true
  <-> hebrew_lt (U := Reference.calendar) (5781, 7, 1) (5781, 1, 15).
Proof.
  refine (proj2 (hebrew_order_is_calendar_order (U := Reference.calendar) 6020
                   5781 7 1 5781 1 15 _ _ 2459111.5 2459301.5
                   reference_contract _ _ _ _ _ _ _ _)).
  - lia.
  - lia.
  - vm_compute. reflexivity.
  - vm_compute. reflexivity.
  - vm_compute. reflexivity.
  - vm_compute. reflexivity.
  - vm_compute. discriminate.
  - vm_compute. discriminate.
Defined.

(** *** Hebrew days that follow one another *)

Section HebrewSteps.
Context {U : utils}.

Lemma le_compat (x1 x2 c : Q) : x1 == x2 -> Py.le x1 c = Py.le x2 c.
Proof.
  intros E. destruct (Py.le x2 c) eqn:H2.
  - apply le_spec. apply le_spec in H2. rewrite E. exact H2.
  - apply le_false. apply le_false in H2. rewrite E. exact H2.
Qed.

Lemma for_month_cache (x1 x2 : Q) (year : Z) (l : list Z) (r y m d : Z) :
  JulianDay.for_month x1 year l r
  = Return (AHebrewDate (mkCalendarDate y m d (Some x1))) ->
  JulianDay.for_month x2 year l r
  = Return (AHebrewDate (mkCalendarDate y m d (Some x2))).
Proof.
  revert r. induction l as [|h t IH]; intros r; cbn [JulianDay.for_month];
    [discriminate|].
  destruct (r >=? _month_length year h); [apply IH|].
  intros H. apply HebrewDate_init_inv in H.
  destruct H as (Hy & Hm & Hd & E). inversion E; subst.
  apply HebrewDate_init_valid; assumption.
Qed.

Lemma to_heb_compat (fuel : nat) (x1 x2 : Q) (y m d : Z) :
  x1 == x2 ->
  JulianDay.to_heb fuel x1
  = Return (AHebrewDate (mkCalendarDate y m d (Some x1))) ->
  JulianDay.to_heb fuel x2
  = Return (AHebrewDate (mkCalendarDate y m d (Some x2))).
Proof.
  intros E. unfold JulianDay.to_heb.
  rewrite (le_compat x1 x2 347997 E).
  rewrite (int_compat (x1 + 0.5) (x2 + 0.5)) by (rewrite E; reflexivity).
  destruct (Py.le x2 347997); [discriminate|]. cbv zeta.
  destruct (JulianDay.while_first_day _ _ _ _) as [[year first_day]|];
    [|discriminate].
  apply for_month_cache.
Qed.

Lemma month_after_days (y m : Z) (l : list Z) :
  NoDup l -> In m l ->
  match month_after m l with
  | Some m2 =>
      In m2 l /\ days_before y m2 l = days_before y m l + _month_length y m
  | None => days_before y m l + _month_length y m = days_in y l
  end.
Proof.
  induction l as [|h t IH]; intros Hnd Hin; [contradiction|].
  inversion Hnd as [|? ? Hnotin Hnd']; subst.
  cbn [month_after days_before days_in].
  destruct (Z.eqb_spec h m) as [E|E].
  - subst h. destruct t as [|h2 t]; cbn [hd_error days_before days_in].
    + lia.
    + split; [right; left; reflexivity|].
      destruct (Z.eqb_spec m h2) as [E2|_].
      * exfalso. apply Hnotin. left. symmetry. exact E2.
      * rewrite Z.eqb_refl. lia.
  - assert (Hin' : In m t) by (destruct Hin; [contradiction | assumption]).
    specialize (IH Hnd' Hin').
    destruct (month_after m t) as [m2|].
    + destruct IH as [Hm2 Hdb]. split; [right; exact Hm2|].
      destruct (Z.eqb_spec h m2) as [E2|_].
      * exfalso. apply Hnotin. rewrite E2. exact Hm2.
      * lia.
    + lia.
Qed.

Lemma tishrei_first (y : Z) : days_before y 7 (HebrewDate.months y) = 0.
Proof. unfold HebrewDate.months. destruct (_is_leap y); reflexivity. Qed.

Variable Ymax : Z.
Hypothesis C : contract Ymax.

Lemma next_hebrew_day_number (y m d : Z) :
  1 <= y < Ymax -> In m (HebrewDate.months y) -> 1 <= d <= _month_length y m ->
  (hebrew_day_number y m d + 1) / 365 + 2 < Ymax ->
  let '(y', m', d') := next_hebrew_day (y, m, d) in
  1 <= y' < Ymax /\ In m' (HebrewDate.months y')
  /\ 1 <= d' <= _month_length y' m'
  /\ hebrew_day_number y' m' d' = hebrew_day_number y m d + 1.
Proof.
  intros Hy Hm Hd Hscope. unfold next_hebrew_day, hebrew_day_number in *.
  destruct (Z.ltb_spec d (_month_length y m)) as [Hlt|Hge].
  - repeat split; try assumption; lia.
  - assert (Ed : d = _month_length y m) by lia.
    pose proof (month_after_days y m (HebrewDate.months y)
                  (months_NoDup y) Hm) as H.
    destruct (month_after m (HebrewDate.months y)) as [m2|].
    + destruct H as [Hm2 Hdb].
      pose proof (contract_month Ymax C y m2 Hy Hm2).
      repeat split; try assumption; lia.
    + pose proof (contract_year_length Ymax C y Hy) as Hlen.
      pose proof (contract_estimate Ymax C (y + 1) ltac:(lia)) as Hest.
      rewrite tishrei_first.
      assert (E1 : _elapsed_days (y + 1)
                   = _elapsed_days y
                     + days_before y m (HebrewDate.months y) + (d - 1) + 1)
        by lia.
      rewrite <- E1 in Hscope.
      assert (Hy1 : y + 1 < Ymax) by zdiv.
      pose proof (contract_month Ymax C (y + 1) 7 ltac:(lia)
                    (tishrei_In (y + 1))).
      repeat split; try lia. apply tishrei_In.
Qed.

Lemma iter_next_hebrew_day_number (n : nat) (y m d : Z) :
  1 <= y < Ymax -> In m (HebrewDate.months y) -> 1 <= d <= _month_length y m ->
  (hebrew_day_number y m d + Z.of_nat n) / 365 + 2 < Ymax ->
  let '(y', m', d') := Nat.iter n next_hebrew_day (y, m, d) in
  1 <= y' < Ymax /\ In m' (HebrewDate.months y')
  /\ 1 <= d' <= _month_length y' m'
  /\ hebrew_day_number y' m' d' = hebrew_day_number y m d + Z.of_nat n.
Proof.
  intros Hy Hm Hd. induction n as [|n IH]; intros Hscope.
  - simpl. repeat split; try assumption; lia.
  - rewrite Nat.iter_succ.
    assert (Hn : (hebrew_day_number y m d + Z.of_nat n) / 365 + 2 < Ymax)
      by (revert Hscope; generalize (hebrew_day_number y m d); intros J HJ; zdiv).
    specialize (IH Hn).
    destruct (Nat.iter n next_hebrew_day (y, m, d)) as [[y1 m1] d1].
    cbv beta iota in IH. destruct IH as (Hy1 & Hm1 & Hd1 & E).
    pose proof (next_hebrew_day_number y1 m1 d1 Hy1 Hm1 Hd1) as H.
    rewrite E in H.
    replace (hebrew_day_number y m d + Z.of_nat n + 1)
      with (hebrew_day_number y m d + Z.of_nat (S n)) in H by lia.
    specialize (H Hscope).
    destruct (next_hebrew_day (y1, m1, d1)) as [[y2 m2] d2].
    cbv beta iota in H |- *. exact H.
Qed.

End HebrewSteps.

(** X21.  Adding [n >= 0] days to a Hebrew date steps through the Hebrew
    calendar, as long as the Julian days stay in the range in which the
    float arithmetic is exact: [date + n] is the date reached by taking the
    following day [n] times, where the day after the last day of a month is
    the first of the month that follows it in the year from Tishrei to
    Elul, and the day after the last day of Elul is 1 Tishrei of the next
    year (the calendar collaborator meeting its contract on the years in
    scope). *)
Theorem hebrew_days_step_through_calendar {U : utils} (Ymax : Z)
        (fuel n : nat) (y m d : Z) (a : date) (x : Q) :
  contract Ymax -> (Z.to_nat Ymax <= fuel)%nat -> y < Ymax ->
  HebrewDate.__init__ y m d None = Return a ->
  BaseDate.jd a = Some x ->
  in_exact_range x -> in_exact_range (x + inject_Z (Z.of_nat n)) ->
  in_scope Ymax (x + inject_Z (Z.of_nat n)) ->
  exists c,
    BaseDate.plus fuel a (Num (Z.of_nat n)) = Return (AHebrewDate c)
    /\ tuple c = Nat.iter n next_hebrew_day (y, m, d).
Proof.
  intros C Hfuel Hy Ha Hjd _ _ Hscope.
  apply HebrewDate_init_inv in Ha. destruct Ha as (Hy1 & Hm & Hd & ->).
  cbn [BaseDate.jd] in Hjd. rewrite (hebrew_jd_computed y m d Hm) in Hjd.
  injection Hjd as <-. fold (hebrew_day_number y m d) in *.
  set (J := hebrew_day_number y m d) in *.
  set (xn := (inject_Z J + 347996.5 + inject_Z (Z.of_nat n))%Q) in *.
  assert (Exn : xn == inject_Z (J + Z.of_nat n + 347996) + 0.5)
    by (subst xn; qlin).
  unfold in_scope, year_estimate in Hscope.
  rewrite (int_of_half_integer xn _ Exn) in Hscope.
  replace (J + Z.of_nat n + 347996 + 1 - 347997) with (J + Z.of_nat n)
    in Hscope by lia.
  pose proof (iter_next_hebrew_day_number Ymax C n y m d ltac:(lia) Hm Hd Hscope)
    as H.
  destruct (Nat.iter n next_hebrew_day (y, m, d)) as [[y' m'] d'].
  cbv beta iota in H. destruct H as (Hy' & Hm' & Hd' & E).
  destruct (hebrew_roundtrip_scoped Ymax C fuel y' m' d' Hy' Hm' Hd' Hfuel)
    as (x' & Hx' & Hhalf' & _ & Hto).
  rewrite (hebrew_jd_computed y' m' d' Hm') in Hx'. injection Hx' as <-.
  fold (hebrew_day_number y' m' d') in *. rewrite E in *. fold J in Hto, Hhalf'.
  set (x' := (inject_Z (J + Z.of_nat n) + 347996.5)%Q) in *.
  assert (Ex' : x' == inject_Z (J + Z.of_nat n + 347996) + 0.5)
    by (subst x'; qlin).
  assert (Hs' : in_scope Ymax x').
  { unfold in_scope, year_estimate.
    rewrite (int_of_half_integer x' _ Ex').
    replace (J + Z.of_nat n + 347996 + 1 - 347997) with (J + Z.of_nat n) by lia.
    exact Hscope. }
  specialize (Hto Hs').
  exists (mkCalendarDate y' m' d' (Some (JulianDay.normalize xn))).
  split; [|reflexivity].
  unfold BaseDate.plus, BaseDate.__add__. cbn [BaseDate.jd].
  rewrite (hebrew_jd_computed y m d Hm). fold (hebrew_day_number y m d). fold J.
  unfold BaseDate.shifted, JulianDay._to_x. fold xn.
  rewrite (to_heb_compat fuel (JulianDay.normalize x') (JulianDay.normalize xn)
             y' m' d'); [reflexivity | | exact Hto].
  rewrite (normalize_half x' _ Ex'), (normalize_half xn _ Exn), Ex', Exn.
  reflexivity.
Qed.

Lemma hebrew_days_step_through_calendar_witness :
  exists c,
    BaseDate.plus (U := Reference.calendar) (Z.to_nat 6020)
      (AHebrewDate (mkCalendarDate 5781 6 29 None)) (Num (Z.of_nat 1))
    = Return (AHebrewDate c)
    /\ tuple c = Nat.iter 1 (next_hebrew_day (U := Reference.calendar))
                   (5781, 6, 29).
Proof.
  refine (hebrew_days_step_through_calendar (U := Reference.calendar)
            6020 (Z.to_nat 6020) 1 5781 6 29 _ 2459463.5
            reference_contract _ _ _ _ _ _ _).
  - lia.
  - lia.
  - vm_compute. reflexivity.
  - vm_compute. reflexivity.
  - vm_compute. discriminate.
  - vm_compute. discriminate.
  - vm_compute. reflexivity.
Defined.

(** *** From a day to its Hebrew date *)

Section HebrewCover.
Context {U : utils}.
Variable Ymax : Z.
Hypothesis C : contract Ymax.

(** Every day from the epoch on, in scope, is the day of a valid date. *)
Lemma hebrew_cover (J : Z) :
  1 <= J -> J / 365 + 2 < Ymax ->
  exists y m d,
    1 <= y < Ymax /\ In m (HebrewDate.months y)
    /\ 1 <= d <= _month_length y m /\ hebrew_day_number y m d = J.
Proof.
  intros HJ Hscope. set (est := J / 365 + 2) in *.
  assert (Hest : 2 <= est) by (subst est; zdiv).
  destruct (year_of_day (Z.to_nat (est - 1)) est J) as (y & Hy & Hle & Habove);
    [lia | rewrite (contract_epoch Ymax C); exact HJ |].
  assert (Hnext : J < _elapsed_days (y + 1)).
  { destruct (Z.eq_dec y est) as [->|Hne].
    - pose proof (contract_estimate Ymax C (est + 1) ltac:(lia)) as He.
      assert (J < 365 * (est - 1)) by (subst est; zdiv). lia.
    - apply Habove. lia. }
  rewrite (contract_year_length Ymax C) in Hnext by lia.
  destruct (for_month_total y (J - _elapsed_days y) (HebrewDate.months y))
    as (m & d & Hm & Hd & E);
    [apply months_NoDup
    | intros m' H'; apply (contract_month Ymax C); [lia | exact H'] | lia |].
  exists y, m, d. unfold hebrew_day_number. repeat split; try assumption; lia.
Qed.

Lemma to_heb_of_day (fuel : nat) (x : Q) (y m d : Z) :
  (Z.to_nat Ymax <= fuel)%nat ->
  1 <= y < Ymax -> In m (HebrewDate.months y) -> 1 <= d <= _month_length y m ->
  x == inject_Z (hebrew_day_number y m d) + 347996.5 ->
  in_scope Ymax x ->
  JulianDay.to_heb fuel x = Return (AHebrewDate (mkCalendarDate y m d (Some x))).
Proof.
  intros Hfuel Hy Hm Hd Ex Hscope.
  destruct (hebrew_roundtrip_scoped Ymax C fuel y m d Hy Hm Hd Hfuel)
    as (x' & Hx' & Hhalf' & _ & Hto).
  rewrite (hebrew_jd_computed y m d Hm) in Hx'. injection Hx' as <-.
  fold (hebrew_day_number y m d) in *.
  set (x' := (inject_Z (hebrew_day_number y m d) + 347996.5)%Q) in *.
  assert (Hs' : in_scope Ymax x').
  { unfold in_scope in *. rewrite <- (year_estimate_compat x x' Ex). exact Hscope. }
  apply (to_heb_compat fuel (JulianDay.normalize x') x y m d).
  - rewrite (normalize_fixed x' Hhalf'). symmetry. exact Ex.
  - apply Hto. exact Hs'.
Qed.

End HebrewCover.

(** X22.  [to_heb] returns the Hebrew date of the day it is given: for a
    midnight value after the guard it returns a date its constructor
    accepts, and the [jd] of that date, computed again from the year, the
    month and the day, is the value [to_heb] started from (the calendar
    collaborator meeting its contract on the years in scope). *)
Theorem to_heb_then_jd {U : utils} (Ymax : Z) (fuel : nat) (x : Q) :
  contract Ymax -> (Z.to_nat Ymax <= fuel)%nat ->
  half_integer x -> (347997 < x)%Q -> in_scope Ymax x ->
  exists y m d x',
    JulianDay.to_heb fuel x = Return (AHebrewDate (mkCalendarDate y m d (Some x)))
    /\ HebrewDate.__init__ y m d None
       = Return (AHebrewDate (mkCalendarDate y m d None))
    /\ HebrewDate.jd (mkCalendarDate y m d None) = Some x'
    /\ x' == x.
Proof.
  intros C Hfuel [n Hn] Hx Hscope.
  pose proof (after_epoch x n Hn Hx) as Hge.
  pose proof Hscope as Hs. unfold in_scope, year_estimate in Hs.
  rewrite (int_of_half_integer x n Hn) in Hs.
  destruct (hebrew_cover Ymax C (n + 1 - 347997) ltac:(lia) Hs)
    as (y & m & d & Hy & Hm & Hd & E).
  assert (Ex : x == inject_Z (hebrew_day_number y m d) + 347996.5)
    by (rewrite E, Hn; qlin).
  exists y, m, d, (inject_Z (hebrew_day_number y m d) + 347996.5)%Q.
  split; [apply (to_heb_of_day Ymax C); assumption|].
  split; [apply HebrewDate_init_valid; [lia | exact Hm | exact Hd]|].
  split; [apply hebrew_jd_computed; exact Hm|].
  symmetry. exact Ex.
Qed.

Lemma to_heb_then_jd_witness :
  exists y m d x',
    JulianDay.to_heb (U := Reference.calendar) (Z.to_nat 6020) 2459194.5
    = Return (AHebrewDate (mkCalendarDate y m d (Some 2459194.5%Q)))
    /\ HebrewDate.__init__ (U := Reference.calendar) y m d None
       = Return (AHebrewDate (mkCalendarDate y m d None))
    /\ HebrewDate.jd (U := Reference.calendar) (mkCalendarDate y m d None)
       = Some x'
    /\ x' == 2459194.5.
Proof.
  apply (to_heb_then_jd (U := Reference.calendar) 6020 (Z.to_nat 6020) 2459194.5
           reference_contract).
  - lia.
  - exists 2459194. reflexivity.
  - reflexivity.
  - vm_compute. reflexivity.
Defined.

(** X23.  A Hebrew date with a Julian day in the range in which the float
    arithmetic is exact converts to a Gregorian date and back to itself:
    [heb.to_greg()] returns a Gregorian date that is [==] to the Hebrew
    one, and [heb.to_greg().to_heb()] has the year, month and day of [heb]
    (the calendar collaborator meeting its contract on the years in
    scope). *)
Theorem hebrew_to_gregorian_and_back {U : utils} (Ymax : Z) (fuel : nat)
        (y m d : Z) (a : date) (x : Q) :
  contract Ymax -> (Z.to_nat Ymax <= fuel)%nat -> y < Ymax ->
  HebrewDate.__init__ y m d None = Return a ->
  BaseDate.jd a = Some x -> in_exact_range x -> in_scope Ymax x ->
  exists g h,
    BaseDate.to_greg a = Return (AGregorianDate g)
    /\ BaseDate.equals (AGregorianDate g) (Date a) = Return true
    /\ GregorianDate_to_heb fuel g = Return (AHebrewDate h)
    /\ tuple h = (y, m, d).
Proof.
  intros C Hfuel Hy Ha Hjd _ Hscope.
  apply HebrewDate_init_inv in Ha. destruct Ha as (Hy1 & Hm & Hd & ->).
  pose proof Hjd as Hjd'. cbn [BaseDate.jd] in Hjd'.
  rewrite (hebrew_jd_computed y m d Hm) in Hjd'. injection Hjd' as Ex.
  fold (hebrew_day_number y m d) in Ex.
  assert (Hhalf : half_integer x).
  { exists (hebrew_day_number y m d + 347996). rewrite <- Ex. qlin. }
  pose proof (normalize_fixed x Hhalf) as En.
  destruct (to_greg_total (JulianDay.normalize x)) as (gy & gm & gd & Hg).
  set (xg := JulianDay.normalize x) in *.
  exists (mkCalendarDate gy gm gd (Some xg)).
  exists (mkCalendarDate y m d (Some (JulianDay.normalize xg))).
  split; [unfold BaseDate.to_greg; rewrite Hjd; exact Hg|].
  split.
  - unfold BaseDate.equals, BaseDate.__eq__, BaseDate.operand_jd.
    rewrite Hjd. cbn [BaseDate.jd GregorianDate.jd _jd BaseDate.jd_eq].
    replace (Py.eq xg x) with true; [reflexivity|].
    symmetry. apply eq_spec. exact En.
  - split; [|reflexivity].
    unfold GregorianDate_to_heb, GregorianDate_to_jd, JulianDay.__init__.
    cbn [GregorianDate.jd _jd].
    assert (E2 : JulianDay.normalize xg == x).
    { rewrite (normalize_fixed xg (normalize_half_integer x)). exact En. }
    apply (to_heb_of_day Ymax C); try assumption; try lia.
    + rewrite E2, <- Ex. reflexivity.
    + unfold in_scope. rewrite (year_estimate_compat _ x E2). exact Hscope.
Qed.

Lemma hebrew_to_gregorian_and_back_witness :
  exists g h,
    BaseDate.to_greg (U := Reference.calendar)
      (AHebrewDate (mkCalendarDate 5781 9 25 None))
    = Return (AGregorianDate g)
    /\ BaseDate.equals (U := Reference.calendar) (AGregorianDate g)
         (Date (AHebrewDate (mkCalendarDate 5781 9 25 None))) = Return true
    /\ GregorianDate_to_heb (U := Reference.calendar) (Z.to_nat 6020) g
       = Return (AHebrewDate h)
    /\ tuple h = (5781, 9, 25).
Proof.
  refine (hebrew_to_gregorian_and_back (U := Reference.calendar)
            6020 (Z.to_nat 6020) 5781 9 25 _ 2459194.5
            reference_contract _ _ _ _ _ _).
  - lia.
  - lia.
  - vm_compute. reflexivity.
  - vm_compute. reflexivity.
  - vm_compute. discriminate.
  - vm_compute. reflexivity.
Defined.

(** *** The Saturday on or after a date *)

Section NextShabbos.
Context {U : utils}.

Lemma shabbos_distance_of_landings (fuel : nat) (d : date) (x : Q) (k : Z) :
  BaseDate.jd d = Some x -> x == inject_Z k + 0.5 ->
  (forall j, 0 <= j <= 6 -> lands fuel d (x + inject_Z j)) ->
  exists s v, BaseDate.shabbos fuel d = Return s
              /\ BaseDate.minus fuel s (Date d) = Return (VFloat v)
              /\ v == inject_Z (6 - (k + 2) mod 7)
              /\ BaseDate.__le__ d (Date s) = Return true.
Proof.
  intros Hjd Hk Hland.
  pose proof (weekday_value d x k Hjd Hk) as Hw.
  set (w := (k + 2) mod 7 + 1) in *.
  assert (Hj : 0 <= 7 - w <= 6) by (subst w; zdiv).
  destruct (plus_of_landing fuel d (7 - w) x Hjd (ex_intro _ k Hk)
              (Hland (7 - w) Hj)) as (s & xs & P & Js & Es & _).
  exists s, (Qabs (xs - x)%Q).
  split; [unfold BaseDate.shabbos; rewrite Hw; cbn [bind]; exact P|].
  split; [unfold BaseDate.minus, BaseDate.__sub__; rewrite Js, Hjd; reflexivity|].
  assert (Hq : (inject_Z 0 <= inject_Z (7 - w))%Q) by (rewrite <- Zle_Qle; lia).
  change (inject_Z 0) with 0%Q in Hq.
  split.
  - rewrite Es. setoid_replace (x + inject_Z (7 - w) - x)%Q
      with (inject_Z (7 - w)) by ring.
    rewrite Qabs_pos by exact Hq.
    replace (7 - w) with (6 - (k + 2) mod 7) by (subst w; lia). reflexivity.
  - unfold BaseDate.__le__, BaseDate.ordering, BaseDate.operand_jd.
    rewrite Hjd, Js. cbn [BaseDate.jd_cmp]. f_equal. apply le_spec.
    rewrite Es. lra.
Qed.

End NextShabbos.

(** X24.  For a date with a Julian day in the range in which the float
    arithmetic is exact, [shabbos()] is the first Saturday on or after the
    date: it is never before the date, and it lies [7 - weekday()] days
    after it, a number of 0..6.  For a Hebrew date the calendar
    collaborator has to meet its contract on the years in scope. *)
Theorem shabbos_is_on_or_after {U : utils} (Ymax : Z) (fuel : nat)
        (d : date) (x : Q) (w : Z) :
  constructed d -> BaseDate.jd d = Some x -> BaseDate.weekday d = Return w ->
  in_exact_range x ->
  (is_hebrew d = false \/
   (contract Ymax /\ (Z.to_nat Ymax <= fuel)%nat /\ (347997 < x)%Q
    /\ in_scope Ymax (x + inject_Z 6))) ->
  exists s v, BaseDate.shabbos fuel d = Return s
              /\ BaseDate.minus fuel s (Date d) = Return (VFloat v)
              /\ v == inject_Z (7 - w) /\ 0 <= 7 - w <= 6
              /\ BaseDate.__le__ d (Date s) = Return true.
Proof.
  intros Hd Hjd Hw _ Hcase.
  destruct (constructed_jd_defined d Hd) as (x' & Hx' & Hhalf).
  rewrite Hjd in Hx'. injection Hx' as <-.
  destruct Hhalf as [k Hk].
  rewrite (weekday_value d x k Hjd Hk) in Hw. injection Hw as <-.
  destruct (shabbos_distance_of_landings fuel d x k Hjd Hk)
    as (s & v & S & M & V & L).
  - intros j Hj. destruct Hcase as [K | (C & Hfuel & Hx & Hscope)].
    + apply lands_not_hebrew. exact K.
    + destruct d as [| |c]; try (apply lands_not_hebrew; reflexivity).
      apply (lands_hebrew Ymax); try assumption.
      * apply half_integer_shift. exists k. exact Hk.
      * assert (Hq : (inject_Z 0 <= inject_Z j)%Q) by (rewrite <- Zle_Qle; lia).
        change (inject_Z 0) with 0%Q in Hq. lra.
      * unfold in_scope in *.
        pose proof (year_estimate_mono x j 6 (ex_intro _ k Hk) ltac:(lia)). lia.
  - exists s, v. split; [exact S|]. split; [exact M|].
    split; [rewrite V; replace (7 - ((k + 2) mod 7 + 1)) with (6 - (k + 2) mod 7)
                         by lia; reflexivity|].
    split; [zdiv | exact L].
Qed.

Lemma shabbos_is_on_or_after_witness :
  exists s v,
    BaseDate.shabbos (U := Reference.calendar) 0
      (AGregorianDate (mkCalendarDate 2020 12 13 None)) = Return s
    /\ BaseDate.minus (U := Reference.calendar) 0 s
         (Date (AGregorianDate (mkCalendarDate 2020 12 13 None)))
       = Return (VFloat v)
    /\ v == inject_Z (7 - 1) /\ 0 <= 7 - 1 <= 6
    /\ BaseDate.__le__ (U := Reference.calendar)
         (AGregorianDate (mkCalendarDate 2020 12 13 None)) (Date s)
       = Return true.
Proof.
  apply (shabbos_is_on_or_after (U := Reference.calendar) 6020 0
           (AGregorianDate (mkCalendarDate 2020 12 13 None)) 2459196.5 1).
  - split; [reflexivity | intros v H; discriminate H].
  - reflexivity.
  - reflexivity.
  - vm_compute. discriminate.
  - left. reflexivity.
Defined.

(** *** The Hebrew date string *)

(** X25.  [hebrew_date_string()] is the date formatted with the Hebrew
    directives [%*d %*B %*y], and [hebrew_date_string(True)] the date
    formatted with [%*d %*B %*Y]: both ways of writing the date in Hebrew
    letters agree, for every date and whatever the renderers return. *)
Theorem hebrew_date_string_is_a_format {U : utils} {R : renderers}
        (self : CalendarDateMixin) :
  HebrewFormat.__format__ self "%*d %*B %*y"
  = Return (hebrew_date_string self false)
  /\ HebrewFormat.__format__ self "%*d %*B %*Y"
     = Return (hebrew_date_string self true).
Proof.
  split; reflexivity.
Qed.
